(** * statannot: placement of significance brackets over categorical plots

    A shallow embedding of [statannot/format_annotations.py] and
    [statannot/statannot.py].

    Numbers.  A Python/numpy float is an exact rational ([Q]): the sums
    and products of the code are taken without the rounding of binary64.
    A float that may be [nan] is a [float], that is an [option Q] with
    [None] for [nan]; comparisons with [nan] are false and arithmetic
    propagates it, as IEEE does.  Statements about orders, lengths and
    symbolic sums are made on this model.  What depends on the very digits
    binary64 yields is stated on [Binary64], which carries out the
    arithmetic of one placement on the primitive floats.

    The numpy array [y_stack_arr] has the dtype numpy gives it: int64 when
    every position and every maximum is an integer (integer data, no hue),
    float64 otherwise; a float written to an int64 array loses its
    fraction.

    Effects.  Exceptions are a sum type; the plot surface is a record
    holding the y-limits and the artists drawn so far, threaded through
    the annotation loop, so that an exception raised in the middle of the
    loop leaves the artists drawn before it.

    Collaborators.  seaborn, matplotlib and the [stats] package are not
    part of the two modules; what they return enters as the fields of a
    record of collaborators, as section variables of the formatter, or
    as fields of the arguments (the plotter seaborn builds). *)

From Stdlib Require Import List String Bool Arith Lia ZArith.
From Stdlib Require Import QArith Qabs Qminmax Qround Lqa.
From Stdlib Require PrimFloat.
Set Warnings "-inexact-float".
From Stdlib Require Import Permutation Sorted.
Import ListNotations.

Local Open Scope string_scope.
Local Open Scope Q_scope.

(** ** Exceptions *)

Inductive exn : Type :=
| ValueError (msg : string)
| AssertionError (msg : string)
| IndexError (msg : string)
| KeyError (msg : string)
| UnboundLocalError (msg : string)
| External (msg : string).

Inductive Exc (A : Type) : Type :=
| Ok (a : A)
| Raise (e : exn).
Arguments Ok {A} a.
Arguments Raise {A} e.

Definition bind {A B : Type} (m : Exc A) (k : A -> Exc B) : Exc B :=
  match m with
  | Ok a => k a
  | Raise e => Raise e
  end.

Notation "x <- m ;; k" := (bind m (fun x => k))
  (at level 61, m at next level, right associativity).
Notation "' p <- m ;; k" := (bind m (fun p => k))
  (at level 61, p pattern, m at next level, right associativity).

Fixpoint mapM {A B : Type} (f : A -> Exc B) (l : list A) : Exc (list B) :=
  match l with
  | [] => Ok []
  | a :: l' => b <- f a ;; bs <- mapM f l' ;; Ok (b :: bs)
  end.

(** ** Floats *)

Definition Qltb (a b : Q) : bool := negb (Qle_bool b a).

(** [None] is [nan]. *)
Definition float : Type := option Q.

(** The sum and the product as numbers, before binary64 rounds them. *)
Definition fadd (a b : float) : float :=
  match a, b with
  | Some u, Some v => Some (u + v)
  | _, _ => None
  end.

Definition fmul (a b : float) : float :=
  match a, b with
  | Some u, Some v => Some (u * v)
  | _, _ => None
  end.

(** [a > b] on floats. *)
Definition fgtb (a b : float) : bool :=
  match a, b with
  | Some u, Some v => Qltb v u
  | _, _ => false
  end.

Definition isnan (a : float) : bool :=
  match a with
  | None => true
  | Some _ => false
  end.

(** The order in which "undefined" lies below every number; it is the
    order of the monotonicity statements, not a comparison the code makes. *)
Definition fle (a b : float) : Prop :=
  match a, b with
  | None, _ => True
  | Some u, Some v => u <= v
  | Some _, None => False
  end.

(** The dtype of a numpy array of numbers. *)
Inductive DType : Type :=
| int64
| float64.

(** The integer left of a float once its fraction is dropped (towards
    zero), as the conversion of C does. *)
Definition Qtrunc (q : Q) : Z :=
  if Qle_bool 0 q then Qfloor q else Qceiling q.

Definition int64_min : Z := (- 2 ^ 63)%Z.
Definition int64_max : Z := (2 ^ 63 - 1)%Z.

(** A float whose integer part is an int64. *)
Definition int64_of (v : float) : option Z :=
  match v with
  | Some q =>
      if (int64_min <=? Qtrunc q)%Z && (Qtrunc q <=? int64_max)%Z
      then Some (Qtrunc q)
      else None
  | None => None
  end.

(** ** Python builtins *)

Section Builtins.
Context {A : Type}.

(** One pass of a stable insertion: [a] goes before the first element
    that [le] does not put before it. *)
Fixpoint insert_sorted (le : A -> A -> bool) (a : A) (l : list A) : list A :=
  match l with
  | [] => [a]
  | b :: l' => if le a b then a :: b :: l' else b :: insert_sorted le a l'
  end.

(** A stable sort for the order [le]; stands for [sorted(l, key=...)]
    with [le a b] the comparison of the keys. *)
Fixpoint stable_sort (le : A -> A -> bool) (l : list A) : list A :=
  match l with
  | [] => []
  | a :: l' => insert_sorted le a (stable_sort le l')
  end.

(** [sorted(l, key=key)] for a float key. *)
Definition sorted (key : A -> Q) (l : list A) : list A :=
  stable_sort (fun a b => Qle_bool (key a) (key b)) l.

(** [enumerate(l)], counting from [n]. *)
Fixpoint enumerate_from (n : nat) (l : list A) : list (nat * A) :=
  match l with
  | [] => []
  | a :: l' => (n, a) :: enumerate_from (S n) l'
  end.

Definition enumerate (l : list A) : list (nat * A) := enumerate_from 0 l.

(** [l.index(a)]: the position of the first element equal to [a];
    [is_a b] is the comparison [b == a]. *)
Fixpoint index (is_a : A -> bool) (l : list A) : Exc nat :=
  match l with
  | [] => Raise (ValueError "x is not in list")
  | b :: l' => if is_a b then Ok 0%nat else i <- index is_a l' ;; Ok (S i)
  end.

(** [l[i]]. *)
Definition getitem (l : list A) (i : nat) : Exc A :=
  match nth_error l i with
  | Some a => Ok a
  | None => Raise (IndexError "list index out of range")
  end.
End Builtins.

(** [max(a, b)] of the builtin: the first argument unless the second is
    greater. *)
Definition py_max2 (a b : float) : float := if fgtb b a then b else a.

(** [max(l)] of the builtin. *)
Definition py_max (l : list float) : Exc float :=
  match l with
  | [] => Raise (ValueError "max() arg is an empty sequence")
  | a :: l' => Ok (fold_left py_max2 l' a)
  end.

(** ** Data shared by the two modules *)

(** A box is named by its category, or by its category and hue level. *)
Inductive BoxName : Type :=
| Cat (cat : string)
| CatHue (cat hue : string).

Definition BoxName_eqb (a b : BoxName) : bool :=
  match a, b with
  | Cat c, Cat d => String.eqb c d
  | CatHue c h, CatHue d k => String.eqb c d && String.eqb h k
  | _, _ => false
  end.

(** [stats.StatResult.StatResult] is imported by both modules; its
    attributes are the ones the two modules read and write. *)
Record StatResult : Type := mkStatResult {
  test_description : string;
  test_short_name : string;
  stat_str : option string;
  stat : option Q;
  pval : Q;
  box1 : option BoxName;
  box2 : option BoxName;
  correction_method : option string;
  corrected_significance : option bool
}.

(** A threshold table: rows [[cutoff, label]]. *)
Definition Thresholds : Type := list (Q * string).

(** ** format_annotations.py *)

Module FormatAnnotations.

Definition not_monotonic : string :=
  "pvalue_thresholds are not monotonically decreasing".

(** The rows by decreasing cutoff.  Rows with equal cutoffs end up next
    to each other, in whichever order the sort of pandas leaves them; the
    loop below refuses them in either order. *)
Definition by_decreasing_cutoff (t : Thresholds) : Thresholds :=
  stable_sort (fun a b => Qle_bool (fst b) (fst a)) t.

(** [pd.DataFrame(t).sort_values(by=0, ascending=False).values].  A frame
    built from an empty list has no column [0] to sort by. *)
Definition sort_values_desc (t : Thresholds) : Exc Thresholds :=
  match t with
  | [] => Raise (KeyError "0")
  | _ => Ok (by_decreasing_cutoff t)
  end.

(** A table whose cutoffs strictly decrease from each row to the next. *)
Definition strictly_decreasing (rows : Thresholds) : Prop :=
  StronglySorted (fun r r' => fst r' < fst r) rows.

(** [significance_annotations[p_values <= p_upper_bound] = significance_str] *)
Fixpoint assign_below (p_values : list Q) (p_upper_bound : Q)
    (significance_str : string) (annotations : list string) : list string :=
  match p_values, annotations with
  | p :: ps, s :: ss =>
      (if Qle_bool p p_upper_bound then significance_str else s)
        :: assign_below ps p_upper_bound significance_str ss
  | _, _ => annotations
  end.

(** The loop over the sorted table, with [last_p_upper_bound] and the
    annotations as loop state. *)
Fixpoint threshold_loop (p_values : list Q) (rows : Thresholds)
    (last_p_upper_bound : Q) (annotations : list string) : Exc (list string) :=
  match rows with
  | [] => Ok annotations
  | (p_upper_bound, significance_str) :: rows' =>
      if Qltb p_upper_bound last_p_upper_bound
      then threshold_loop p_values rows' p_upper_bound
             (assign_below p_values p_upper_bound significance_str annotations)
      else Raise (AssertionError not_monotonic)
  end.

Fixpoint zip_concat (stars suffixes : list string) : list string :=
  match stars, suffixes with
  | s :: ss, x :: xs => (s ++ x)%string :: zip_concat ss xs
  | _, _ => []
  end.

(** Python's [sorted(pvalue_thresholds, key=lambda x: x[0])]. *)
Definition sort_thresholds (t : Thresholds) : Thresholds := sorted fst t.

Section Formatting.
(** The property [StatResult.significance_suffix]. *)
Variable significance_suffix : StatResult -> string.
(** [stats.utils.return_results], applied to the list of annotations. *)
Variable return_results : list string -> string.
(** [fmt.format(p)] for a format string with one field and a float. *)
Variable format_float : string -> Q -> string.

(** The list the function builds before handing it to
    [return_results]; [result] is the argument after [np.atleast_1d]. *)
Definition significance_annotations_with_suffixes
    (result : list StatResult) (pvalue_thresholds : Thresholds)
    : Exc (list string) :=
  let p_values := map pval result in
  let significance_suffixes := map significance_suffix result in
  let significance_annotations := map (fun _ => EmptyString) p_values in
  rows <- sort_values_desc pvalue_thresholds ;;
  annotations <- threshold_loop p_values rows 1.1 significance_annotations ;;
  Ok (zip_concat annotations significance_suffixes).

Definition pval_annotation_text (result : list StatResult)
    (pvalue_thresholds : Thresholds) : Exc string :=
  l <- significance_annotations_with_suffixes result pvalue_thresholds ;;
  Ok (return_results l).

(** The [for ... else] of [simple_text]: the first row whose cutoff is
    above the p-value, or the exact p-value. *)
Fixpoint simple_pval_text (p : Q) (pvalue_format : string)
    (thresholds : Thresholds) : string :=
  match thresholds with
  | [] => ("p = " ++ format_float pvalue_format p)%string
  | threshold :: rest =>
      if Qltb p (fst threshold)
      then ("p ≤ " ++ snd threshold)%string
      else simple_pval_text p pvalue_format rest
  end.

Definition simple_text (result : StatResult) (pvalue_format : string)
    (pvalue_thresholds : Thresholds) (test_short_name : option string)
    : string :=
  let thresholds := sort_thresholds pvalue_thresholds in
  let text :=
    match test_short_name with
    | Some (String c s) => (String c s ++ " ")%string
    | _ => EmptyString
    end in
  let pval_text := simple_pval_text (pval result) pvalue_format thresholds in
  (text ++ pval_text ++ significance_suffix result)%string.
End Formatting.

(** *** What the loop over the table computes *)

(** The label one p-value is left with after the rows have been gone
    through in order: the label of the last row whose cutoff it does not
    exceed, or the label it started with. *)
Fixpoint last_label (p : Q) (rows : Thresholds) (current : string) : string :=
  match rows with
  | [] => current
  | (cutoff, s) :: rows' =>
      last_label p rows' (if Qle_bool p cutoff then s else current)
  end.

Fixpoint label_all (p_values : list Q) (rows : Thresholds)
    (annotations : list string) : list string :=
  match p_values, annotations with
  | p :: ps, s :: ss => last_label p rows s :: label_all ps rows ss
  | _, _ => annotations
  end.

(** The tables the loop goes through without failing its assertion. *)
Definition accepted (t : Thresholds) : Prop :=
  t <> [] /\
  strictly_decreasing (by_decreasing_cutoff t) /\
  Forall (fun row => fst row < 1.1) t.

(** The prefix [simple_text] puts before the p-value. *)
Definition name_prefix (test_short_name : option string) : string :=
  match test_short_name with
  | Some (String c s) => (String c s ++ " ")%string
  | _ => EmptyString
  end.

End FormatAnnotations.

(** ** statannot.py *)

Module Statannot.
Import FormatAnnotations.

(** *** What the collaborators hand over *)

(** The seaborn plotter ([_BoxPlotter] or [_BarPlotter]) built from the
    caller's data: the attributes the function reads. *)
Record Plotter : Type := mkPlotter {
  group_names : list string;
  hue_names : list string;
  hue_offsets : list Q;
  plot_data : list (list float);
  plot_hues : option (list (list string));
  (** The values are of an integer dtype, so that [np.amax] hands out an
      [np.int64]; [plot_data] then holds whole numbers and no [nan]. *)
  integer_data : bool
}.

(** The callable returned by [get_correction_method]. *)
Record Correction : Type := mkCorrection {
  corr_name : string;
  corr_type : Z;
  corr_call : list Q -> Q -> list bool
}.

(** [stats_params]: the entry read here, and the rest for [stat_test]. *)
Record StatsParams : Type := mkStatsParams {
  alpha : option Q;
  other_params : list (string * Q)
}.

(** The plot surface: its y-limits and what has been drawn on it. *)
Inductive Artist : Type :=
| Line2D (line_x : list Q) (line_y : list float) (lw : Q) (c : string)
| Annotation (text : string) (xy : Q * float) (xytext : Q * Q)
    (fontsize : string).

Record Axes : Type := mkAxes {
  ylim : Q * Q;
  artists : list Artist
}.

(** The code outside the two modules that the call runs. *)
Record Collaborators : Type := mkCollaborators {
  (** The property [StatResult.significance_suffix]. *)
  significance_suffix : StatResult -> string;
  (** [stats.utils.return_results]. *)
  return_results : list string -> string;
  (** [fmt.format(p)] for a format string with one field and a float. *)
  format_float : string -> Q -> string;
  (** [stats.tests.IMPLEMENTED_TESTS] and [stats.tests.stat_test]. *)
  IMPLEMENTED_TESTS : list string;
  stat_test :
    list Q -> list Q -> string -> option Correction -> nat -> Z ->
    StatsParams -> Exc StatResult;
  (** [stats.ComparisonsCorrection.get_correction_method]. *)
  get_correction_method : option string -> Exc (option Correction);
  (** The two measurements of the drawn text; both are calls into
      matplotlib.  The first yields [nan] without a renderer. *)
  _get_annotation_top_in_data_coords : Artist -> Axes -> float;
  _guess_annotation_top_from_font_size : float -> Axes -> float;
  (** The y-limits matplotlib leaves once a line is added by [ax.plot]
      with [scaley] as it stands: the limits found when they had been
      set by hand, the limits of the autoscaling otherwise. *)
  ylim_after_plot : Axes -> Artist -> Q * Q;
  (** What numpy stores in an int64 array for a float that is [nan] or
      whose integer part is no int64; the value depends on the platform. *)
  int64_of_unrepresentable : float -> Z
}.

(** [ax.plot(line_x, line_y, lw=lw, c=c, clip_on=False)] *)
Definition ax_plot (env : Collaborators) (ax : Axes) (line_x : list Q)
    (line_y : list float) (lw : Q) (c : string) : Axes :=
  let line := Line2D line_x line_y lw c in
  mkAxes (ylim_after_plot env ax line) (artists ax ++ [line]).

(** [ax.annotate(...)]: a text takes no part in the autoscaling. *)
Definition ax_annotate (ax : Axes) (ann : Artist) : Axes :=
  mkAxes (ylim ax) (artists ax ++ [ann]).

(** [ax.set_ylim((bottom, top))]; matplotlib refuses a [nan] limit. *)
Definition set_ylim (ax : Axes) (bottom : Q) (top : float) : Exc Axes :=
  match top with
  | Some t => Ok (mkAxes (bottom, t) (artists ax))
  | None => Raise (ValueError "Axis limits cannot be NaN or Inf")
  end.

(** *** Arguments of [add_stat_annotation] *)

Record Args : Type := mkArgs {
  box_plotter : Plotter;
  box_pairs : list (BoxName * BoxName);
  perform_stat_test : bool;
  pvalues : option (list Q);
  arg_test_short_name : option string;
  test : option string;
  text_format : option string;
  (** The string given as [text_format] is the very object of the literal
      of the same spelling in the code of the function.  CPython keeps one
      object for such literals, so a literal in the caller's source is that
      object; a string put together while the program runs is not. *)
  text_format_interned : bool;
  pvalue_format_string : option string;
  text_annot_custom : option (list (option string));
  loc : string;
  show_test_name : bool;
  pvalue_thresholds : option Thresholds;
  stats_params : StatsParams;
  comparisons_correction : option string;
  num_comparisons : option nat;
  use_fixed_offset : bool;
  line_offset_to_box : option Q;
  line_offset : option Q;
  line_height : Q;
  text_offset : Q;
  color : string;
  linewidth : Q;
  fontsize_arg : string;
  verbose : Z
}.

(** *** Box structures *)

Record BoxStruct : Type := mkBoxStruct {
  box : BoxName;
  label : string;
  x : Q;
  box_data : list Q;
  ymax : float
}.

(** [dict(box_struct, xi=i)] *)
Record IndexedBox : Type := mkIndexedBox {
  box_struct :> BoxStruct;
  xi : nat
}.

(** [dict(box_structs_dic[box], i_box_pair=i_box_pair)] *)
Record PairBox : Type := mkPairBox {
  indexed_box :> IndexedBox;
  i_box_pair : nat
}.

(** [box_name[0]] and [box_name[1]], on a tuple or on a string. *)
Definition item0 (box_name : BoxName) : Exc string :=
  match box_name with
  | CatHue cat _ => Ok cat
  | Cat (String ch _) => Ok (String ch EmptyString)
  | Cat EmptyString => Raise (IndexError "string index out of range")
  end.

Definition item1 (box_name : BoxName) : Exc string :=
  match box_name with
  | CatHue _ hue => Ok hue
  | Cat (String _ (String ch _)) => Ok (String ch EmptyString)
  | Cat _ => Raise (IndexError "string index out of range")
  end.

(** Truth value of a box name: an empty string is false. *)
Definition truthy (box_name : BoxName) : bool :=
  match box_name with
  | Cat EmptyString => false
  | _ => true
  end.

Definition find_x_position_box (b_plotter : Plotter) (box_name : BoxName)
    : Exc Q :=
  '(cat, hue_offset) <-
    match plot_hues b_plotter with
    | None => Ok (box_name, 0)
    | Some _ =>
        cat <- item0 box_name ;;
        hue_level <- item1 box_name ;;
        i <- index (String.eqb hue_level) (hue_names b_plotter) ;;
        hue_offset <- getitem (hue_offsets b_plotter) i ;;
        Ok (Cat cat, hue_offset)
    end ;;
  group_pos <- index (fun g => BoxName_eqb (Cat g) cat) (group_names b_plotter) ;;
  Ok (inject_Z (Z.of_nat group_pos) + hue_offset).

(** [seaborn.utils.remove_na] *)
Fixpoint remove_na (l : list float) : list Q :=
  match l with
  | [] => []
  | Some v :: l' => v :: remove_na l'
  | None :: l' => remove_na l'
  end.

(** [group_data[hue_mask]] with [hue_mask = hues == hue_level]. *)
Fixpoint mask_by_hue (hue_level : string) (group_data : list float)
    (hues : list string) : Exc (list float) :=
  match group_data, hues with
  | [], [] => Ok []
  | v :: vs, h :: hs =>
      rest <- mask_by_hue hue_level vs hs ;;
      Ok (if String.eqb h hue_level then v :: rest else rest)
  | _, _ => Raise (IndexError "boolean index did not match indexed array")
  end.

Definition get_box_data (b_plotter : Plotter) (box_name : BoxName)
    : Exc (list Q) :=
  cat <-
    match plot_hues b_plotter with
    | None =>
        if truthy box_name then Ok box_name
        else c <- item0 box_name ;; Ok (Cat c)
    | Some _ => c <- item0 box_name ;; Ok (Cat c)
    end ;;
  i <- index (fun g => BoxName_eqb (Cat g) cat) (group_names b_plotter) ;;
  group_data <- getitem (plot_data b_plotter) i ;;
  match plot_hues b_plotter with
  | None => Ok (remove_na group_data)
  | Some hues =>
      hue_level <- item1 box_name ;;
      group_hues <- getitem hues i ;;
      masked <- mask_by_hue hue_level group_data group_hues ;;
      Ok (remove_na masked)
  end.

(** [np.amax] of a non-empty sample, [nan] for an empty one. *)
Definition amax_or_nan (box_data : list Q) : float :=
  match box_data with
  | [] => None
  | v :: vs => Some (fold_left Qmax vs v)
  end.

Definition box_names_of (b_plotter : Plotter) : list BoxName :=
  match plot_hues b_plotter with
  | None => map Cat (group_names b_plotter)
  | Some _ =>
      flat_map (fun group_name =>
                  map (fun hue_name => CatHue group_name hue_name)
                      (hue_names b_plotter))
               (group_names b_plotter)
  end.

(** [labels[i]]: the name itself, or ['{}_{}'.format(group, hue)]. *)
Definition label_of (box_name : BoxName) : string :=
  match box_name with
  | Cat cat => cat
  | CatHue cat hue => (cat ++ "_" ++ hue)%string
  end.

Definition make_box_struct (b_plotter : Plotter) (box_name : BoxName)
    : Exc BoxStruct :=
  pos <- find_x_position_box b_plotter box_name ;;
  data <- get_box_data b_plotter box_name ;;
  Ok (mkBoxStruct box_name (label_of box_name) pos data (amax_or_nan data)).

(** The list sorted by position and numbered along the x axis. *)
Definition build_box_structs (b_plotter : Plotter) : Exc (list IndexedBox) :=
  l <- mapM (make_box_struct b_plotter) (box_names_of b_plotter) ;;
  Ok (map (fun ib => mkIndexedBox (snd ib) (fst ib)) (enumerate (sorted x l))).

(** [box_structs_dic[name]]: of two entries under one key the dict keeps
    the later one. *)
Fixpoint dict_get (box_structs : list IndexedBox) (name : BoxName)
    : Exc IndexedBox :=
  match box_structs with
  | [] => Raise (KeyError "box")
  | s :: rest =>
      match dict_get rest name with
      | Ok r => Ok r
      | Raise _ => if BoxName_eqb (box s) name then Ok s else Raise (KeyError "box")
      end
  end.

Definition is_in (name : BoxName) (box_names : list BoxName) : bool :=
  existsb (fun b => BoxName_eqb b name) box_names.

Definition invalid_box_pair : exn :=
  ValueError "box_pairs contains an invalid box pair.".

Definition resolve_pair (box_names : list BoxName)
    (box_structs : list IndexedBox) (ip : nat * (BoxName * BoxName))
    : Exc (PairBox * PairBox) :=
  let '(i, (b1, b2)) := ip in
  if is_in b1 box_names && is_in b2 box_names then
    s1 <- dict_get box_structs b1 ;;
    s2 <- dict_get box_structs b2 ;;
    let box_struct1 := mkPairBox s1 i in
    let box_struct2 := mkPairBox s2 i in
    if Qle_bool (x box_struct1) (x box_struct2)
    then Ok (box_struct1, box_struct2)
    else Ok (box_struct2, box_struct1)
  else Raise invalid_box_pair.

Definition build_box_struct_pairs (box_names : list BoxName)
    (box_structs : list IndexedBox) (pairs : list (BoxName * BoxName))
    : Exc (list (PairBox * PairBox)) :=
  mapM (resolve_pair box_names box_structs) (enumerate pairs).

(** The sort key [abs(a[1]['x'] - a[0]['x'])]. *)
Definition span (a : PairBox * PairBox) : Q := Qabs (x (snd a) - x (fst a)).

Definition sort_pairs (l : list (PairBox * PairBox))
    : list (PairBox * PairBox) :=
  sorted span l.

(** The place of a pair in the caller's list, [box_struct1['i_box_pair']]. *)
Definition request_index (u : PairBox * PairBox) : nat := i_box_pair (fst u).

(** *** The occupancy array *)

(** [y_stack_arr]: row 0 the positions, row 1 the highest y at each
    position, row 2 the number of annotations stacked there; one dtype for
    the three rows. *)
Record YStackArr : Type := mkYStackArr {
  dtype : DType;
  row0 : list Q;
  row1 : list float;
  row2 : list nat
}.

(** What an array of dtype [d] stores when [v] is assigned to a slice of
    it: [v] itself in a float64 array, its integer part in an int64 one. *)
Definition astype (env : Collaborators) (d : DType) (v : float) : float :=
  match d with
  | float64 => v
  | int64 =>
      Some (inject_Z match int64_of v with
                     | Some z => z
                     | None => int64_of_unrepresentable env v
                     end)
  end.

(** The dtype [np.array] finds for the nested list of the three rows:
    int64 when every entry is an integer, float64 as soon as one is a
    float.  The counts are integers; a position is [group_pos + 0] without
    hue and [group_pos] plus a float offset with hue; a maximum is an
    integer for integer data and the float [nan] for a box without data.
    Empty rows make a float64 array. *)
Definition array_dtype (b_plotter : Plotter) (box_structs : list IndexedBox)
    : DType :=
  match box_structs, plot_hues b_plotter with
  | _ :: _, None =>
      if integer_data b_plotter
         && forallb (fun s : IndexedBox => negb (isnan (ymax s))) box_structs
      then int64
      else float64
  | _, _ => float64
  end.

Definition init_y_stack_arr (env : Collaborators) (b_plotter : Plotter)
    (box_structs : list IndexedBox) (loc_arg : string) (ylim1 : Q)
    : YStackArr :=
  let arr := mkYStackArr (array_dtype b_plotter box_structs)
                         (map (fun s : IndexedBox => x s) box_structs)
                         (map (fun s : IndexedBox => ymax s) box_structs)
                         (map (fun _ => 0%nat) box_structs) in
  if String.eqb loc_arg "outside"
  then mkYStackArr (dtype arr) (row0 arr)
         (map (fun _ => astype env (dtype arr) (Some ylim1)) (row1 arr))
         (row2 arr)
  else arr.

(** [(x1 <= y_stack_arr[0, :]) & (y_stack_arr[0, :] <= x2)] *)
Definition in_range (x1 x2 : Q) (pos : Q) : bool :=
  Qle_bool x1 pos && Qle_bool pos x2.

(** [y_stack_arr[1, np.where(mask)]] *)
Fixpoint select (x1 x2 : Q) (positions : list Q) (values : list float)
    : list float :=
  match positions, values with
  | p :: ps, v :: vs =>
      if in_range x1 x2 p then v :: select x1 x2 ps vs else select x1 x2 ps vs
  | _, _ => []
  end.

(** [y_stack_arr[1, mask] = y_top_annot] on an array of dtype [d]. *)
Fixpoint assign_range (env : Collaborators) (d : DType) (x1 x2 : Q)
    (positions : list Q) (values : list float) (y_top_annot : float)
    : list float :=
  match positions, values with
  | p :: ps, v :: vs =>
      (if in_range x1 x2 p then astype env d y_top_annot else v)
        :: assign_range env d x1 x2 ps vs y_top_annot
  | _, _ => values
  end.

(** [a[xi1:xi2 + 1] = a[xi1:xi2 + 1] + 1], [i] the index of the head. *)
Fixpoint increment_slice (xi1 xi2 : nat) (i : nat) (counts : list nat)
    : list nat :=
  match counts with
  | [] => []
  | n :: ns =>
      (if (xi1 <=? i)%nat && (i <? xi2 + 1)%nat then S n else n)
        :: increment_slice xi1 xi2 (S i) ns
  end.

(** The scan of [np.nanargmax]: the first position of the greatest
    number, [nan] entries skipped. *)
Fixpoint argmax_scan (l : list float) (i : nat) (best : option (nat * Q))
    : option (nat * Q) :=
  match l with
  | [] => best
  | a :: l' =>
      argmax_scan l' (S i)
        match a, best with
        | Some v, Some (_, b) => if Qltb b v then Some (i, v) else best
        | Some v, None => Some (i, v)
        | None, _ => best
        end
  end.

Definition nanargmax (l : list float) : Exc nat :=
  match argmax_scan l 0 None with
  | Some (i, _) => Ok i
  | None => Raise (ValueError "All-NaN slice encountered")
  end.

(** *** Validation *)

(** Modelled from the spec: [utils.assert_is_in] is not among the sources.
    Section 6 lists "invalid location or text-format selector" among the
    validation errors raised before any drawing: a value outside the
    list of valid values is refused. *)
Definition assert_is_in {A : Type} (eqb : A -> A -> bool) (v : A)
    (valid_values : list A) (label_arg : string) : Exc unit :=
  if existsb (eqb v) valid_values then Ok tt
  else Raise (ValueError ("Expected one of the valid values for " ++ label_arg)).

Definition opt_string_eqb (a b : option string) : bool :=
  match a, b with
  | Some s, Some t => String.eqb s t
  | None, None => true
  | _, _ => false
  end.

Definition is_some {A : Type} (o : option A) : bool :=
  match o with
  | Some _ => true
  | None => false
  end.

Definition default_star_thresholds : Thresholds :=
  [(0.0001, "****"); (0.001, "***"); (0.01, "**"); (0.05, "*"); (1, "ns")].

Definition default_simple_thresholds : Thresholds :=
  [(0.00001, "1e-5"); (0.0001, "1e-4"); (0.001, "0.001"); (0.01, "0.01")].

Definition validate_arguments (implemented_tests : list string) (a : Args)
    : Exc unit :=
  _ <-
    (if perform_stat_test a then
       match test a with
       | None =>
           Raise (ValueError
             "If `perform_stat_test` is True, `test` must be specified.")
       | Some t =>
           if is_some (pvalues a) || is_some (arg_test_short_name a) then
             Raise (ValueError
               "If `perform_stat_test` is True, custom `pvalues` or `test_short_name` must be `None`.")
           else if existsb (String.eqb t) implemented_tests then Ok tt
           else
             Raise (ValueError
               ("test value should be one of the following: "
                  ++ String.concat ", " implemented_tests ++ "."))
       end
     else
       match pvalues a with
       | None =>
           Raise (ValueError
             "If `perform_stat_test` is False, custom `pvalues` must be specified.")
       | Some ps =>
           if is_some (test a) then
             Raise (ValueError
               "If `perform_stat_test` is False, `test` must be None.")
           else if negb (List.length ps =? List.length (box_pairs a))%nat then
             Raise (ValueError
               "`pvalues` should be of the same length as `box_pairs`.")
           else Ok tt
       end) ;;
  _ <-
    match text_annot_custom a with
    | Some l =>
        if negb (List.length l =? List.length (box_pairs a))%nat then
          Raise (ValueError
            "`text_annot_custom` should be of same length as `box_pairs`.")
        else Ok tt
    | None => Ok tt
    end ;;
  _ <- assert_is_in String.eqb (loc a) ["inside"; "outside"] "argument `loc`" ;;
  assert_is_in opt_string_eqb (text_format a)
    [Some "full"; Some "simple"; Some "star"] "argument `text_format`".

(** The offsets in data units, [(y_offset, y_offset_to_box)]. *)
Definition resolve_offsets (a : Args) (yrange : Q) : Exc (Q * Q) :=
  '(line_offset', line_offset_to_box') <-
    match line_offset a with
    | None =>
        if String.eqb (loc a) "inside" then
          Ok (0.05, Some (match line_offset_to_box a with
                          | None => 0.06
                          | Some v => v
                          end))
        else
          Ok (0.03, Some (match line_offset_to_box a with
                          | None => 0.03
                          | Some v => v
                          end))
    | Some lo =>
        if String.eqb (loc a) "inside" then
          Ok (lo, Some (match line_offset_to_box a with
                        | None => 0.06
                        | Some v => v
                        end))
        else if String.eqb (loc a) "outside" then Ok (lo, Some lo)
        else Ok (lo, line_offset_to_box a)
    end ;;
  match line_offset_to_box' with
  | Some lotb => Ok (line_offset' * yrange, lotb * yrange)
  | None => Raise (External "TypeError: unsupported operand type(s) for *")
  end.

(** *** The body of [add_stat_annotation] *)

(** The variables of the annotation loop. [text] is unbound ([None]) until
    a branch assigns it; once bound it is [None] or a string. *)
Record Locals : Type := mkLocals {
  y_stack_arr : YStackArr;
  y_stack : list float;
  ymaxs : list float;
  test_short_name_var : option string;
  text_var : option (option string)
}.

(** Values fixed before the loops start. *)
Record Config : Type := mkConfig {
  cfg_thresholds : Thresholds;
  cfg_pvalue_format : string;
  cfg_simple_format : string;
  y_offset : Q;
  y_offset_to_box : Q;
  cfg_h : Q
}.

Definition or_empty (s : option string) : string :=
  match s with
  | Some t => t
  | None => EmptyString
  end.

Definition set_boxes (r : StatResult) (b1 b2 : BoxName) : StatResult :=
  mkStatResult (test_description r) (test_short_name r) (stat_str r) (stat r)
    (pval r) (Some b1) (Some b2) (correction_method r)
    (corrected_significance r).

Definition set_correction (r : StatResult) (name : string)
    (is_significant : bool) : StatResult :=
  mkStatResult (test_description r) (test_short_name r) (stat_str r) (stat r)
    (pval r) (box1 r) (box2 r) (Some name) (Some is_significant).

(** [zip(significant_pvalues, test_result_list)]: results beyond the
    shorter list are left as they are. *)
Fixpoint mark_significance (name : string) (significant : list bool)
    (results : list StatResult) : list StatResult :=
  match significant, results with
  | s :: ss, r :: rs => set_correction r name s :: mark_significance name ss rs
  | _, _ => results
  end.

(** Find the y maximum for the positions between [x1] and [x2]:
    [(i_ymax_in_range_x1_x2, ymax_in_range_x1_x2)]. *)
Definition query_stack (arr : YStackArr) (x1 x2 : Q) (xi1 : nat)
    : Exc (nat * float) :=
  k <- nanargmax (select x1 x2 (row0 arr) (row1 arr)) ;;
  let i := (xi1 + k)%nat in
  v <- getitem (row1 arr) i ;;
  Ok (i, v).

(** The y of the new bracket: the maximum found plus the offset to a box
    or to an annotation below. *)
Definition bracket_y (cfg : Config) (arr : YStackArr) (x1 x2 : Q) (xi1 : nat)
    : Exc float :=
  '(i, ymax_in_range) <- query_stack arr x1 x2 xi1 ;;
  n <- getitem (row2 arr) i ;;
  let offset := if (n =? 0)%nat then y_offset_to_box cfg else y_offset cfg in
  Ok (fadd ymax_in_range (Some offset)).

Definition update_stack (env : Collaborators) (arr : YStackArr) (x1 x2 : Q)
    (xi1 xi2 : nat) (y_top_annot : float) : YStackArr :=
  mkYStackArr (dtype arr) (row0 arr)
              (assign_range env (dtype arr) x1 x2 (row0 arr) (row1 arr)
                 y_top_annot)
              (increment_slice xi1 xi2 0 (row2 arr)).

Section Body.
Variable env : Collaborators.
Variable a : Args.

(** One iteration of the loop "fetch results of all tests". *)
Definition fetch_result (correction : option Correction) (n_pairs : nat)
    (pair : PairBox * PairBox) : Exc StatResult :=
  let box_struct1 := fst pair in
  let box_struct2 := snd pair in
  result <-
    (if perform_stat_test a then
       stat_test env (box_data box_struct1) (box_data box_struct2)
         (or_empty (test a)) correction
         match num_comparisons a with
         | Some (S n) => S n
         | _ => n_pairs
         end
         (verbose a) (stats_params a)
     else
       p <- getitem match pvalues a with Some ps => ps | None => [] end
                    (i_box_pair box_struct1) ;;
       Ok (mkStatResult "Custom statistical test"
             (or_empty (arg_test_short_name a)) None None p
             None None None None)) ;;
  Ok (set_boxes result (box box_struct1) (box box_struct2)).

(** [test_short_name] once that loop is over. *)
Definition test_short_name_after (pairs : list (PairBox * PairBox))
    : option string :=
  if perform_stat_test a then arg_test_short_name a
  else match pairs with
       | [] => arg_test_short_name a
       | _ => Some (or_empty (arg_test_short_name a))
       end.

(** Corrections that work on the whole set of p-values. *)
Definition correct_results (correction : option Correction)
    (results : list StatResult) : list StatResult :=
  match correction with
  | Some corr =>
      if (corr_type corr =? 1)%Z then
        let alpha' := match alpha (stats_params a) with
                      | Some v => v
                      | None => 0.05
                      end in
        mark_significance (corr_name corr)
          (corr_call corr (map pval results) alpha') results
      else results
  | None => results
  end.

(** [text_format is 'literal']: the argument is the object of the literal,
    not only a string that spells the same. *)
Definition text_format_is (literal : string) : bool :=
  opt_string_eqb (text_format a) (Some literal) && text_format_interned a.

(** The text of one annotation: the new value of [text] and of
    [test_short_name].  When no branch assigns it, [text] keeps the value
    of the iteration before, or stays unbound. *)
Definition choose_text (cfg : Config) (lc : Locals) (i : nat)
    (result : StatResult) : Exc (option (option string) * option string) :=
  match text_annot_custom a with
  | Some custom =>
      t <- getitem custom i ;; Ok (Some t, test_short_name_var lc)
  | None =>
      if opt_string_eqb (text_format a) (Some "full") then
        Ok (Some (Some (test_short_name result ++ " p = "
                          ++ format_float env (cfg_pvalue_format cfg)
                               (pval result)
                          ++ significance_suffix env result)%string),
            test_short_name_var lc)
      else if opt_string_eqb (text_format a) None then
        Ok (Some None, test_short_name_var lc)
      else if text_format_is "star" then
        t <- pval_annotation_text (significance_suffix env)
               (return_results env) [result] (cfg_thresholds cfg) ;;
        Ok (Some (Some t), test_short_name_var lc)
      else if text_format_is "simple" then
        let name :=
          if show_test_name a then
            match test_short_name_var lc with
            | Some (String ch s) => String ch s
            | _ => EmptyString
            end
          else EmptyString in
        Ok (Some (Some (simple_text (significance_suffix env)
                          (format_float env) result
                          (cfg_simple_format cfg) (cfg_thresholds cfg)
                          (Some name))),
            Some name)
      else Ok (text_var lc, test_short_name_var lc)
  end.

(** Draw the text above the bracket and measure its top. *)
Definition draw_text (ax : Axes) (text : string) (x1 x2 : Q) (y : float)
    (h : Q) : Axes * float :=
  let ann := Annotation text ((x1 + x2) / 2, fadd y (Some h))
               (0, text_offset a) (fontsize_arg a) in
  let ax' := ax_annotate ax ann in
  let baseline := fadd (fadd y (Some h)) (Some (text_offset a)) in
  if use_fixed_offset a then
    (ax', _guess_annotation_top_from_font_size env baseline ax')
  else
    let y_top_annot := _get_annotation_top_in_data_coords env ann ax' in
    if isnan y_top_annot
    then (ax', _guess_annotation_top_from_font_size env baseline ax')
    else (ax', y_top_annot).

(** One iteration of the loop "Then annotate". *)
Definition annotate_pair (cfg : Config) (lc : Locals) (ax : Axes)
    (pr : (PairBox * PairBox) * StatResult) : Axes * Exc Locals :=
  let '(box_structs, result) := pr in
  let x1 := x (fst box_structs) in
  let x2 := x (snd box_structs) in
  let xi1 := xi (fst box_structs) in
  let xi2 := xi (snd box_structs) in
  match choose_text cfg lc (i_box_pair (fst box_structs)) result with
  | Raise e => (ax, Raise e)
  | Ok (text, name) =>
      match bracket_y cfg (y_stack_arr lc) x1 x2 xi1 with
      | Raise e => (ax, Raise e)
      | Ok y =>
          let h := cfg_h cfg in
          let top := fadd y (Some h) in
          let ax1 := ax_plot env ax [x1; x1; x2; x2] [y; top; top; y]
                       (linewidth a) (color a) in
          match text with
          | None =>
              (ax1, Raise (UnboundLocalError
                 "local variable 'text' referenced before assignment"))
          | Some t =>
              let '(ax2, y_top_annot) :=
                match t with
                | Some s => draw_text ax1 s x1 x2 y h
                | None => (ax1, top)
                end in
              let y_stack' := (y_stack lc ++ [y_top_annot])%list in
              match py_max y_stack' with
              | Raise e => (ax2, Raise e)
              | Ok m =>
                  (ax2,
                   Ok (mkLocals
                         (update_stack env (y_stack_arr lc) x1 x2 xi1 xi2
                            y_top_annot)
                         y_stack' (ymaxs lc ++ [m])%list name (Some t)))
              end
          end
      end
  end.

Fixpoint annotate_loop (cfg : Config)
    (l : list ((PairBox * PairBox) * StatResult)) (lc : Locals) (ax : Axes)
    : Axes * Exc Locals :=
  match l with
  | [] => (ax, Ok lc)
  | pr :: l' =>
      match annotate_pair cfg lc ax pr with
      | (ax', Ok lc') => annotate_loop cfg l' lc' ax'
      | (ax', Raise e) => (ax', Raise e)
      end
  end.

(** What is known once the arguments are validated and the geometry of
    the plot is resolved, before the pairs are looked at. *)
Record Setup : Type := mkSetup {
  su_correction : option Correction;
  su_cfg : Config;
  su_box_structs : list IndexedBox
}.

(** Everything computed before the first annotation is drawn. *)
Record Prepared : Type := mkPrepared {
  prep_cfg : Config;
  prep_box_structs : list IndexedBox;
  prep_pairs : list (PairBox * PairBox);
  prep_results : list StatResult;
  prep_locals : Locals
}.

Definition effective_thresholds : Thresholds :=
  match pvalue_thresholds a with
  | Some t => t
  | None =>
      if opt_string_eqb (text_format a) (Some "star")
      then default_star_thresholds
      else default_simple_thresholds
  end.

Definition setup (ax : Axes) : Exc Setup :=
  let pvalue_format := match pvalue_format_string a with
                       | None => "{:.3e}"
                       | Some s => s
                       end in
  let simple_format := match pvalue_format_string a with
                       | None => "{:.2f}"
                       | Some s => s
                       end in
  _ <- validate_arguments (IMPLEMENTED_TESTS env) a ;;
  correction <- get_correction_method env (comparisons_correction a) ;;
  thresholds <-
    (if (1 <=? verbose a)%Z && opt_string_eqb (text_format a) (Some "star")
     then sort_values_desc effective_thresholds
     else Ok effective_thresholds) ;;
  let yrange := snd (ylim ax) - fst (ylim ax) in
  '(y_off, y_off_to_box) <- resolve_offsets a yrange ;;
  box_structs <- build_box_structs (box_plotter a) ;;
  Ok (mkSetup correction
        (mkConfig thresholds pvalue_format simple_format y_off y_off_to_box
           (line_height a * yrange))
        box_structs).

Definition prepare (ax : Axes) : Exc Prepared :=
  s <- setup ax ;;
  resolved <- build_box_struct_pairs (box_names_of (box_plotter a))
                (su_box_structs s) (box_pairs a) ;;
  let box_struct_pairs := sort_pairs resolved in
  let arr := init_y_stack_arr env (box_plotter a) (su_box_structs s) (loc a)
               (snd (ylim ax)) in
  results <- mapM (fetch_result (su_correction s)
                     (List.length box_struct_pairs))
               box_struct_pairs ;;
  Ok (mkPrepared (su_cfg s) (su_box_structs s) box_struct_pairs
        (correct_results (su_correction s) results)
        (mkLocals arr [] [] (test_short_name_after box_struct_pairs) None)).

(** The limits set before returning. *)
Definition final_ylim (ax0 ax : Axes) (y_stack_max : float) : Exc Axes :=
  if String.eqb (loc a) "inside" then
    set_ylim ax (fst (ylim ax0))
      (py_max2 (fmul (Some 1.03) y_stack_max) (Some (snd (ylim ax0))))
  else if String.eqb (loc a) "outside" then
    set_ylim ax (fst (ylim ax0)) (Some (snd (ylim ax0)))
  else Ok ax.

(** The whole call, with the local variables at the [return]. *)
Definition run (ax : Axes) : Axes * Exc (Prepared * Locals) :=
  match prepare ax with
  | Raise e => (ax, Raise e)
  | Ok p =>
      match annotate_loop (prep_cfg p)
              (combine (prep_pairs p) (prep_results p)) (prep_locals p) ax
      with
      | (ax1, Raise e) => (ax1, Raise e)
      | (ax1, Ok lc) =>
          match y_stack_max <- py_max (ymaxs lc) ;;
                final_ylim ax ax1 y_stack_max
          with
          | Raise e => (ax1, Raise e)
          | Ok ax2 => (ax2, Ok (p, lc))
          end
      end
  end.

(** [add_stat_annotation]: the surface as the call leaves it, and
    [test_result_list] or the exception. *)
Definition add_stat_annotation (ax : Axes) : Axes * Exc (list StatResult) :=
  match run ax with
  | (ax', Ok (p, _)) => (ax', Ok (prep_results p))
  | (ax', Raise e) => (ax', Raise e)
  end.
End Body.

(** A result belongs to a pair when it names the pair's boxes, left
    then right, and carries the custom p-value given for the request. *)
Definition result_of (a : Args) (r : StatResult) (u : PairBox * PairBox)
    : Prop :=
  box1 r = Some (box (fst u)) /\
  box2 r = Some (box (snd u)) /\
  (perform_stat_test a = false ->
   forall ps, pvalues a = Some ps ->
              nth_error ps (request_index u) = Some (pval r)).

(** *** Invariants of the annotation loop *)

(** [ymaxs] follows [y_stack]: they start with the same value and the
    maximum of the tops so far is among the recorded maxima. *)
Definition maxima_track_tops (lc : Locals) : Prop :=
  match y_stack lc, ymaxs lc with
  | [], [] => True
  | t0 :: _, m0 :: _ =>
      m0 = t0 /\ exists m, py_max (y_stack lc) = Ok m /\ In m (ymaxs lc)
  | _, _ => False
  end.

(** The positions of the array strictly increase and rows 1 and 2 have an
    entry for each of them. *)
Definition stack_wf (arr : YStackArr) : Prop :=
  StronglySorted Qlt (row0 arr) /\
  List.length (row1 arr) = List.length (row0 arr) /\
  List.length (row2 arr) = List.length (row0 arr).

(** The left box of the pair stands in the list of positions at its own
    index [xi]. *)
Definition pair_wf (positions : list Q) (u : PairBox * PairBox) : Prop :=
  nth_error positions (xi (fst u)) = Some (x (fst u)).

(** A position lies between the two boxes of the pair. *)
Definition covers (u : PairBox * PairBox) (pos : Q) : bool :=
  in_range (x (fst u)) (x (snd u)) pos.

(** No two boxes of the plot share an x position. *)
Definition distinct_positions (box_structs : list IndexedBox) : Prop :=
  forall i j s t,
    nth_error box_structs i = Some s ->
    nth_error box_structs j = Some t ->
    x s == x t -> i = j.

(** What the measurement of a drawn text is expected to yield: a number,
    not below the top of the bracket the text sits on. *)
Definition text_not_below_bracket (env : Collaborators) (a : Args) : Prop :=
  forall ax s x1 x2 y h,
    fle (Some (y + h)) (snd (draw_text env a ax s x1 x2 (Some y) h)).

(** The number of pairs of a list whose index range, from the left box to
    the right box, contains the index [i]. *)
Definition covering_count (i : nat) (pairs : list (PairBox * PairBox)) : nat :=
  List.length
    (filter (fun u : PairBox * PairBox =>
               (xi (fst u) <=? i)%nat && (i <=? xi (snd u))%nat) pairs).

(** The same call with another value of [line_offset_to_box]. *)
Definition with_line_offset_to_box (a : Args) (v : option Q) : Args :=
  mkArgs (box_plotter a) (box_pairs a) (perform_stat_test a) (pvalues a)
    (arg_test_short_name a) (test a) (text_format a)
    (text_format_interned a)
    (pvalue_format_string a) (text_annot_custom a) (loc a)
    (show_test_name a) (pvalue_thresholds a) (stats_params a)
    (comparisons_correction a) (num_comparisons a) (use_fixed_offset a)
    v (line_offset a) (line_height a) (text_offset a) (color a)
    (linewidth a) (fontsize_arg a) (verbose a).

(** The brackets among the artists. *)
Definition is_line (art : Artist) : bool :=
  match art with
  | Line2D _ _ _ _ => true
  | Annotation _ _ _ _ => false
  end.

End Statannot.

(** ** The arithmetic of one placement in binary64

    The lines of [add_stat_annotation] that turn the fractions into data
    units (l.165, 183-184) and find the y of a bracket, its height and its
    top (l.338-353, 379), carried out on the floats of the machine.  The
    tops read from an int64 array enter the sums as floats, as numpy
    converts them. *)

Module Binary64.
Import PrimFloat.
Local Open Scope float_scope.

(** [(x1 <= y_stack_arr[0, :]) & (y_stack_arr[0, :] <= x2)] *)
Definition in_range (x1 x2 pos : float) : bool :=
  (x1 <=? pos) && (pos <=? x2).

(** [y_stack_arr[1, np.where(mask)]] *)
Fixpoint select (x1 x2 : float) (positions values : list float)
    : list float :=
  match positions, values with
  | p :: ps, v :: vs =>
      if in_range x1 x2 p then v :: select x1 x2 ps vs else select x1 x2 ps vs
  | _, _ => []
  end.

(** The scan of [np.nanargmax]. *)
Fixpoint argmax_scan (l : list float) (i : nat) (best : option (nat * float))
    : option (nat * float) :=
  match l with
  | [] => best
  | v :: l' =>
      argmax_scan l' (S i)
        (if is_nan v then best
         else match best with
              | Some (_, b) => if b <? v then Some (i, v) else best
              | None => Some (i, v)
              end)
  end.

Definition nanargmax (l : list float) : Exc nat :=
  match argmax_scan l 0 None with
  | Some (i, _) => Ok i
  | None => Raise (ValueError "All-NaN slice encountered")
  end.

(** One placement on the rows [positions], [tops] and [counts] of the
    occupancy array: the y of the bracket, its height [h] and its top
    [y + h], the top consumed when no text is drawn. *)
Definition place (line_offset line_offset_to_box line_height : float)
    (ylim : float * float) (positions tops : list float) (counts : list nat)
    (x1 x2 : float) (xi1 : nat) : Exc (float * float * float) :=
  let yrange := snd ylim - fst ylim in
  let y_offset := line_offset * yrange in
  let y_offset_to_box := line_offset_to_box * yrange in
  k <- nanargmax (select x1 x2 positions tops) ;;
  let i_ymax_in_range_x1_x2 := (xi1 + k)%nat in
  ymax_in_range_x1_x2 <- getitem tops i_ymax_in_range_x1_x2 ;;
  n <- getitem counts i_ymax_in_range_x1_x2 ;;
  let offset := if (n =? 0)%nat then y_offset_to_box else y_offset in
  let y := ymax_in_range_x1_x2 + offset in
  let h := line_height * yrange in
  Ok (y, h, y + h).

End Binary64.

(** * Concrete inputs

    The inputs on which the statements below are evaluated. *)

Module Inputs.
Import FormatAnnotations Statannot.

(** Collaborators that take no part in the outcome of the calls below. *)
Definition no_suffix (r : StatResult) : string := EmptyString.
Definition first_or_join (l : list string) : string :=
  match l with
  | [s] => s
  | _ => String.concat "," l
  end.
Definition format_as_is (fmt : string) (p : Q) : string := fmt.

Definition result_with_pval (p : Q) : StatResult :=
  mkStatResult "Custom statistical test" EmptyString None None p
    None None None None.

(** Two rows that strictly decrease once sorted, the larger cutoff above
    the bound the assertion starts from. *)
Definition wide_table : Thresholds := [(0.05, "*"); (1.5, "ns")].

(** A cutoff given twice. *)
Definition repeated_cutoff : Thresholds :=
  [(0.05, "*"); (0.01, "**"); (0.05, "x")].

(** Two cutoffs that both let p = 1 through. *)
Definition two_above_one : Thresholds := [(1.05, "a"); (1, "b")].

(** A cutoff that p = 0 does not reach. *)
Definition negative_cutoff : Thresholds := [(-1, "neg"); (0.05, "*")].

(** A session in which no renderer is attached, the correction name
    resolves to no correction, no test is run, the limits of the axes were
    set by hand, and the platform stores the least int64 for a float that
    has no int64 value. *)
Definition plain_env : Collaborators :=
  mkCollaborators no_suffix first_or_join format_as_is ["t-test_ind"]
    (fun _ _ _ _ _ _ _ => Raise (External "stat_test"))
    (fun _ => Ok None)
    (fun _ _ => None)
    (fun baseline _ => fadd baseline (Some 1))
    (fun ax _ => ylim ax)
    (fun _ => int64_min).

(** A call with custom p-values and the defaults of the signature for
    the layout; the text format is written as a literal in the caller's
    source. *)
Definition custom_args (plotter : Plotter) (pairs : list (BoxName * BoxName))
    (ps : list Q) (texts : option (list (option string)))
    (format : option string) (where_ : string) : Args :=
  mkArgs plotter pairs false (Some ps) None None format true None texts where_
    true None (mkStatsParams None []) None None false None None
    0.02 1 "0.2" 1.5 "medium" 1%Z.

(** Groups A (x = 0, maximum 10) and B (x = 1, maximum 12). *)
Definition two_groups : Plotter :=
  mkPlotter ["A"; "B"] [] [] [[Some 3; Some 10]; [Some 12; None; Some 1]] None false.

Definition three_groups : Plotter :=
  mkPlotter ["A"; "B"; "C"] [] []
    [[Some 1; Some 2]; [Some 2; Some 3]; [Some 3; Some 4]] None false.

Definition four_groups : Plotter :=
  mkPlotter ["A"; "B"; "C"; "D"] [] []
    [[Some 1; Some 2]; [Some 2; Some 3]; [Some 3; Some 4]; [Some 1; Some 5]]
    None false.

(** The farther pair is requested first. *)
Definition far_then_near : Args :=
  custom_args three_groups
    [(Cat "A", Cat "C"); (Cat "A", Cat "B")] [0.1; 0.2]
    (Some [None; None]) (Some "star") "inside".

(** Spans 2, 1, 1, 2 in the order of the request. *)
Definition four_pairs : Args :=
  custom_args four_groups
    [(Cat "A", Cat "C"); (Cat "C", Cat "D"); (Cat "A", Cat "B");
     (Cat "B", Cat "D")]
    [0.1; 0.2; 0.3; 0.4]
    (Some [None; None; None; None]) (Some "star") "inside".

Definition axes_0_6 : Axes := mkAxes (0, 6) [].

(** Four groups and two pairs with star texts; the range of the second
    pair, A to C, includes the positions the first one, A to B, covers. *)
Definition overlapping : Args :=
  custom_args four_groups
    [(Cat "A", Cat "B"); (Cat "A", Cat "C")] [0.03; 0.2]
    None (Some "star") "inside".

(** A group Z that the plot does not have. *)
Definition unknown_group : Args :=
  custom_args three_groups
    [(Cat "A", Cat "B"); (Cat "A", Cat "Z")] [0.1; 0.2]
    None (Some "star") "inside".

(** The scenario of the two groups: one pair, no text, the defaults 0.06
    and 0.02 of an annotation inside the axes, a y-range of 10. *)
Definition scenario : Args :=
  custom_args two_groups [(Cat "A", Cat "B")] [0.5]
    (Some [None]) (Some "star") "inside".

Definition axes_3_13 : Axes := mkAxes (3, 13) [].

(** The same pair annotated outside the axes. *)
Definition scenario_outside : Args :=
  custom_args two_groups [(Cat "A", Cat "B")] [0.5]
    (Some [None]) (Some "star") "outside".

(** Calls that ask for no text through the selector. *)
Definition format_None : Args :=
  custom_args two_groups [(Cat "A", Cat "B")] [0.5] None None "inside".

Definition format_none : Args :=
  custom_args two_groups [(Cat "A", Cat "B")] [0.5] None (Some "none")
    "inside".

(** Data below zero, annotated inside the axes. *)
Definition two_groups_below_zero : Plotter :=
  mkPlotter ["A"; "B"] [] [] [[Some (-11)]; [Some (-10.5)]] None false.

Definition scenario_below_zero : Args :=
  custom_args two_groups_below_zero [(Cat "A", Cat "B")] [0.5]
    (Some [None]) (Some "star") "inside".

Definition axes_below_zero : Axes := mkAxes (-20, -10) [].

(** A request without pairs. *)
Definition no_pairs : Args :=
  custom_args three_groups [] [] None (Some "star") "inside".

(** A group whose name is the empty string. *)
Definition unnamed_group : Plotter :=
  mkPlotter ["A"; EmptyString] [] [] [[Some 1]; [Some 2]] None false.

Definition with_unnamed_group : Args :=
  custom_args unnamed_group [(Cat "A", Cat EmptyString)] [0.5]
    None (Some "star") "inside".

(** A call outside the axes that gives both offsets. *)
Definition outside_with_offsets : Args :=
  mkArgs two_groups [(Cat "A", Cat "B")] false (Some [0.5]) None None
    (Some "star") true None (Some [None]) "outside" true None
    (mkStatsParams None []) None None false (Some 0.5) (Some 0.04)
    0.02 1 "0.2" 1.5 "medium" 1%Z.

(** A session whose test always finds p = 0.04. *)
Definition testing_env : Collaborators :=
  mkCollaborators no_suffix first_or_join format_as_is ["t-test_ind"]
    (fun _ _ _ _ _ _ _ =>
       Ok (mkStatResult "t-test independent samples" "t-test_ind"
             (Some "t") (Some 2) 0.04 None None None None))
    (fun _ => Ok None)
    (fun _ _ => None)
    (fun baseline _ => fadd baseline (Some 1))
    (fun ax _ => ylim ax)
    (fun _ => int64_min).

(** A call that runs the test and asks for the simple text with the name
    of the test. *)
Definition tested_simple : Args :=
  mkArgs two_groups [(Cat "A", Cat "B")] true None None (Some "t-test_ind")
    (Some "simple") true None None "inside" true None
    (mkStatsParams None []) None None false None None
    0.02 1 "0.2" 1.5 "medium" 1%Z.

(** An axis whose limits run from the top down. *)
Definition axes_6_0 : Axes := mkAxes (6, 0) [].

(** One pair of the four groups, without text. *)
Definition one_pair_of_four : Args :=
  custom_args four_groups [(Cat "A", Cat "B")] [0.5]
    (Some [None]) (Some "star") "inside".

(** Two pairs without text; the range of the second, B to D, includes
    the range of the first, C to D. *)
Definition widening_pairs : Args :=
  custom_args four_groups [(Cat "C", Cat "D"); (Cat "B", Cat "D")] [0.5; 0.5]
    (Some [None; None]) (Some "star") "inside".

(** Integer data without hue: maxima 5, 5 and 4. *)
Definition integer_groups : Plotter :=
  mkPlotter ["A"; "B"; "C"] [] []
    [[Some 1; Some 5]; [Some 2; Some 5]; [Some 3; Some 4]] None true.

Definition integer_overlapping : Args :=
  custom_args integer_groups [(Cat "A", Cat "B"); (Cat "A", Cat "C")]
    [0.5; 0.5] (Some [None; None]) (Some "star") "inside".

Definition axes_0_10 : Axes := mkAxes (0, 10) [].

(** The call [overlapping] with a text format that spells 'star' but is
    put together while the program runs. *)
Definition star_built_at_run_time : Args :=
  mkArgs four_groups [(Cat "A", Cat "B"); (Cat "A", Cat "C")] false
    (Some [0.03; 0.2]) None None (Some "star") false None None "inside"
    true None (mkStatsParams None []) None None false None None
    0.02 1 "0.2" 1.5 "medium" 1%Z.

(** Two groups without a single value. *)
Definition two_empty_groups : Plotter :=
  mkPlotter ["A"; "B"] [] [] [[None]; []] None false.

Definition empty_groups : Args :=
  custom_args two_empty_groups [(Cat "A", Cat "B")] [0.5]
    (Some [None]) (Some "star") "inside".

End Inputs.

(** * Properties *)

Import FormatAnnotations Statannot.

(** ** The stable sort *)

Lemma StronglySorted_weaken {A : Type} (R R' : A -> A -> Prop) (l : list A) :
  (forall a b, R a b -> R' a b) -> StronglySorted R l -> StronglySorted R' l.
Proof.
  intros Himp. induction 1 as [|a l Hs IH Ha]; constructor.
  - exact IH.
  - eapply Forall_impl; [| exact Ha]. intros b. apply Himp.
Qed.

Section SortFacts.
Context {A : Type}.
Variable le : A -> A -> bool.

Lemma insert_sorted_perm (a : A) (l : list A) :
  Permutation (insert_sorted le a l) (a :: l).
Proof.
  induction l as [|b l IH]; simpl.
  - apply Permutation_refl.
  - destruct (le a b).
    + apply Permutation_refl.
    + eapply perm_trans; [apply perm_skip, IH | apply perm_swap].
Qed.

Lemma stable_sort_perm (l : list A) : Permutation (stable_sort le l) l.
Proof.
  induction l as [|a l IH]; simpl.
  - apply perm_nil.
  - eapply perm_trans; [apply insert_sorted_perm | apply perm_skip, IH].
Qed.

Lemma stable_sort_in (l : list A) (a : A) :
  In a (stable_sort le l) <-> In a l.
Proof.
  split; apply Permutation_in;
    [apply stable_sort_perm | apply Permutation_sym, stable_sort_perm].
Qed.

Lemma stable_sort_length (l : list A) :
  List.length (stable_sort le l) = List.length l.
Proof. apply Permutation_length, stable_sort_perm. Qed.

Hypothesis le_total : forall a b, le a b = true \/ le b a = true.
Hypothesis le_trans :
  forall a b c, le a b = true -> le b c = true -> le a c = true.

Lemma insert_sorted_sorted (a : A) (l : list A) :
  StronglySorted (fun u v => le u v = true) l ->
  StronglySorted (fun u v => le u v = true) (insert_sorted le a l).
Proof.
  induction 1 as [|b l Hs IH Hb]; simpl.
  - constructor; [constructor | constructor].
  - destruct (le a b) eqn:Hab.
    + constructor; [constructor; assumption |].
      constructor; [assumption |].
      eapply Forall_impl; [| exact Hb].
      intros c Hbc. eapply le_trans; eassumption.
    + constructor; [assumption |].
      assert (Hba : le b a = true)
        by (destruct (le_total a b) as [H'|H']; congruence).
      eapply Permutation_Forall;
        [apply Permutation_sym, insert_sorted_perm |].
      constructor; assumption.
Qed.

Lemma stable_sort_sorted (l : list A) :
  StronglySorted (fun u v => le u v = true) (stable_sort le l).
Proof.
  induction l as [|a l IH]; simpl.
  - constructor.
  - apply insert_sorted_sorted, IH.
Qed.
End SortFacts.

Section Stability.
Context {A : Type}.
Variable le : A -> A -> bool.
(** A class of elements that [le] does not tell apart. *)
Variable same : A -> bool.
Hypothesis same_le : forall a b, same a = true -> same b = true -> le a b = true.

Lemma insert_sorted_filter (a : A) (l : list A) :
  filter same (insert_sorted le a l) = filter same (a :: l).
Proof.
  induction l as [|b l IH]; simpl; [reflexivity |].
  destruct (le a b) eqn:Hab; simpl; [reflexivity |].
  rewrite IH. simpl.
  destruct (same a) eqn:Ha, (same b) eqn:Hb; try reflexivity.
  rewrite (same_le a b Ha Hb) in Hab. discriminate.
Qed.

Lemma stable_sort_filter (l : list A) :
  filter same (stable_sort le l) = filter same l.
Proof.
  induction l as [|a l IH]; simpl; [reflexivity |].
  rewrite insert_sorted_filter. simpl. rewrite IH. reflexivity.
Qed.
End Stability.

(** ** Rational comparisons *)

Lemma Qltb_lt (u v : Q) : Qltb u v = true <-> u < v.
Proof.
  unfold Qltb. rewrite negb_true_iff.
  split; intro H.
  - apply Qnot_le_lt. intro Hle. apply Qle_bool_iff in Hle. congruence.
  - destruct (Qle_bool v u) eqn:E; [| reflexivity].
    apply Qle_bool_iff in E. exfalso. eapply Qlt_not_le; eassumption.
Qed.

Lemma Qltb_ge (u v : Q) : Qltb u v = false <-> v <= u.
Proof.
  unfold Qltb. rewrite negb_false_iff. apply Qle_bool_iff.
Qed.

Lemma Qle_bool_false (u v : Q) : Qle_bool u v = false <-> v < u.
Proof.
  rewrite <- Qltb_lt. unfold Qltb.
  destruct (Qle_bool u v); simpl; split; congruence.
Qed.

(** ** format_annotations.py: the threshold table *)

Section TableFacts.
Variable significance_suffix : StatResult -> string.
Variable return_results : list string -> string.

Lemma by_decreasing_cutoff_sorted (t : Thresholds) :
  StronglySorted (fun r r' => fst r' <= fst r) (by_decreasing_cutoff t).
Proof.
  unfold by_decreasing_cutoff.
  eapply StronglySorted_weaken;
    [| apply stable_sort_sorted].
  - intros r r' H. apply Qle_bool_iff. exact H.
  - intros r r'.
    destruct (Qle_bool (fst r') (fst r)) eqn:E; [left; reflexivity | right].
    apply Qle_bool_false in E. apply Qle_bool_iff. apply Qlt_le_weak, E.
  - intros r r' r'' H1 H2. apply Qle_bool_iff.
    apply Qle_bool_iff in H1. apply Qle_bool_iff in H2.
    eapply Qle_trans; eassumption.
Qed.

(** The first row of the sorted table carries the largest cutoff. *)
Lemma head_is_largest (t : Thresholds) (row : Q * string) :
  In row t ->
  exists h rest,
    by_decreasing_cutoff t = h :: rest /\ fst row <= fst h.
Proof.
  intro Hin.
  pose proof (by_decreasing_cutoff_sorted t) as Hs.
  assert (Hin' : In row (by_decreasing_cutoff t))
    by (apply stable_sort_in; exact Hin).
  destruct (by_decreasing_cutoff t) as [|h rest]; [contradiction |].
  exists h, rest. split; [reflexivity |].
  destruct Hin' as [<- | Hin'].
  - apply Qle_refl.
  - apply StronglySorted_inv in Hs. destruct Hs as [_ Hall].
    rewrite Forall_forall in Hall. apply Hall, Hin'.
Qed.

(** What the loop leaves for one p-value when the rows strictly decrease
    below the bound it starts from. *)
Lemma threshold_loop_single (p : Q) (rows : Thresholds) :
  strictly_decreasing rows ->
  forall (bound : Q) (current : string),
    Forall (fun r => fst r < bound) rows ->
    exists s,
      threshold_loop [p] rows bound [current] = Ok [s] /\
      (forall m, In m rows -> p <= fst m ->
                 (forall r, In r rows -> p <= fst r -> fst m <= fst r) ->
                 s = snd m) /\
      ((forall r, In r rows -> fst r < p) -> s = current).
Proof.
  induction 1 as [|[c lab] rows Hs IH Hhead]; intros bound current Hb.
  - exists current. simpl. split; [reflexivity |].
    split; [intros m [] | reflexivity].
  - apply Forall_cons_iff in Hb. destruct Hb as [Hc Hb]. simpl in Hc.
    simpl. apply Qltb_lt in Hc. rewrite Hc.
    destruct (IH c (if Qle_bool p c then lab else current) Hhead)
      as (s & Hrun & Hmin & Hnone).
    exists s. split; [exact Hrun |]. split.
    + intros m [<- | Hm] Hpm Hleast.
      * simpl in *. apply Qle_bool_iff in Hpm. rewrite Hpm in Hnone.
        apply Hnone. intros r Hr.
        apply Qnot_le_lt. intro Hpr.
        rewrite Forall_forall in Hhead. specialize (Hhead r Hr). simpl in Hhead.
        specialize (Hleast r (or_intror Hr) Hpr).
        eapply Qlt_not_le; eassumption.
      * apply Hmin; [exact Hm | exact Hpm |].
        intros r Hr. apply Hleast. right. exact Hr.
    + intro Hall.
      assert (Hpc : Qle_bool p c = false).
      { apply Qle_bool_false. apply (Hall (c, lab)). left. reflexivity. }
      rewrite Hpc in Hnone. apply Hnone.
      intros r Hr. apply Hall. right. exact Hr.
Qed.

Lemma sort_values_desc_nonempty (t : Thresholds) :
  t <> [] -> sort_values_desc t = Ok (by_decreasing_cutoff t).
Proof. destruct t; [congruence | reflexivity]. Qed.

Lemma below_seed_sorted (t : Thresholds) :
  Forall (fun r => fst r < 1.1) t ->
  Forall (fun r => fst r < 1.1) (by_decreasing_cutoff t).
Proof.
  intro H. eapply Permutation_Forall; [| exact H].
  apply Permutation_sym, stable_sort_perm.
Qed.

(** The text for one result with an empty suffix, on a table the
    monotonicity assertion accepts. *)
Lemma star_text_single (t : Thresholds) (r : StatResult) :
  t <> [] ->
  strictly_decreasing (by_decreasing_cutoff t) ->
  Forall (fun row => fst row < 1.1) t ->
  significance_suffix r = EmptyString ->
  exists s,
    pval_annotation_text significance_suffix return_results [r] t
      = Ok (return_results [s]) /\
    (forall m, In m t -> pval r <= fst m ->
               (forall row, In row t -> pval r <= fst row -> fst m <= fst row) ->
               s = snd m) /\
    ((forall row, In row t -> fst row < pval r) -> s = EmptyString).
Proof.
  intros Hne Hdec Hseed Hsfx.
  destruct (threshold_loop_single (pval r) _ Hdec 1.1 EmptyString
              (below_seed_sorted t Hseed)) as (s & Hrun & Hmin & Hnone).
  exists s. split; [| split].
  - unfold pval_annotation_text, significance_annotations_with_suffixes.
    rewrite (sort_values_desc_nonempty t Hne). simpl.
    rewrite Hrun. simpl. rewrite Hsfx.
    replace (s ++ EmptyString)%string with s; [reflexivity |].
    clear. induction s; simpl; [reflexivity | f_equal; assumption].
  - intros m Hm Hp Hleast. apply Hmin.
    + apply stable_sort_in. exact Hm.
    + exact Hp.
    + intros row Hrow. apply Hleast.
      unfold by_decreasing_cutoff in Hrow.
      apply stable_sort_in in Hrow. exact Hrow.
  - intro Hall. apply Hnone. intros row Hrow. apply Hall.
    unfold by_decreasing_cutoff in Hrow.
    apply stable_sort_in in Hrow. exact Hrow.
Qed.
End TableFacts.

(** C10. Whatever the results, a threshold table with a cutoff of 1.1 or
    more makes [pval_annotation_text] fail its assertion: after the sort
    the largest cutoff comes first and is compared with the initial bound
    1.1.  This holds in particular for tables that strictly decrease. *)
Theorem seed_refuses_cutoff_from_1_1
    (significance_suffix : StatResult -> string)
    (return_results : list string -> string)
    (result : list StatResult) (t : Thresholds) (row : Q * string) :
  In row t ->
  1.1 <= fst row ->
  pval_annotation_text significance_suffix return_results result t
    = Raise (AssertionError not_monotonic).
Proof.
  intros Hin Hbig.
  destruct (head_is_largest t row Hin) as (h & rest & Hsort & Hle).
  unfold pval_annotation_text, significance_annotations_with_suffixes.
  rewrite sort_values_desc_nonempty by (intros ->; contradiction).
  rewrite Hsort. destruct h as [c lab]. simpl in *.
  assert (Hc : Qltb c 1.1 = false).
  { apply Qltb_ge. eapply Qle_trans; eassumption. }
  rewrite Hc. reflexivity.
Qed.

Lemma seed_refuses_cutoff_witness :
  strictly_decreasing (by_decreasing_cutoff Inputs.wide_table) /\
  pval_annotation_text Inputs.no_suffix Inputs.first_or_join
    [Inputs.result_with_pval 0.5] Inputs.wide_table
    = Raise (AssertionError not_monotonic).
Proof.
  split.
  - repeat constructor.
  - apply (seed_refuses_cutoff_from_1_1 _ _ _ Inputs.wide_table (1.5, "ns")).
    + simpl. right. left. reflexivity.
    + simpl. unfold Qle. simpl. lia.
Defined.

(** C4, as the code has it.  On a table the assertion accepts (cutoffs
    strictly decreasing once sorted, all below 1.1), with an empty suffix:
    p = 0 gets the label of the smallest cutoff when that cutoff is not
    negative; p = 1 gets the label of the smallest cutoff that is at least
    1, and the empty string when no cutoff reaches 1. *)
Theorem star_labels_at_zero_and_one
    (significance_suffix : StatResult -> string)
    (return_results : list string -> string)
    (t : Thresholds) (r0 r1 : StatResult) :
  t <> [] ->
  strictly_decreasing (by_decreasing_cutoff t) ->
  Forall (fun row => fst row < 1.1) t ->
  significance_suffix r0 = EmptyString ->
  significance_suffix r1 = EmptyString ->
  pval r0 == 0 ->
  pval r1 == 1 ->
  (forall m, In m t ->
             (forall row, In row t -> fst m <= fst row) ->
             0 <= fst m ->
             pval_annotation_text significance_suffix return_results [r0] t
               = Ok (return_results [snd m])) /\
  (forall m, In m t -> 1 <= fst m ->
             (forall row, In row t -> 1 <= fst row -> fst m <= fst row) ->
             pval_annotation_text significance_suffix return_results [r1] t
               = Ok (return_results [snd m])) /\
  ((forall row, In row t -> fst row < 1) ->
   pval_annotation_text significance_suffix return_results [r1] t
     = Ok (return_results [EmptyString])).
Proof.
  intros Hne Hdec Hseed Hs0 Hs1 Hp0 Hp1.
  destruct (star_text_single significance_suffix return_results t r0
              Hne Hdec Hseed Hs0) as (s0 & Hrun0 & Hmin0 & _).
  destruct (star_text_single significance_suffix return_results t r1
              Hne Hdec Hseed Hs1) as (s1 & Hrun1 & Hmin1 & Hnone1).
  split; [| split].
  - intros m Hm Hleast Hpos. rewrite Hrun0.
    rewrite (Hmin0 m Hm); [reflexivity | |].
    + rewrite Hp0. exact Hpos.
    + intros row Hrow _. apply Hleast, Hrow.
  - intros m Hm Hone Hleast. rewrite Hrun1.
    rewrite (Hmin1 m Hm); [reflexivity | |].
    + rewrite Hp1. exact Hone.
    + intros row Hrow Hp. apply Hleast; [exact Hrow |].
      rewrite <- Hp1. exact Hp.
  - intro Hall. rewrite Hrun1. rewrite Hnone1; [reflexivity |].
    intros row Hrow. rewrite Hp1. apply Hall, Hrow.
Qed.

Lemma star_labels_witness :
  pval_annotation_text Inputs.no_suffix Inputs.first_or_join
    [Inputs.result_with_pval 0] default_star_thresholds
    = Ok (Inputs.first_or_join ["****"]) /\
  pval_annotation_text Inputs.no_suffix Inputs.first_or_join
    [Inputs.result_with_pval 1] default_star_thresholds
    = Ok (Inputs.first_or_join ["ns"]).
Proof.
  assert (Hne : default_star_thresholds <> []) by discriminate.
  assert (Hdec : strictly_decreasing
                   (by_decreasing_cutoff default_star_thresholds))
    by (repeat constructor).
  assert (Hseed : Forall (fun row => fst row < 1.1) default_star_thresholds)
    by (repeat constructor).
  destruct (star_labels_at_zero_and_one Inputs.no_suffix Inputs.first_or_join
              default_star_thresholds
              (Inputs.result_with_pval 0) (Inputs.result_with_pval 1)
              Hne Hdec Hseed eq_refl eq_refl (Qeq_refl 0) (Qeq_refl 1))
    as (H0 & H1 & _).
  split.
  - apply (H0 (0.0001, "****")).
    + left. reflexivity.
    + intros row Hrow. simpl in Hrow.
      repeat (destruct Hrow as [<- | Hrow]; [unfold Qle; simpl; lia |]).
      contradiction.
    + unfold Qle. simpl. lia.
  - apply (H1 (1, "ns")).
    + simpl. tauto.
    + unfold Qle. simpl. lia.
    + intros row Hrow Hone. simpl in Hrow.
      repeat (destruct Hrow as [<- | Hrow];
              [try (unfold Qle in *; simpl in *; lia) |]).
      contradiction.
Defined.

(** C4 as stated fails: this table strictly decreases once sorted and its
    largest cutoff is above 1, yet p = 1 gets no label, the call fails. *)
Lemma star_labels_counterexample :
  strictly_decreasing (by_decreasing_cutoff Inputs.wide_table) /\
  1 <= 1.5 /\
  pval_annotation_text Inputs.no_suffix Inputs.first_or_join
    [Inputs.result_with_pval 1] Inputs.wide_table
    = Raise (AssertionError not_monotonic) /\
  pval_annotation_text Inputs.no_suffix Inputs.first_or_join
    [Inputs.result_with_pval 1] Inputs.wide_table
    <> Ok (Inputs.first_or_join ["ns"]).
Proof.
  split; [repeat constructor |].
  split; [unfold Qle; simpl; lia |].
  split; [reflexivity | discriminate].
Qed.

(** Two more tables on which the statement of C4 and the code part. *)
Example star_label_two_above_one :
  pval_annotation_text Inputs.no_suffix Inputs.first_or_join
    [Inputs.result_with_pval 1] Inputs.two_above_one
    = Ok (Inputs.first_or_join ["b"]).
Proof. reflexivity. Qed.

Example star_label_negative_cutoff :
  pval_annotation_text Inputs.no_suffix Inputs.first_or_join
    [Inputs.result_with_pval 0] Inputs.negative_cutoff
    = Ok (Inputs.first_or_join ["*"]).
Proof. reflexivity. Qed.

(** ** The error monad *)

Lemma bind_Ok {A B : Type} (m : Exc A) (k : A -> Exc B) (b : B) :
  bind m k = Ok b -> exists v, m = Ok v /\ k v = Ok b.
Proof.
  destruct m as [v|e]; simpl; intro H; [exists v; auto | discriminate].
Qed.

Lemma mapM_Ok {A B : Type} (f : A -> Exc B) (l : list A) (l' : list B) :
  mapM f l = Ok l' -> Forall2 (fun v w => f v = Ok w) l l'.
Proof.
  revert l'. induction l as [|v l IH]; simpl; intros l' H.
  - injection H as <-. constructor.
  - apply bind_Ok in H. destruct H as (w & Hw & H).
    apply bind_Ok in H. destruct H as (ws & Hws & H).
    injection H as <-. constructor; [exact Hw | apply IH, Hws].
Qed.

Lemma mapM_Raise {A B : Type} (f : A -> Exc B) (l : list A) (e : exn) :
  (forall v e', In v l -> f v = Raise e' -> e' = e) ->
  (exists v, In v l /\ f v = Raise e) ->
  mapM f l = Raise e.
Proof.
  induction l as [|v l IH]; simpl; intros Hall (u & Hu & Hfu).
  - contradiction.
  - destruct (f v) as [w|e'] eqn:Hv; simpl.
    + destruct Hu as [-> | Hu]; [congruence |].
      rewrite IH; [reflexivity | | exists u; auto].
      intros v' e'' Hin. apply Hall. right. exact Hin.
    + f_equal. apply (Hall v); [left; reflexivity | exact Hv].
Qed.

(** ** Resolution and ordering of the pairs *)

Lemma enumerate_from_fst {A : Type} (n : nat) (l : list A) :
  map fst (enumerate_from n l) = seq n (List.length l).
Proof.
  revert n. induction l as [|v l IH]; simpl; intro n; [reflexivity |].
  f_equal. apply IH.
Qed.

Lemma enumerate_from_snd {A : Type} (n : nat) (l : list A) :
  map snd (enumerate_from n l) = l.
Proof.
  revert n. induction l as [|v l IH]; simpl; intro n; [reflexivity |].
  f_equal. apply IH.
Qed.

Lemma dict_get_In (box_structs : list IndexedBox) (name : BoxName)
    (s : IndexedBox) :
  dict_get box_structs name = Ok s -> In s box_structs /\ box s = name.
Proof.
  induction box_structs as [|s0 rest IH]; simpl; [discriminate |].
  destruct (dict_get rest name) as [r|e].
  - intro H. injection H as ->. destruct (IH eq_refl). auto.
  - destruct (BoxName_eqb (box s0) name) eqn:E; [| discriminate].
    intro H. injection H as ->. split; [left; reflexivity |].
    destruct (box s) as [c|c h], name as [d|d k]; simpl in E;
      try discriminate.
    + apply String.eqb_eq in E. congruence.
    + apply andb_true_iff in E. destruct E as [E1 E2].
      apply String.eqb_eq in E1. apply String.eqb_eq in E2. congruence.
Qed.

(** What [resolve_pair] returns: both members carry the request index,
    come from the list of boxes, and the left one is not to the right. *)
Lemma resolve_pair_Ok (box_names : list BoxName)
    (box_structs : list IndexedBox) (i : nat) (b1 b2 : BoxName)
    (u : PairBox * PairBox) :
  resolve_pair box_names box_structs (i, (b1, b2)) = Ok u ->
  i_box_pair (fst u) = i /\ i_box_pair (snd u) = i /\
  In (indexed_box (fst u)) box_structs /\
  In (indexed_box (snd u)) box_structs /\
  x (fst u) <= x (snd u) /\
  is_in b1 box_names = true /\ is_in b2 box_names = true.
Proof.
  unfold resolve_pair.
  destruct (is_in b1 box_names && is_in b2 box_names) eqn:Hvalid;
    [| discriminate].
  apply andb_true_iff in Hvalid.
  intro H. apply bind_Ok in H. destruct H as (s1 & H1 & H).
  apply bind_Ok in H. destruct H as (s2 & H2 & H).
  apply dict_get_In in H1. apply dict_get_In in H2.
  simpl in H.
  destruct (Qle_bool (x s1) (x s2)) eqn:E; injection H as <-; simpl.
  - apply Qle_bool_iff in E. tauto.
  - apply Qle_bool_false in E. apply Qlt_le_weak in E. tauto.
Qed.

Lemma build_box_struct_pairs_Ok (box_names : list BoxName)
    (box_structs : list IndexedBox) (pairs : list (BoxName * BoxName))
    (resolved : list (PairBox * PairBox)) :
  build_box_struct_pairs box_names box_structs pairs = Ok resolved ->
  map request_index resolved = seq 0 (List.length pairs) /\
  Forall (fun u => i_box_pair (snd u) = i_box_pair (fst u) /\
                   In (indexed_box (fst u)) box_structs /\
                   In (indexed_box (snd u)) box_structs /\
                   x (fst u) <= x (snd u)) resolved.
Proof.
  unfold build_box_struct_pairs, enumerate. intro H.
  apply mapM_Ok in H.
  rewrite <- (enumerate_from_fst 0 pairs).
  induction H as [|[i [b1 b2]] u l l' Hu Hrest IH]; simpl.
  - split; constructor.
  - apply resolve_pair_Ok in Hu.
    destruct Hu as (H1 & H2 & H3 & H4 & H5 & _).
    destruct IH as [IH1 IH2].
    split.
    + unfold request_index at 1. rewrite H1. f_equal. exact IH1.
    + constructor; [| exact IH2]. rewrite H1, H2. auto.
Qed.

Lemma sort_pairs_sorted (l : list (PairBox * PairBox)) :
  StronglySorted (fun u v => span u <= span v) (sort_pairs l).
Proof.
  unfold sort_pairs, sorted.
  eapply StronglySorted_weaken; [| apply stable_sort_sorted].
  - intros u v H. apply Qle_bool_iff. exact H.
  - intros u v.
    destruct (Qle_bool (span u) (span v)) eqn:E; [left; reflexivity | right].
    apply Qle_bool_false in E. apply Qle_bool_iff, Qlt_le_weak, E.
  - intros u v w H1 H2. apply Qle_bool_iff.
    apply Qle_bool_iff in H1. apply Qle_bool_iff in H2.
    eapply Qle_trans; eassumption.
Qed.

Lemma sort_pairs_perm (l : list (PairBox * PairBox)) :
  Permutation (sort_pairs l) l.
Proof. apply stable_sort_perm. Qed.

(** Pairs of one span keep the order they had before the sort. *)
Lemma sort_pairs_stable (d : Q) (l : list (PairBox * PairBox)) :
  filter (fun u => Qeq_bool (span u) d) (sort_pairs l)
  = filter (fun u => Qeq_bool (span u) d) l.
Proof.
  apply stable_sort_filter.
  intros u v Hu Hv. apply Qeq_bool_iff in Hu. apply Qeq_bool_iff in Hv.
  apply Qle_bool_iff. rewrite Hu, Hv. apply Qle_refl.
Qed.

Lemma increasing_from_seq {A : Type} (idx : A -> nat) (l : list A) :
  forall s n, map idx l = seq s n ->
  StronglySorted (fun u v => (idx u < idx v)%nat) l /\
  Forall (fun u => (s <= idx u)%nat) l.
Proof.
  induction l as [|u l IH]; intros s n H.
  - split; constructor.
  - destruct n as [|n]; [discriminate |]. simpl in H.
    injection H as Hu Hl.
    destruct (IH _ _ Hl) as [IH1 IH2].
    split.
    + constructor; [exact IH1 |].
      eapply Forall_impl; [| exact IH2]. intros v Hv. simpl in Hv. lia.
    + constructor; [lia |].
      eapply Forall_impl; [| exact IH2]. intros v Hv. simpl in Hv. lia.
Qed.

Lemma filter_StronglySorted {A : Type} (R : A -> A -> Prop) (f : A -> bool)
    (l : list A) :
  StronglySorted R l -> StronglySorted R (filter f l).
Proof.
  induction 1 as [|u l Hs IH Hu]; simpl; [constructor |].
  destruct (f u); [| exact IH].
  constructor; [exact IH |].
  rewrite Forall_forall in *. intros v Hv.
  apply filter_In in Hv. apply Hu, Hv.
Qed.

Lemma StronglySorted_split {A : Type} (R : A -> A -> Prop)
    (l1 l2 l3 : list A) (u v : A) :
  StronglySorted R (l1 ++ u :: l2 ++ v :: l3) -> R u v.
Proof.
  induction l1 as [|w l1 IH]; simpl; intro H.
  - apply StronglySorted_inv in H. destruct H as [_ H].
    rewrite Forall_forall in H. apply H.
    apply in_or_app. right. left. reflexivity.
  - apply StronglySorted_inv in H. apply IH, H.
Qed.

(** ** The steps before the first annotation *)

Section PrepareFacts.
Variable env : Collaborators.
Variable a : Args.

Lemma prepare_Ok (ax : Axes) (p : Prepared) :
  prepare env a ax = Ok p ->
  exists s resolved results,
    setup env a ax = Ok s /\
    build_box_struct_pairs (box_names_of (box_plotter a))
      (su_box_structs s) (box_pairs a) = Ok resolved /\
    mapM (fetch_result env a (su_correction s)
            (List.length (sort_pairs resolved)))
         (sort_pairs resolved) = Ok results /\
    p = mkPrepared (su_cfg s) (su_box_structs s) (sort_pairs resolved)
          (correct_results a (su_correction s) results)
          (mkLocals
             (init_y_stack_arr env (box_plotter a) (su_box_structs s) (loc a)
                (snd (ylim ax)))
             [] [] (test_short_name_after a (sort_pairs resolved)) None).
Proof.
  unfold prepare. intro H.
  apply bind_Ok in H. destruct H as (s & Hs & H).
  apply bind_Ok in H. destruct H as (resolved & Hr & H).
  apply bind_Ok in H. destruct H as (results & Hres & H).
  injection H as <-. exists s, resolved, results. auto.
Qed.

Lemma prepare_pairs (ax : Axes) (p : Prepared) :
  prepare env a ax = Ok p ->
  exists resolved,
    build_box_struct_pairs (box_names_of (box_plotter a))
      (prep_box_structs p) (box_pairs a) = Ok resolved /\
    prep_pairs p = sort_pairs resolved.
Proof.
  intro H. apply prepare_Ok in H.
  destruct H as (s & resolved & results & _ & Hr & _ & ->).
  exists resolved. simpl. auto.
Qed.
End PrepareFacts.

Lemma pairs_sorted_and_complete
    (env : Collaborators) (a : Args) (ax : Axes) (p : Prepared) :
  prepare env a ax = Ok p ->
  StronglySorted (fun u v => span u <= span v) (prep_pairs p) /\
  Permutation (map request_index (prep_pairs p))
              (seq 0 (List.length (box_pairs a))).
Proof.
  intro H. apply prepare_pairs in H. destruct H as (resolved & Hr & ->).
  apply build_box_struct_pairs_Ok in Hr. destruct Hr as [Hidx _].
  split; [apply sort_pairs_sorted |].
  rewrite <- Hidx. apply Permutation_map, sort_pairs_perm.
Qed.



(** ** The list of results *)

Section ResultFacts.
Variable env : Collaborators.
Variable a : Args.

Lemma getitem_Ok {A : Type} (l : list A) (i : nat) (v : A) :
  getitem l i = Ok v <-> nth_error l i = Some v.
Proof.
  unfold getitem. destruct (nth_error l i); split; intro H;
    try discriminate; congruence.
Qed.

Lemma fetch_result_of (correction : option Correction) (n : nat)
    (u : PairBox * PairBox) (r : StatResult) :
  fetch_result env a correction n u = Ok r -> result_of a r u.
Proof.
  unfold fetch_result. intro H.
  apply bind_Ok in H. destruct H as (r0 & Hr0 & H).
  injection H as <-. unfold result_of. simpl.
  split; [reflexivity |]. split; [reflexivity |].
  intros Hmode ps Hps. rewrite Hmode, Hps in Hr0.
  apply bind_Ok in Hr0. destruct Hr0 as (q & Hq & Hr0).
  injection Hr0 as <-. simpl. apply getitem_Ok. exact Hq.
Qed.

Lemma mark_significance_result_of (name : string) (significant : list bool)
    (results : list StatResult) (pairs : list (PairBox * PairBox)) :
  Forall2 (result_of a) results pairs ->
  Forall2 (result_of a) (mark_significance name significant results) pairs.
Proof.
  intro H. revert significant.
  induction H as [|r u rs us Hr Hrest IH]; intros [|s ss]; simpl;
    try constructor; auto.
Qed.

Lemma correct_results_result_of (correction : option Correction)
    (results : list StatResult) (pairs : list (PairBox * PairBox)) :
  Forall2 (result_of a) results pairs ->
  Forall2 (result_of a) (correct_results a correction results) pairs.
Proof.
  intro H. unfold correct_results.
  destruct correction as [corr|]; [| exact H].
  destruct (corr_type corr =? 1)%Z; [| exact H].
  apply mark_significance_result_of, H.
Qed.

Lemma prepare_results (ax : Axes) (p : Prepared) :
  prepare env a ax = Ok p ->
  Forall2 (result_of a) (prep_results p) (prep_pairs p).
Proof.
  intro H. apply prepare_Ok in H.
  destruct H as (s & resolved & results & _ & _ & Hres & ->). simpl.
  apply correct_results_result_of.
  apply mapM_Ok in Hres.
  apply Forall2_flip.
  eapply Forall2_impl; [| exact Hres].
  intros u r. apply fetch_result_of.
Qed.

Lemma run_prepared (ax ax' : Axes) (p : Prepared) (lc : Locals) :
  run env a ax = (ax', Ok (p, lc)) -> prepare env a ax = Ok p.
Proof.
  unfold run. destruct (prepare env a ax) as [p0|e]; [| discriminate].
  destruct (annotate_loop _ _ _ _ _ _) as [ax1 [lc1|e]]; [| discriminate].
  destruct (bind _ _) as [ax2|e]; [| discriminate].
  intro H. congruence.
Qed.

Lemma add_stat_annotation_Ok (ax ax' : Axes) (rs : list StatResult) :
  add_stat_annotation env a ax = (ax', Ok rs) ->
  exists p lc, run env a ax = (ax', Ok (p, lc)) /\ rs = prep_results p.
Proof.
  unfold add_stat_annotation.
  destruct (run env a ax) as [ax1 [[p lc]|e]]; [| discriminate].
  intro H. injection H as <- <-. exists p, lc. auto.
Qed.
End ResultFacts.




(** ** Box names, the dictionary of boxes and invalid pairs *)

Lemma BoxName_eqb_refl (b : BoxName) : BoxName_eqb b b = true.
Proof.
  destruct b as [c|c h]; simpl; rewrite ?String.eqb_refl; reflexivity.
Qed.

Lemma BoxName_eqb_eq (b b' : BoxName) : BoxName_eqb b b' = true -> b = b'.
Proof.
  destruct b as [c|c h], b' as [d|d k]; simpl; intro E; try discriminate.
  - apply String.eqb_eq in E. congruence.
  - apply andb_true_iff in E. destruct E as [E1 E2].
    apply String.eqb_eq in E1. apply String.eqb_eq in E2. congruence.
Qed.

Lemma is_in_In (name : BoxName) (names : list BoxName) :
  is_in name names = true <-> In name names.
Proof.
  unfold is_in. rewrite existsb_exists. split.
  - intros (b & Hb & E). apply BoxName_eqb_eq in E. congruence.
  - intro H. exists name. split; [exact H | apply BoxName_eqb_refl].
Qed.

Lemma dict_get_found (box_structs : list IndexedBox) (name : BoxName) :
  In name (map (fun s : IndexedBox => box s) box_structs) ->
  exists s, dict_get box_structs name = Ok s.
Proof.
  induction box_structs as [|s0 rest IH]; simpl; [contradiction |].
  intros [H | H].
  - destruct (dict_get rest name) as [r|e]; [exists r; reflexivity |].
    rewrite H, BoxName_eqb_refl. exists s0. reflexivity.
  - destruct (IH H) as (r & ->). exists r. reflexivity.
Qed.

Lemma make_box_struct_box (b_plotter : Plotter) (name : BoxName)
    (s : BoxStruct) :
  make_box_struct b_plotter name = Ok s -> box s = name.
Proof.
  unfold make_box_struct. intro H.
  apply bind_Ok in H. destruct H as (pos & _ & H).
  apply bind_Ok in H. destruct H as (data & _ & H).
  injection H as <-. reflexivity.
Qed.

Lemma enumerate_In {A : Type} (l : list A) (v : A) (n : nat) :
  In v l -> exists i, In (i, v) (enumerate_from n l).
Proof.
  revert n. induction l as [|w l IH]; simpl; intros n; [contradiction |].
  intros [-> | H].
  - exists n. left. reflexivity.
  - destruct (IH (S n) H) as (i & Hi). exists i. right. exact Hi.
Qed.

(** The boxes of the sorted, numbered list are the box names of the
    plotter, in some order. *)
Lemma build_box_structs_names (b_plotter : Plotter)
    (box_structs : list IndexedBox) :
  build_box_structs b_plotter = Ok box_structs ->
  Permutation (map (fun s : IndexedBox => box s) box_structs)
              (box_names_of b_plotter).
Proof.
  unfold build_box_structs. intro H.
  apply bind_Ok in H. destruct H as (l & Hl & H). injection H as <-.
  rewrite map_map. simpl.
  rewrite <- (map_map snd box).
  unfold enumerate. rewrite enumerate_from_snd.
  apply mapM_Ok in Hl.
  assert (Hnames : map box l = box_names_of b_plotter).
  { induction Hl as [|name s names l Hs Hrest IH]; simpl; [reflexivity |].
    f_equal; [apply (make_box_struct_box _ _ _ Hs) | exact IH]. }
  rewrite <- Hnames. apply Permutation_map. apply stable_sort_perm.
Qed.

Section InvalidPairs.
Variable env : Collaborators.
Variable a : Args.

Lemma setup_box_structs (ax : Axes) (s : Setup) :
  setup env a ax = Ok s ->
  build_box_structs (box_plotter a) = Ok (su_box_structs s).
Proof.
  unfold setup. intro H.
  apply bind_Ok in H. destruct H as (? & _ & H).
  apply bind_Ok in H. destruct H as (? & _ & H).
  apply bind_Ok in H. destruct H as (? & _ & H).
  apply bind_Ok in H. destruct H as ([? ?] & _ & H).
  apply bind_Ok in H. destruct H as (bs & Hbs & H).
  injection H as <-. exact Hbs.
Qed.

(** With the boxes of the plotter in the dictionary, the only exception
    the resolution of a pair can raise is the one for an invalid pair. *)
Lemma resolve_pair_Raise (box_structs : list IndexedBox)
    (ip : nat * (BoxName * BoxName)) (e : exn) :
  Permutation (map (fun s : IndexedBox => box s) box_structs)
              (box_names_of (box_plotter a)) ->
  resolve_pair (box_names_of (box_plotter a)) box_structs ip = Raise e ->
  e = invalid_box_pair.
Proof.
  intros Hperm. destruct ip as [i [b1 b2]]. unfold resolve_pair.
  destruct (is_in b1 _ && is_in b2 _) eqn:Hvalid; [| congruence].
  apply andb_true_iff in Hvalid. destruct Hvalid as [H1 H2].
  apply is_in_In in H1. apply is_in_In in H2.
  apply (Permutation_in _ (Permutation_sym Hperm)) in H1.
  apply (Permutation_in _ (Permutation_sym Hperm)) in H2.
  destruct (dict_get_found _ _ H1) as (s1 & ->).
  destruct (dict_get_found _ _ H2) as (s2 & ->). simpl.
  destruct (Qle_bool _ _); discriminate.
Qed.

Lemma invalid_pair_prepare (ax : Axes) (s : Setup)
    (pair : BoxName * BoxName) :
  setup env a ax = Ok s ->
  In pair (box_pairs a) ->
  is_in (fst pair) (box_names_of (box_plotter a)) = false \/
  is_in (snd pair) (box_names_of (box_plotter a)) = false ->
  prepare env a ax = Raise invalid_box_pair.
Proof.
  intros Hs Hin Hbad. unfold prepare. rewrite Hs. simpl.
  pose proof (build_box_structs_names _ _ (setup_box_structs ax s Hs))
    as Hperm.
  unfold build_box_struct_pairs.
  rewrite (mapM_Raise _ _ invalid_box_pair); [reflexivity | |].
  - intros ip e _ He. eapply resolve_pair_Raise; eassumption.
  - destruct (enumerate_In _ _ 0%nat Hin) as (i & Hi).
    exists (i, pair). split; [exact Hi |].
    destruct pair as [b1 b2]. simpl in *.
    destruct Hbad as [-> | ->]; simpl; rewrite ?andb_false_r; reflexivity.
Qed.

Lemma prepare_Raise (ax : Axes) (e : exn) :
  prepare env a ax = Raise e ->
  add_stat_annotation env a ax = (ax, Raise e).
Proof.
  intro H. unfold add_stat_annotation, run. rewrite H. reflexivity.
Qed.
End InvalidPairs.

(** C9. When a requested pair names a box that the plotter does not have,
    the call ends in an exception and leaves the plot surface as it was;
    once the arguments are validated and the geometry is resolved, the
    exception is the one for an invalid pair. *)
Theorem invalid_pair_raises
    (env : Collaborators) (a : Args) (ax : Axes) (pair : BoxName * BoxName) :
  In pair (box_pairs a) ->
  is_in (fst pair) (box_names_of (box_plotter a)) = false \/
  is_in (snd pair) (box_names_of (box_plotter a)) = false ->
  fst (add_stat_annotation env a ax) = ax /\
  (exists e, snd (add_stat_annotation env a ax) = Raise e) /\
  (forall s, setup env a ax = Ok s ->
             add_stat_annotation env a ax = (ax, Raise invalid_box_pair)).
Proof.
  intros Hin Hbad.
  assert (Hlast : forall s, setup env a ax = Ok s ->
            add_stat_annotation env a ax = (ax, Raise invalid_box_pair)).
  { intros s Hs. apply prepare_Raise.
    eapply invalid_pair_prepare; eassumption. }
  destruct (setup env a ax) as [s|e] eqn:Hs.
  - rewrite (Hlast s eq_refl). simpl.
    split; [reflexivity |]. split; [eexists; reflexivity |].
    intros s0 _. reflexivity.
  - assert (Hp : prepare env a ax = Raise e)
      by (unfold prepare; rewrite Hs; reflexivity).
    rewrite (prepare_Raise env a ax e Hp). simpl.
    split; [reflexivity |]. split; [eexists; reflexivity |].
    intros s0 Hs0. discriminate.
Qed.

Lemma invalid_pair_witness :
  add_stat_annotation Inputs.plain_env Inputs.unknown_group Inputs.axes_0_6
    = (Inputs.axes_0_6, Raise invalid_box_pair).
Proof.
  destruct (invalid_pair_raises Inputs.plain_env Inputs.unknown_group
              Inputs.axes_0_6 (Cat "A", Cat "Z")) as (_ & _ & H).
  - simpl. right. left. reflexivity.
  - right. reflexivity.
  - eapply H. vm_compute. reflexivity.
Defined.

(** ** One annotation *)

Section StepFacts.
Variable env : Collaborators.
Variable a : Args.
Variable cfg : Config.

(** The parts of an iteration that ends normally. *)
Lemma annotate_pair_Ok (lc : Locals) (ax : Axes) (u : PairBox * PairBox)
    (r : StatResult) (ax' : Axes) (lc' : Locals) :
  annotate_pair env a cfg lc ax (u, r) = (ax', Ok lc') ->
  exists t name y y_top m,
    choose_text env a cfg lc (i_box_pair (fst u)) r = Ok (Some t, name) /\
    bracket_y cfg (y_stack_arr lc) (x (fst u)) (x (snd u)) (xi (fst u))
      = Ok y /\
    match t with
    | Some s =>
        draw_text env a
          (ax_plot env ax [x (fst u); x (fst u); x (snd u); x (snd u)]
             [y; fadd y (Some (cfg_h cfg)); fadd y (Some (cfg_h cfg)); y]
             (linewidth a) (color a))
          s (x (fst u)) (x (snd u)) y (cfg_h cfg) = (ax', y_top)
    | None =>
        ax' = ax_plot env ax [x (fst u); x (fst u); x (snd u); x (snd u)]
                [y; fadd y (Some (cfg_h cfg)); fadd y (Some (cfg_h cfg)); y]
                (linewidth a) (color a) /\
        y_top = fadd y (Some (cfg_h cfg))
    end /\
    py_max (y_stack lc ++ [y_top]) = Ok m /\
    lc' = mkLocals
            (update_stack env (y_stack_arr lc) (x (fst u)) (x (snd u))
               (xi (fst u)) (xi (snd u)) y_top)
            (y_stack lc ++ [y_top]) (ymaxs lc ++ [m]) name (Some t).
Proof.
  unfold annotate_pair.
  destruct (choose_text _ _ _ _ _ _) as [[text name]|e]; [| discriminate].
  destruct (bracket_y _ _ _ _ _) as [y|e]; [| discriminate].
  destruct text as [t|]; [| discriminate].
  destruct t as [s|].
  - destruct (draw_text _ _ _ _ _ _ _ _) as [ax2 y_top] eqn:Hdraw.
    destruct (py_max _) as [m|e] eqn:Hm; [| discriminate].
    intro H. injection H as <- <-.
    exists (Some s), name, y, y_top, m. auto.
  - destruct (py_max _) as [m|e] eqn:Hm; [| discriminate].
    intro H. injection H as <- <-.
    exists None, name, y, (fadd y (Some (cfg_h cfg))), m. auto.
Qed.

Lemma annotate_loop_app (l1 l2 : list ((PairBox * PairBox) * StatResult))
    (lc : Locals) (ax : Axes) :
  annotate_loop env a cfg (l1 ++ l2) lc ax =
  match annotate_loop env a cfg l1 lc ax with
  | (ax1, Ok lc1) => annotate_loop env a cfg l2 lc1 ax1
  | (ax1, Raise e) => (ax1, Raise e)
  end.
Proof.
  revert lc ax.
  induction l1 as [|pr l1 IH]; intros lc ax; cbn [annotate_loop app].
  - reflexivity.
  - destruct (annotate_pair env a cfg lc ax pr) as [ax' [lc'|e]];
      [apply IH | reflexivity].
Qed.

(** A property of the local variables that every iteration preserves
    holds when the loop ends. *)
Lemma annotate_loop_invariant (Inv : Locals -> Prop) :
  (forall lc ax u r ax' lc',
      Inv lc -> annotate_pair env a cfg lc ax (u, r) = (ax', Ok lc') ->
      Inv lc') ->
  forall l lc ax ax' lc',
    Inv lc -> annotate_loop env a cfg l lc ax = (ax', Ok lc') -> Inv lc'.
Proof.
  intros Hstep l.
  induction l as [|[u r] l IH]; intros lc ax ax' lc' HI H;
    cbn [annotate_loop] in H.
  - injection H as _ <-. exact HI.
  - destruct (annotate_pair env a cfg lc ax (u, r)) as [ax1 [lc1|e]] eqn:E;
      [| discriminate H].
    eapply IH; [| exact H]. eapply Hstep; eassumption.
Qed.
End StepFacts.

(** ** The text-format selector *)

Lemma validate_text_format (implemented : list string) (a : Args) :
  existsb (opt_string_eqb (text_format a))
    [Some "full"; Some "simple"; Some "star"] = false ->
  exists e, validate_arguments implemented a = Raise e.
Proof.
  intro H. unfold validate_arguments.
  repeat match goal with
         | |- exists e, bind ?m _ = Raise e =>
             destruct m as [[]|e0]; [cbn [bind] | exists e0; reflexivity]
         end.
  unfold assert_is_in at 1. rewrite H. eexists. reflexivity.
Qed.

Lemma refused_text_format (env : Collaborators) (a : Args) (ax : Axes) :
  existsb (opt_string_eqb (text_format a))
    [Some "full"; Some "simple"; Some "star"] = false ->
  exists e, add_stat_annotation env a ax = (ax, Raise e).
Proof.
  intro H.
  destruct (validate_text_format (IMPLEMENTED_TESTS env) a H) as (e & He).
  exists e. apply prepare_Raise. unfold prepare, setup. rewrite He.
  reflexivity.
Qed.

Lemma py_max_snoc (l : list float) (v : float) :
  exists m, py_max (l ++ [v]) = Ok m.
Proof. destruct l; simpl; eexists; reflexivity. Qed.

(** C2. The loop carries a branch for the selector [None] (l.329), and on
    it the code does what is asked of a mode without text: the iteration
    draws the bracket and no text, the top it appends to [y_stack] is the
    y of the bracket plus its height, and this top is what is assigned to
    the occupancy array over the range of the pair (an int64 array keeps
    its integer part).  The validation (l.143) does not list [None]: a
    call with this selector ends in an exception before anything is drawn,
    and the branch is never run. *)
Theorem none_selector_refused_before_its_branch
    (env : Collaborators) (a : Args) :
  text_format a = None ->
  text_annot_custom a = None ->
  (forall ax, exists e, add_stat_annotation env a ax = (ax, Raise e)) /\
  (forall (cfg : Config) (lc : Locals) (ax : Axes) (u : PairBox * PairBox)
          (r : StatResult) (y : float),
      bracket_y cfg (y_stack_arr lc) (x (fst u)) (x (snd u)) (xi (fst u))
        = Ok y ->
      exists lc',
        annotate_pair env a cfg lc ax (u, r)
          = (ax_plot env ax [x (fst u); x (fst u); x (snd u); x (snd u)]
               [y; fadd y (Some (cfg_h cfg)); fadd y (Some (cfg_h cfg)); y]
               (linewidth a) (color a),
             Ok lc') /\
        text_var lc' = Some None /\
        y_stack lc' = (y_stack lc ++ [fadd y (Some (cfg_h cfg))])%list /\
        y_stack_arr lc' =
          update_stack env (y_stack_arr lc) (x (fst u)) (x (snd u))
            (xi (fst u)) (xi (snd u)) (fadd y (Some (cfg_h cfg)))).
Proof.
  intros Hformat Hcustom. split.
  - intro ax. apply refused_text_format. rewrite Hformat. reflexivity.
  - intros cfg lc ax u r y Hy.
    destruct (py_max_snoc (y_stack lc) (fadd y (Some (cfg_h cfg))))
      as (m & Hm).
    eexists. unfold annotate_pair, choose_text.
    rewrite Hcustom, Hformat. cbn [opt_string_eqb]. rewrite Hy, Hm.
    split; [reflexivity |]. cbn. auto.
Qed.

Lemma none_selector_witness :
  (exists e,
      add_stat_annotation Inputs.plain_env Inputs.format_None Inputs.axes_3_13
        = (Inputs.axes_3_13, Raise e)) /\
  forall (cfg : Config) (lc : Locals) (ax : Axes) (u : PairBox * PairBox)
         (r : StatResult) (y : float),
    bracket_y cfg (y_stack_arr lc) (x (fst u)) (x (snd u)) (xi (fst u))
      = Ok y ->
    exists lc',
      snd (annotate_pair Inputs.plain_env Inputs.format_None cfg lc ax (u, r))
        = Ok lc' /\
      y_stack lc' = (y_stack lc ++ [fadd y (Some (cfg_h cfg))])%list.
Proof.
  destruct (none_selector_refused_before_its_branch
              Inputs.plain_env Inputs.format_None eq_refl eq_refl)
    as [Hrefused Hbranch].
  split; [apply Hrefused |].
  intros cfg lc ax u r y Hy.
  destruct (Hbranch cfg lc ax u r y Hy) as (lc' & Hstep & _ & Hstack & _).
  exists lc'. rewrite Hstep. split; [reflexivity | exact Hstack].
Defined.

(** Neither [None] nor the string 'none' is accepted as [text_format]:
    both calls end in the exception of the validation and draw nothing. *)
Example none_format_refused :
  (exists msg,
      add_stat_annotation Inputs.plain_env Inputs.format_None Inputs.axes_3_13
        = (Inputs.axes_3_13, Raise (ValueError msg))) /\
  (exists msg,
      add_stat_annotation Inputs.plain_env Inputs.format_none Inputs.axes_3_13
        = (Inputs.axes_3_13, Raise (ValueError msg))).
Proof.
  split; eexists; vm_compute; reflexivity.
Qed.

(** ** The scenario of the two groups *)

(** In the exact arithmetic of the model the whole call on groups A
    (x = 0, maximum 10) and B (x = 1, maximum 12) draws the bracket at
    12 + 0.06 * 10 with height 0.02 * 10 and records the sum of the two. *)
Example scenario_exact_arithmetic :
  exists ax' p lc y top,
    run Inputs.plain_env Inputs.scenario Inputs.axes_3_13 = (ax', Ok (p, lc)) /\
    y_stack_arr (prep_locals p)
      = mkYStackArr float64 [0; 1] [Some 10; Some 12] [0%nat; 0%nat] /\
    artists ax' =
      [Line2D [0; 0; 1; 1] [Some y; Some top; Some top; Some y] 1.5 "0.2"] /\
    y_stack lc = [Some top] /\
    row1 (y_stack_arr lc) = [Some top; Some top] /\
    y == 12 + 0.06 * 10 /\ cfg_h (prep_cfg p) == 0.02 * 10 /\
    top == y + cfg_h (prep_cfg p).
Proof.
  do 5 eexists.
  split; [vm_compute; reflexivity |].
  repeat split.
Qed.

Section ScenarioBinary64.
Import PrimFloat.
Local Open Scope float_scope.

(** C5. Groups at 0 (maximum 10) and 1 (maximum 12), one pair spanning
    them, nothing annotated before, fractions 0.06 and 0.02 of a y-range
    of 10: in the binary64 arithmetic of the code the bracket is at
    y = 12.6 with height 0.2, and its top [y + h], the top consumed
    without text, is 12.799999999999999, the float just below 12.8. *)
Theorem scenario_two_groups_binary64 (line_offset ylim0 ylim1 : float) :
  ylim1 - ylim0 = 10 ->
  Binary64.place line_offset 0.06 0.02 (ylim0, ylim1)
    [0; 1] [10; 12] [0%nat; 0%nat] 0 1 0
    = Ok (12.6, 0.2, 12.799999999999999) /\
  (12.799999999999999 <? 12.8) = true /\
  next_up 12.799999999999999 = 12.8.
Proof.
  intro Hrange. unfold Binary64.place. cbn [fst snd]. rewrite Hrange.
  repeat split.
Qed.

Lemma scenario_binary64_witness :
  (13 - 3 = 10) /\
  Binary64.place 0.05 0.06 0.02 (3, 13) [0; 1] [10; 12] [0%nat; 0%nat] 0 1 0
    = Ok (12.6, 0.2, 12.799999999999999).
Proof.
  split; [reflexivity |].
  apply (scenario_two_groups_binary64 0.05 3 13). reflexivity.
Defined.

(** C5 as stated fails: the top the code computes in the scenario is not
    12.8. *)
Lemma scenario_top_is_not_12_8 :
  exists y h top,
    Binary64.place 0.05 0.06 0.02 (3, 13) [0; 1] [10; 12] [0%nat; 0%nat] 0 1 0
      = Ok (y, h, top) /\
    y = 12.6 /\ h = 0.2 /\
    (top =? 12.8) = false.
Proof.
  do 3 eexists. split; [reflexivity |]. repeat split.
Qed.
End ScenarioBinary64.

(** ** The limits at the end of the call *)

Lemma py_max2_nan (b : float) : py_max2 None b = None.
Proof. destruct b; reflexivity. Qed.

Lemma fold_py_max2_nan (l : list float) : fold_left py_max2 l None = None.
Proof.
  induction l as [|b l IH]; simpl; [reflexivity |].
  rewrite py_max2_nan. exact IH.
Qed.

Lemma fold_py_max2_number (l : list float) :
  forall v, exists m,
    fold_left py_max2 l (Some v) = Some m /\ v <= m /\
    forall t, In (Some t) l -> t <= m.
Proof.
  induction l as [|b l IH]; simpl; intro v.
  - exists v. split; [reflexivity |]. split; [apply Qle_refl | tauto].
  - assert (Hacc : exists v', py_max2 (Some v) b = Some v' /\ v <= v' /\
                     forall t, b = Some t -> t <= v').
    { destruct b as [w|]; unfold py_max2; simpl.
      - destruct (Qltb v w) eqn:E.
        + exists w. apply Qltb_lt in E.
          split; [reflexivity |]. split; [apply Qlt_le_weak, E |].
          intros t Ht. injection Ht as ->. apply Qle_refl.
        + exists v. apply Qltb_ge in E.
          split; [reflexivity |]. split; [apply Qle_refl |].
          intros t Ht. injection Ht as ->. exact E.
      - exists v. split; [reflexivity |]. split; [apply Qle_refl |].
        discriminate. }
    destruct Hacc as (v' & -> & Hvv' & Hb).
    destruct (IH v') as (m & Hm & Hv'm & Hl).
    exists m. split; [exact Hm |].
    split; [eapply Qle_trans; eassumption |].
    intros t [Ht | Ht]; [| apply Hl, Ht].
    eapply Qle_trans; [apply Hb, Ht | exact Hv'm].
Qed.

(** When the builtin [max] yields a number, the list starts with a number
    and no number in it is greater. *)
Lemma py_max_number (l : list float) (m : Q) :
  py_max l = Ok (Some m) ->
  (exists v l', l = Some v :: l') /\ forall t, In (Some t) l -> t <= m.
Proof.
  destruct l as [|[v|] l]; simpl; intro H; try discriminate.
  - injection H as H.
    destruct (fold_py_max2_number l v) as (m' & Hm' & Hv & Hl).
    rewrite Hm' in H. injection H as ->.
    split; [eauto |].
    intros t [Ht | Ht]; [injection Ht as <-; exact Hv | apply Hl, Ht].
  - injection H as H. rewrite fold_py_max2_nan in H. discriminate.
Qed.

Section LimitFacts.
Variable env : Collaborators.
Variable a : Args.

Lemma run_Ok (ax ax' : Axes) (p : Prepared) (lc : Locals) :
  run env a ax = (ax', Ok (p, lc)) ->
  exists ax1 y_stack_max,
    prepare env a ax = Ok p /\
    annotate_loop env a (prep_cfg p)
      (combine (prep_pairs p) (prep_results p)) (prep_locals p) ax
      = (ax1, Ok lc) /\
    py_max (ymaxs lc) = Ok y_stack_max /\
    final_ylim a ax ax1 y_stack_max = Ok ax'.
Proof.
  unfold run. destruct (prepare env a ax) as [p0|e]; [| discriminate].
  destruct (annotate_loop _ _ _ _ _ _) as [ax1 [lc1|e]] eqn:Hloop;
    [| discriminate].
  destruct (py_max (ymaxs lc1)) as [m|e] eqn:Hm; [| discriminate].
  cbn [bind].
  destruct (final_ylim a ax ax1 m) as [ax2|e] eqn:Hf; [| discriminate].
  intro H. injection H as <- <- <-.
  exists ax1, m. auto.
Qed.

Lemma maxima_track_tops_step (cfg : Config) (lc lc' : Locals)
    (ax ax' : Axes) (u : PairBox * PairBox) (r : StatResult) :
  maxima_track_tops lc ->
  annotate_pair env a cfg lc ax (u, r) = (ax', Ok lc') ->
  maxima_track_tops lc'.
Proof.
  intros HJ Hstep. apply annotate_pair_Ok in Hstep.
  destruct Hstep as (t & name & y & y_top & m & _ & _ & _ & Hm & ->).
  unfold maxima_track_tops in *. simpl.
  destruct (y_stack lc) as [|t0 ts], (ymaxs lc) as [|m0 ms]; simpl in *;
    try contradiction.
  - injection Hm as <-. split; [reflexivity |].
    exists y_top. split; [reflexivity | left; reflexivity].
  - destruct HJ as [-> _]. split; [reflexivity |].
    exists m. split; [exact Hm |]. right. apply in_or_app. right.
    left. reflexivity.
Qed.

Lemma run_maxima_track_tops (ax ax' : Axes) (p : Prepared) (lc : Locals) :
  run env a ax = (ax', Ok (p, lc)) -> maxima_track_tops lc.
Proof.
  intro H. apply run_Ok in H.
  destruct H as (ax1 & m & Hp & Hloop & _).
  eapply (annotate_loop_invariant env a (prep_cfg p) maxima_track_tops);
    [| | exact Hloop].
  - intros. eapply maxima_track_tops_step; eassumption.
  - apply prepare_Ok in Hp.
    destruct Hp as (s & resolved & results & _ & _ & _ & ->).
    exact I.
Qed.

(** No recorded top exceeds the maximum the loop hands over. *)
Lemma tops_below_maximum (lc : Locals) (m : Q) :
  maxima_track_tops lc ->
  py_max (ymaxs lc) = Ok (Some m) ->
  forall t, In (Some t) (y_stack lc) -> t <= m.
Proof.
  unfold maxima_track_tops. intros HJ Hm.
  apply py_max_number in Hm. destruct Hm as [(v & l' & Hhead) Hall].
  rewrite Hhead in HJ.
  destruct (y_stack lc) as [|t0 ts] eqn:Hstack; [contradiction |].
  destruct HJ as (Ht0 & top & Htop & Hin).
  subst t0. simpl in Htop. injection Htop as Htop.
  destruct (fold_py_max2_number ts v) as (m' & Hm' & Hv & Hl).
  rewrite Hm' in Htop. subst top.
  rewrite <- Hhead in Hin. specialize (Hall m' Hin).
  intros t [Ht | Ht].
  - injection Ht as <-. eapply Qle_trans; eassumption.
  - eapply Qle_trans; [apply Hl, Ht | exact Hall].
Qed.
End LimitFacts.

(** C3, as the code has it.  At the return of a call with
    [loc = 'inside'] in which some recorded top is not negative, the upper
    y-limit is at least every recorded top.  With [loc = 'outside'] the
    y-limits are those read at entry. *)
Theorem final_limits
    (env : Collaborators) (a : Args) (ax ax' : Axes) (p : Prepared)
    (lc : Locals) :
  run env a ax = (ax', Ok (p, lc)) ->
  (loc a = "inside" ->
   (exists t0, In (Some t0) (y_stack lc) /\ 0 <= t0) ->
   forall t, In (Some t) (y_stack lc) -> t <= snd (ylim ax')) /\
  (loc a = "outside" -> ylim ax' = ylim ax).
Proof.
  intro Hrun.
  pose proof (run_maxima_track_tops env a ax ax' p lc Hrun) as HJ.
  apply run_Ok in Hrun.
  destruct Hrun as (ax1 & ysm & _ & _ & Hmax & Hfinal).
  unfold final_ylim in Hfinal. split.
  - intros Hloc (t0 & Ht0 & Hpos) t Ht.
    rewrite Hloc in Hfinal. simpl in Hfinal.
    destruct ysm as [m|]; [| simpl in Hfinal; discriminate].
    pose proof (tops_below_maximum lc m HJ Hmax) as Hall.
    assert (Hm : 0 <= m) by (eapply Qle_trans; [exact Hpos | apply Hall, Ht0]).
    specialize (Hall t Ht).
    unfold py_max2, set_ylim in Hfinal. simpl in Hfinal.
    destruct (Qltb (1.03 * m) (snd (ylim ax))) eqn:E;
      injection Hfinal as <-; simpl.
    + apply Qltb_lt in E. lra.
    + lra.
  - intro Hloc. rewrite Hloc in Hfinal. simpl in Hfinal.
    injection Hfinal as <-. simpl. destruct (ylim ax). reflexivity.
Qed.

Lemma final_limits_witness :
  exists ax' p lc,
    run Inputs.plain_env Inputs.scenario Inputs.axes_3_13 = (ax', Ok (p, lc)) /\
    forall t, In (Some t) (y_stack lc) -> t <= snd (ylim ax').
Proof.
  do 3 eexists.
  match goal with
  | |- ?G /\ _ => assert (Hrun : G) by (vm_compute; reflexivity)
  end.
  split; [exact Hrun |].
  destruct (final_limits _ _ _ _ _ _ Hrun) as [Hinside _].
  apply Hinside; [reflexivity |].
  eexists. split; [left; reflexivity |].
  unfold Qle. simpl. lia.
Defined.

(** C3 as stated fails for an annotation outside the axes: the bracket
    starts above the upper limit, which the call leaves where it was. *)
Lemma final_limits_counterexample :
  exists ax' p lc top,
    run Inputs.plain_env Inputs.scenario_outside Inputs.axes_3_13
      = (ax', Ok (p, lc)) /\
    y_stack lc = [Some top] /\
    snd (ylim ax') < top.
Proof.
  do 4 eexists. split; [vm_compute; reflexivity |].
  split; [reflexivity |]. reflexivity.
Qed.

(** Inside the axes, with every top below zero, the factor 1.03 lowers
    the limit instead of raising it. *)
Example limits_below_zero :
  exists ax' p lc top,
    run Inputs.plain_env Inputs.scenario_below_zero Inputs.axes_below_zero
      = (ax', Ok (p, lc)) /\
    y_stack lc = [Some top] /\
    snd (ylim ax') < top.
Proof.
  do 4 eexists. split; [vm_compute; reflexivity |].
  split; [reflexivity |]. reflexivity.
Qed.

(** ** The query of the occupancy array *)

Lemma fle_refl (v : float) : fle v v.
Proof. destruct v; simpl; [apply Qle_refl | exact I]. Qed.

Lemma fle_trans (u v w : float) : fle u v -> fle v w -> fle u w.
Proof.
  destruct u, v, w; simpl; try tauto. apply Qle_trans.
Qed.

Lemma in_range_spec (x1 x2 pos : Q) :
  in_range x1 x2 pos = true <-> x1 <= pos /\ pos <= x2.
Proof.
  unfold in_range. rewrite andb_true_iff, !Qle_bool_iff. tauto.
Qed.

Lemma select_beyond (x1 x2 : Q) (positions : list Q) (values : list float) :
  Forall (fun pos => x2 < pos) positions ->
  select x1 x2 positions values = [].
Proof.
  intro H. revert values.
  induction H as [|pos positions Hpos _ IH]; intros [|v values]; simpl;
    try reflexivity.
  assert (E : in_range x1 x2 pos = false).
  { destruct (in_range x1 x2 pos) eqn:E; [| reflexivity].
    apply in_range_spec in E. destruct E as [_ E].
    exfalso. eapply Qlt_not_le; eassumption. }
  rewrite E. apply IH.
Qed.

(** From the left box on, the selected values are the values at the
    first positions, as long as these stay in range. *)
Lemma select_prefix (x1 x2 : Q) (positions : list Q) :
  StronglySorted Qlt positions ->
  Forall (fun pos => x1 <= pos) positions ->
  forall values,
    List.length values = List.length positions ->
    (forall k v, nth_error (select x1 x2 positions values) k = Some v ->
                 nth_error values k = Some v) /\
    (forall q pos, nth_error positions q = Some pos ->
                   in_range x1 x2 pos = true ->
                   nth_error (select x1 x2 positions values) q
                     = nth_error values q).
Proof.
  induction 1 as [|p positions Hs IH Hp]; intros Hge [|v0 values] Hlen;
    simpl in Hlen; try discriminate.
  - split; [intros [|k] v H; discriminate | intros [|q] pos H; discriminate].
  - apply Forall_cons_iff in Hge. destruct Hge as [Hx1 Hge].
    injection Hlen as Hlen.
    destruct (IH Hge values Hlen) as [IH1 IH2].
    simpl. destruct (in_range x1 x2 p) eqn:E.
    + split.
      * intros [|k] v H; simpl in *; [exact H | apply IH1, H].
      * intros [|q] pos H Hin; simpl in *; [reflexivity | eapply IH2; eassumption].
    + assert (Hp2 : x2 < p).
      { apply Qnot_le_lt. intro Hle.
        assert (in_range x1 x2 p = true) by (apply in_range_spec; auto).
        congruence. }
      rewrite select_beyond.
      2:{ eapply Forall_impl; [| exact Hp]. intros pos Hpos. simpl in Hpos.
          eapply Qlt_trans; eassumption. }
      split; [intros [|k] v H; discriminate |].
      intros [|q] pos H Hin; simpl in H.
      * injection H as <-. congruence.
      * exfalso. apply in_range_spec in Hin. destruct Hin as [_ Hin].
        apply nth_error_In in H. rewrite Forall_forall in Hp.
        specialize (Hp pos H).
        apply (Qlt_not_le x2 pos); [eapply Qlt_trans; eassumption | exact Hin].
Qed.

(** With strictly increasing positions the selection starts at the index
    of the left box. *)
Lemma select_from (x1 x2 : Q) (xi1 : nat) :
  forall positions values,
    StronglySorted Qlt positions ->
    List.length values = List.length positions ->
    nth_error positions xi1 = Some x1 ->
    (forall k v, nth_error (select x1 x2 positions values) k = Some v ->
                 nth_error values (xi1 + k) = Some v) /\
    (forall q pos, nth_error positions q = Some pos ->
                   in_range x1 x2 pos = true ->
                   exists k, q = (xi1 + k)%nat /\
                             nth_error (select x1 x2 positions values) k
                               = nth_error values q).
Proof.
  induction xi1 as [|n IH]; intros [|p positions] [|v0 values] Hs Hlen Hx1;
    simpl in Hlen, Hx1; try discriminate.
  - injection Hx1 as ->.
    assert (Hge : Forall (fun pos => x1 <= pos) (x1 :: positions)).
    { constructor; [apply Qle_refl |].
      apply StronglySorted_inv in Hs. destruct Hs as [_ Hlt].
      eapply Forall_impl; [| exact Hlt]. intros pos. apply Qlt_le_weak. }
    destruct (select_prefix x1 x2 _ Hs Hge (v0 :: values)) as [H1 H2];
      [simpl; congruence |].
    split; [exact H1 |].
    intros q pos Hq Hin. exists q. split; [reflexivity |].
    eapply H2; eassumption.
  - injection Hlen as Hlen.
    apply StronglySorted_inv in Hs. destruct Hs as [Hs Hlt].
    assert (Hp : p < x1).
    { rewrite Forall_forall in Hlt. apply Hlt.
      eapply nth_error_In. exact Hx1. }
    assert (E : in_range x1 x2 p = false).
    { destruct (in_range x1 x2 p) eqn:E; [| reflexivity].
      apply in_range_spec in E. destruct E as [E _].
      exfalso. eapply Qlt_not_le; eassumption. }
    simpl. rewrite E.
    destruct (IH positions values Hs Hlen Hx1) as [IH1 IH2].
    split; [exact IH1 |].
    intros [|q] pos Hq Hin; simpl in Hq.
    + injection Hq as <-. congruence.
    + destruct (IH2 q pos Hq Hin) as (k & -> & Hk).
      exists k. split; [reflexivity | exact Hk].
Qed.

Lemma argmax_scan_spec (l : list float) :
  forall i best k m,
    argmax_scan l i best = Some (k, m) ->
    (forall j v, nth_error l j = Some (Some v) -> v <= m) /\
    (forall j b, best = Some (j, b) -> b <= m) /\
    (best = Some (k, m) \/
     exists d, k = (i + d)%nat /\ nth_error l d = Some (Some m)).
Proof.
  induction l as [|c l IH]; simpl; intros i best k m H.
  - split; [intros [|j] v Hj; discriminate |].
    split; [| left; exact H].
    intros j b Hb. rewrite Hb in H. injection H as _ <-. apply Qle_refl.
  - apply IH in H. destruct H as (Hl & Hbest & Hk).
    destruct c as [v|].
    + destruct best as [[j b]|].
      * destruct (Qltb b v) eqn:E.
        -- apply Qltb_lt in E.
           pose proof (Hbest i v eq_refl) as Hvm.
           split; [| split].
           ++ intros [|j'] w Hw; simpl in Hw;
                [injection Hw as <-; exact Hvm | eapply Hl; exact Hw].
           ++ intros j' b' Hb'. injection Hb' as <- <-.
              eapply Qle_trans; [apply Qlt_le_weak, E | exact Hvm].
           ++ right. destruct Hk as [Hk | (d & -> & Hd)].
              ** injection Hk as <- <-. exists 0%nat.
                 split; [lia | reflexivity].
              ** exists (S d). split; [lia | exact Hd].
        -- apply Qltb_ge in E.
           pose proof (Hbest j b eq_refl) as Hbm.
           split; [| split].
           ++ intros [|j'] w Hw; simpl in Hw;
                [injection Hw as <-; eapply Qle_trans; eassumption
                | eapply Hl; exact Hw].
           ++ intros j' b' Hb'. injection Hb' as <- <-. exact Hbm.
           ++ destruct Hk as [Hk | (d & -> & Hd)]; [left; exact Hk |].
              right. exists (S d). split; [lia | exact Hd].
      * pose proof (Hbest i v eq_refl) as Hvm.
        split; [| split].
        -- intros [|j'] w Hw; simpl in Hw;
             [injection Hw as <-; exact Hvm | eapply Hl; exact Hw].
        -- discriminate.
        -- right. destruct Hk as [Hk | (d & -> & Hd)].
           ++ injection Hk as <- <-. exists 0%nat.
              split; [lia | reflexivity].
           ++ exists (S d). split; [lia | exact Hd].
    + split; [| split].
      * intros [|j'] w Hw; simpl in Hw; [discriminate | eapply Hl; exact Hw].
      * destruct best as [[j b]|]; intros j' b' Hb'; [| discriminate].
        eapply Hbest. exact Hb'.
      * destruct Hk as [Hk | (d & -> & Hd)].
        -- left. destruct best as [[j b]|]; exact Hk.
        -- right. exists (S d). split; [lia | exact Hd].
Qed.

Lemma nanargmax_spec (l : list float) (k : nat) :
  nanargmax l = Ok k ->
  exists m, nth_error l k = Some (Some m) /\
            forall j v, nth_error l j = Some (Some v) -> v <= m.
Proof.
  unfold nanargmax.
  destruct (argmax_scan l 0 None) as [[k' m]|] eqn:E; [| discriminate].
  intro H. injection H as ->.
  apply argmax_scan_spec in E. destruct E as (Hl & _ & [Hk | (d & -> & Hd)]).
  - discriminate.
  - exists m. split; [exact Hd | exact Hl].
Qed.

(** The value the query returns is a number, and no number recorded at a
    position of the range is greater. *)
Lemma query_stack_spec (arr : YStackArr) (x1 x2 : Q) (xi1 i : nat)
    (v : float) :
  stack_wf arr ->
  nth_error (row0 arr) xi1 = Some x1 ->
  query_stack arr x1 x2 xi1 = Ok (i, v) ->
  exists m,
    v = Some m /\
    forall q pos t,
      nth_error (row0 arr) q = Some pos ->
      in_range x1 x2 pos = true ->
      nth_error (row1 arr) q = Some (Some t) ->
      t <= m.
Proof.
  intros (Hs & Hlen & _) Hx1 H. unfold query_stack in H.
  apply bind_Ok in H. destruct H as (k & Hk & H).
  apply bind_Ok in H. destruct H as (w & Hw & H).
  injection H as <- <-.
  apply nanargmax_spec in Hk. destruct Hk as (m & Hkm & Hmax).
  destruct (select_from x1 x2 xi1 _ _ Hs Hlen Hx1) as [H1 H2].
  apply H1 in Hkm. apply getitem_Ok in Hw.
  exists m. split; [congruence |].
  intros q pos t Hq Hin Ht.
  destruct (H2 q pos Hq Hin) as (k' & -> & Hk').
  eapply Hmax. rewrite Hk'. exact Ht.
Qed.

Lemma bracket_y_spec (cfg : Config) (arr : YStackArr) (x1 x2 : Q)
    (xi1 : nat) (y : float) :
  stack_wf arr ->
  nth_error (row0 arr) xi1 = Some x1 ->
  0 <= y_offset cfg ->
  0 <= y_offset_to_box cfg ->
  bracket_y cfg arr x1 x2 xi1 = Ok y ->
  exists yq,
    y = Some yq /\
    forall q pos t,
      nth_error (row0 arr) q = Some pos ->
      in_range x1 x2 pos = true ->
      nth_error (row1 arr) q = Some (Some t) ->
      t <= yq.
Proof.
  intros Hwf Hx1 Ho Hob H. unfold bracket_y in H.
  apply bind_Ok in H. destruct H as ([i v] & Hq & H).
  apply bind_Ok in H. destruct H as (n & _ & H).
  injection H as <-.
  destruct (query_stack_spec arr x1 x2 xi1 i v Hwf Hx1 Hq) as (m & -> & Hmax).
  simpl. eexists. split; [reflexivity |].
  intros q pos t Hpos Hin Ht. specialize (Hmax q pos t Hpos Hin Ht).
  destruct (n =? 0)%nat; lra.
Qed.

(** ** The update of the occupancy array *)

Lemma Forall2_pointwise {A B : Type} (R : A -> B -> Prop) (l1 : list A) :
  forall l2,
    List.length l2 = List.length l1 ->
    (forall q u v, nth_error l1 q = Some u -> nth_error l2 q = Some v ->
                   R u v) ->
    Forall2 R l1 l2.
Proof.
  induction l1 as [|u l1 IH]; intros [|v l2] Hlen H; simpl in Hlen;
    try discriminate; constructor.
  - apply (H 0%nat); reflexivity.
  - apply IH; [congruence |].
    intros q u' v' Hu Hv. apply (H (S q)); assumption.
Qed.

Lemma Forall2_nth_error {A B : Type} (R : A -> B -> Prop) (l1 : list A)
    (l2 : list B) :
  Forall2 R l1 l2 ->
  forall q u, nth_error l1 q = Some u ->
              exists v, nth_error l2 q = Some v /\ R u v.
Proof.
  induction 1 as [|u0 v0 l1 l2 H0 _ IH]; intros [|q] u Hu; simpl in *;
    try discriminate.
  - injection Hu as <-. eauto.
  - apply IH, Hu.
Qed.

Lemma assign_range_length (env : Collaborators) (d : DType) (x1 x2 : Q)
    (positions : list Q) (top : float) :
  forall values,
    List.length (assign_range env d x1 x2 positions values top)
      = List.length values.
Proof.
  induction positions as [|p positions IH]; intros [|v values]; simpl;
    try reflexivity.
  f_equal. apply IH.
Qed.

Lemma assign_range_nth (env : Collaborators) (d : DType) (x1 x2 : Q)
    (top : float) :
  forall positions values q pos v,
    nth_error positions q = Some pos ->
    nth_error values q = Some v ->
    nth_error (assign_range env d x1 x2 positions values top) q
      = Some (if in_range x1 x2 pos then astype env d top else v).
Proof.
  induction positions as [|p positions IH]; intros [|v0 values] [|q] pos v Hp Hv;
    simpl in *; try discriminate.
  - injection Hp as <-. injection Hv as <-. reflexivity.
  - eapply IH; eassumption.
Qed.

(** Writing a value that is stored as something not below what the range
    holds lowers nothing. *)
Lemma assign_range_raises (env : Collaborators) (d : DType) (x1 x2 : Q)
    (top : float) (positions : list Q) (values : list float) :
  Forall2 (fun pos v => in_range x1 x2 pos = true -> fle v (astype env d top))
          positions values ->
  Forall2 fle values (assign_range env d x1 x2 positions values top).
Proof.
  induction 1 as [|pos v positions values Hv _ IH]; simpl; constructor.
  - destruct (in_range x1 x2 pos); [apply Hv; reflexivity | apply fle_refl].
  - exact IH.
Qed.

Lemma Forall2_fle_refl (l : list float) : Forall2 fle l l.
Proof. induction l; constructor; [apply fle_refl | assumption]. Qed.

Lemma Forall2_fle_trans (l1 l2 l3 : list float) :
  Forall2 fle l1 l2 -> Forall2 fle l2 l3 -> Forall2 fle l1 l3.
Proof.
  intro H. revert l3.
  induction H as [|u v l1 l2 Huv _ IH]; intros l3 H23; inversion H23; subst;
    constructor.
  - eapply fle_trans; eassumption.
  - apply IH. assumption.
Qed.

Lemma increment_slice_length (xi1 xi2 : nat) (counts : list nat) :
  forall i, List.length (increment_slice xi1 xi2 i counts) = List.length counts.
Proof.
  induction counts as [|n counts IH]; simpl; intro i; [reflexivity |].
  f_equal. apply IH.
Qed.

Lemma update_stack_wf (env : Collaborators) (arr : YStackArr) (x1 x2 : Q)
    (xi1 xi2 : nat) (top : float) :
  stack_wf arr -> stack_wf (update_stack env arr x1 x2 xi1 xi2 top).
Proof.
  intros (Hs & H1 & H2). unfold stack_wf, update_stack. simpl.
  rewrite assign_range_length, increment_slice_length. auto.
Qed.

(** ** Tops never go down *)

Section MonotoneFacts.
Variable env : Collaborators.
Variable a : Args.
Variable cfg : Config.
Hypothesis offset_nonneg : 0 <= y_offset cfg.
Hypothesis offset_to_box_nonneg : 0 <= y_offset_to_box cfg.
Hypothesis height_nonneg : 0 <= cfg_h cfg.
Hypothesis text_above : text_not_below_bracket env a.

(** An iteration that ends normally places the bracket at a number and
    records a top that is not below it. *)
Lemma annotate_pair_top (lc lc' : Locals) (ax ax' : Axes)
    (u : PairBox * PairBox) (r : StatResult) :
  stack_wf (y_stack_arr lc) ->
  pair_wf (row0 (y_stack_arr lc)) u ->
  annotate_pair env a cfg lc ax (u, r) = (ax', Ok lc') ->
  exists yq top,
    bracket_y cfg (y_stack_arr lc) (x (fst u)) (x (snd u)) (xi (fst u))
      = Ok (Some yq) /\
    yq <= top /\
    y_stack lc' = (y_stack lc ++ [Some top])%list /\
    y_stack_arr lc' =
      update_stack env (y_stack_arr lc) (x (fst u)) (x (snd u))
        (xi (fst u)) (xi (snd u)) (Some top).
Proof.
  intros Hwf Hu Hstep. apply annotate_pair_Ok in Hstep.
  destruct Hstep as (t & name & y & y_top & m & _ & Hy & Hdraw & _ & ->).
  destruct (bracket_y_spec cfg _ _ _ _ y Hwf Hu offset_nonneg
              offset_to_box_nonneg Hy) as (yq & -> & _).
  assert (Htop : exists top, y_top = Some top /\ yq <= top).
  { destruct t as [s|].
    - pose proof (text_above
                    (ax_plot env ax
                       [x (fst u); x (fst u); x (snd u); x (snd u)]
                       [Some yq; fadd (Some yq) (Some (cfg_h cfg));
                        fadd (Some yq) (Some (cfg_h cfg)); Some yq]
                       (linewidth a) (color a))
                    s (x (fst u)) (x (snd u)) yq (cfg_h cfg)) as Hc.
      match type of Hdraw with
      | ?drawn = _ => change (fle (Some (yq + cfg_h cfg)) (snd drawn)) in Hc
      end.
      rewrite Hdraw in Hc. simpl in Hc.
      destruct y_top as [top|]; [| contradiction].
      exists top. split; [reflexivity | lra].
    - destruct Hdraw as [_ ->]. simpl. eexists. split; [reflexivity | lra]. }
  destruct Htop as (top & -> & Hle).
  exists yq, top. simpl. auto.
Qed.

(** In a float64 array the top is stored as it is. *)
Lemma annotate_pair_monotone (lc lc' : Locals) (ax ax' : Axes)
    (u : PairBox * PairBox) (r : StatResult) :
  stack_wf (y_stack_arr lc) ->
  dtype (y_stack_arr lc) = float64 ->
  pair_wf (row0 (y_stack_arr lc)) u ->
  annotate_pair env a cfg lc ax (u, r) = (ax', Ok lc') ->
  Forall2 fle (row1 (y_stack_arr lc)) (row1 (y_stack_arr lc')) /\
  stack_wf (y_stack_arr lc') /\
  row0 (y_stack_arr lc') = row0 (y_stack_arr lc) /\
  dtype (y_stack_arr lc') = float64.
Proof.
  intros Hwf Hfloat Hu Hstep.
  destruct (annotate_pair_top lc lc' ax ax' u r Hwf Hu Hstep)
    as (yq & top & Hy & Hle & _ & ->).
  split; [| split; [apply update_stack_wf, Hwf |]; split;
             [reflexivity | exact Hfloat]].
  simpl. apply assign_range_raises. rewrite Hfloat. cbn [astype].
  destruct (bracket_y_spec cfg _ _ _ _ _ Hwf Hu offset_nonneg
              offset_to_box_nonneg Hy) as (yq' & Hyq & Hmax).
  injection Hyq as <-.
  destruct Hwf as (_ & Hlen & _).
  apply Forall2_pointwise; [exact Hlen |].
  intros q pos v Hpos Hv Hin.
  destruct v as [t|]; [| exact I]. simpl.
  eapply Qle_trans; [eapply Hmax; eassumption | exact Hle].
Qed.

Lemma annotate_loop_monotone (l : list ((PairBox * PairBox) * StatResult)) :
  forall lc ax ax' lc',
    stack_wf (y_stack_arr lc) ->
    dtype (y_stack_arr lc) = float64 ->
    Forall (fun pr => pair_wf (row0 (y_stack_arr lc)) (fst pr)) l ->
    annotate_loop env a cfg l lc ax = (ax', Ok lc') ->
    Forall2 fle (row1 (y_stack_arr lc)) (row1 (y_stack_arr lc')) /\
    stack_wf (y_stack_arr lc') /\
    row0 (y_stack_arr lc') = row0 (y_stack_arr lc) /\
    dtype (y_stack_arr lc') = float64.
Proof.
  induction l as [|[u r] l IH]; intros lc ax ax' lc' Hwf Hfloat Hl H;
    cbn [annotate_loop] in H.
  - injection H as _ <-.
    split; [apply Forall2_fle_refl | split; [exact Hwf | auto]].
  - destruct (annotate_pair env a cfg lc ax (u, r)) as [ax1 [lc1|e]] eqn:E;
      [| discriminate H].
    apply Forall_cons_iff in Hl. destruct Hl as [Hu Hl]. simpl in Hu.
    destruct (annotate_pair_monotone lc lc1 ax ax1 u r Hwf Hfloat Hu E)
      as (H1 & Hwf1 & Hrow & Hfloat1).
    rewrite <- Hrow in Hl.
    destruct (IH lc1 ax1 ax' lc' Hwf1 Hfloat1 Hl H)
      as (H2 & Hwf2 & Hrow2 & Hfloat2).
    split; [eapply Forall2_fle_trans; eassumption |].
    split; [exact Hwf2 |]. split; [congruence | exact Hfloat2].
Qed.

(** After an annotation, every position of its range holds its top, as
    the dtype of the array stores it. *)
Lemma annotate_pair_records (lc lc' : Locals) (u : PairBox * PairBox)
    (top : float) (q : nat) (pos : Q) :
  stack_wf (y_stack_arr lc) ->
  y_stack_arr lc' =
    update_stack env (y_stack_arr lc) (x (fst u)) (x (snd u))
      (xi (fst u)) (xi (snd u)) top ->
  nth_error (row0 (y_stack_arr lc)) q = Some pos ->
  covers u pos = true ->
  nth_error (row1 (y_stack_arr lc')) q
    = Some (astype env (dtype (y_stack_arr lc)) top).
Proof.
  intros (_ & Hlen & _) -> Hpos Hin. simpl.
  destruct (nth_error (row1 (y_stack_arr lc)) q) as [v|] eqn:Hv.
  - rewrite (assign_range_nth _ _ _ _ _ _ _ q pos v Hpos Hv).
    unfold covers in Hin. rewrite Hin. reflexivity.
  - apply nth_error_None in Hv.
    assert (q < List.length (row0 (y_stack_arr lc)))%nat
      by (apply nth_error_Some; congruence).
    lia.
Qed.
End MonotoneFacts.

(** ** The array and the pairs the call starts from *)

Lemma enumerate_from_nth {A : Type} (l : list A) :
  forall n i j v,
    nth_error (enumerate_from n l) i = Some (j, v) ->
    j = (n + i)%nat /\ nth_error l i = Some v.
Proof.
  induction l as [|w l IH]; intros n [|i] j v H; simpl in H;
    try discriminate.
  - injection H as <- <-. split; [lia | reflexivity].
  - apply IH in H. destruct H as [-> H]. split; [lia | exact H].
Qed.

Lemma StronglySorted_map {A B : Type} (f : A -> B) (R : B -> B -> Prop)
    (l : list A) :
  StronglySorted (fun u v => R (f u) (f v)) l -> StronglySorted R (map f l).
Proof.
  induction 1 as [|u l _ IH Hu]; simpl; constructor; [exact IH |].
  apply Forall_map. exact Hu.
Qed.

(** A list in non-decreasing order without two equal entries is in
    increasing order. *)
Lemma sorted_distinct_strict (l : list Q) :
  StronglySorted Qle l ->
  (forall i j u v, nth_error l i = Some u -> nth_error l j = Some v ->
                   u == v -> i = j) ->
  StronglySorted Qlt l.
Proof.
  induction 1 as [|u l _ IH Hu]; intro Hd; constructor.
  - apply IH. intros i j v w Hv Hw Heq.
    assert (S i = S j) by (eapply Hd; eassumption). lia.
  - rewrite Forall_forall in *. intros v Hv.
    destruct (In_nth_error _ _ Hv) as (j & Hj).
    destruct (Qle_lt_or_eq _ _ (Hu v Hv)) as [Hlt | Heq]; [exact Hlt |].
    assert (0%nat = S j) by (eapply (Hd 0%nat (S j)); [reflexivity | | ]; eassumption).
    discriminate.
Qed.

Lemma sorted_by_key {A : Type} (key : A -> Q) (l : list A) :
  StronglySorted Qle (map key (sorted key l)).
Proof.
  apply StronglySorted_map. unfold sorted.
  eapply StronglySorted_weaken; [| apply stable_sort_sorted].
  - intros u v H. apply Qle_bool_iff. exact H.
  - intros u v.
    destruct (Qle_bool (key u) (key v)) eqn:E; [left; reflexivity | right].
    apply Qle_bool_false in E. apply Qle_bool_iff, Qlt_le_weak, E.
  - intros u v w H1 H2. apply Qle_bool_iff.
    apply Qle_bool_iff in H1. apply Qle_bool_iff in H2.
    eapply Qle_trans; eassumption.
Qed.

(** The boxes come out by non-decreasing position, each numbered with
    its place in the list. *)
Lemma build_box_structs_indexed (b_plotter : Plotter)
    (box_structs : list IndexedBox) :
  build_box_structs b_plotter = Ok box_structs ->
  StronglySorted Qle (map (fun s : IndexedBox => x s) box_structs) /\
  forall s, In s box_structs -> nth_error box_structs (xi s) = Some s.
Proof.
  unfold build_box_structs. intro H.
  apply bind_Ok in H. destruct H as (l & _ & H). injection H as <-.
  split.
  - rewrite map_map. simpl. rewrite <- (map_map snd x).
    unfold enumerate. rewrite enumerate_from_snd. apply sorted_by_key.
  - intros s Hs. destruct (In_nth_error _ _ Hs) as (i & Hi).
    assert (Hxi : xi s = i).
    { rewrite nth_error_map in Hi.
      destruct (nth_error (enumerate (sorted x l)) i) as [[j v]|] eqn:E;
        [| discriminate].
      injection Hi as <-. simpl.
      apply enumerate_from_nth in E. destruct E as [-> _]. reflexivity. }
    rewrite Hxi. exact Hi.
Qed.

Lemma init_y_stack_arr_rows (env : Collaborators) (b_plotter : Plotter)
    (box_structs : list IndexedBox) (where_ : string) (ylim1 : Q) :
  row0 (init_y_stack_arr env b_plotter box_structs where_ ylim1)
    = map (fun s : IndexedBox => x s) box_structs /\
  List.length (row1 (init_y_stack_arr env b_plotter box_structs where_ ylim1))
    = List.length box_structs /\
  List.length (row2 (init_y_stack_arr env b_plotter box_structs where_ ylim1))
    = List.length box_structs.
Proof.
  unfold init_y_stack_arr.
  destruct (String.eqb where_ "outside"); simpl; rewrite ?length_map; auto.
Qed.

Section StartFacts.
Variable env : Collaborators.
Variable a : Args.

(** With boxes at distinct positions, the array the loop starts from is
    well formed and every pair finds its left box in it. *)
Lemma prepare_wf (ax : Axes) (p : Prepared) :
  prepare env a ax = Ok p ->
  distinct_positions (prep_box_structs p) ->
  stack_wf (y_stack_arr (prep_locals p)) /\
  Forall (pair_wf (row0 (y_stack_arr (prep_locals p)))) (prep_pairs p).
Proof.
  intros Hp Hd. apply prepare_Ok in Hp.
  destruct Hp as (s & resolved & results & Hs & Hr & _ & ->).
  simpl in *.
  apply setup_box_structs in Hs.
  apply build_box_structs_indexed in Hs. destruct Hs as [Hsorted Hxi].
  destruct (init_y_stack_arr_rows env (box_plotter a) (su_box_structs s)
              (loc a) (snd (ylim ax)))
    as (Hrow0 & Hrow1 & Hrow2).
  split.
  - unfold stack_wf. rewrite Hrow0, Hrow1, Hrow2, length_map.
    split; [| auto].
    apply sorted_distinct_strict; [exact Hsorted |].
    intros i j u v Hu Hv Heq.
    rewrite nth_error_map in Hu, Hv.
    destruct (nth_error (su_box_structs s) i) as [bi|] eqn:Ei;
      [| discriminate].
    destruct (nth_error (su_box_structs s) j) as [bj|] eqn:Ej;
      [| discriminate].
    injection Hu as <-. injection Hv as <-.
    eapply Hd; eassumption.
  - rewrite Hrow0.
    apply build_box_struct_pairs_Ok in Hr. destruct Hr as [_ Hall].
    eapply Permutation_Forall;
      [apply Permutation_sym, sort_pairs_perm |].
    eapply Forall_impl; [| exact Hall].
    intros u (_ & Hin & _). unfold pair_wf.
    rewrite nth_error_map, (Hxi _ Hin). reflexivity.
Qed.
End StartFacts.

Lemma Forall_combine_fst {A B : Type} (P : A -> Prop) (l : list A)
    (l' : list B) :
  Forall P l -> Forall (fun pr => P (fst pr)) (combine l l').
Proof.
  intro H. revert l'.
  induction H as [|u l Hu _ IH]; intros [|v l']; simpl; constructor;
    [exact Hu | apply IH].
Qed.



(** ** The call on four groups and two overlapping pairs *)

(** Without a renderer the top of a text is guessed one unit above its
    baseline, which is the bracket top plus [text_offset]. *)
Lemma plain_env_text_above (a : Args) :
  0 <= text_offset a -> text_not_below_bracket Inputs.plain_env a.
Proof.
  intros Hoff ax s x1 x2 y h. unfold draw_text. simpl.
  destruct (use_fixed_offset a); simpl; lra.
Qed.

Lemma four_positions_distinct (b0 b1 b2 b3 : IndexedBox) :
  x b0 < x b1 -> x b1 < x b2 -> x b2 < x b3 ->
  distinct_positions [b0; b1; b2; b3].
Proof.
  intros H01 H12 H23 i j s t Hs Ht Heq.
  destruct i as [|[|[|[|i]]]]; destruct j as [|[|[|[|j]]]];
    simpl in Hs, Ht; try discriminate; try reflexivity;
    try (destruct i; discriminate); try (destruct j; discriminate);
    injection Hs as <-; injection Ht as <-; exfalso; lra.
Qed.



(** ** Calls in which a top goes down *)



(** The tops of an int64 array.  With integer data and no hue, on an axis
    from 0 to 10 and with the default offsets, the bracket from A to B has
    its top at 5 + 0.6 + 0.2 and the array keeps 5; the bracket from A to C
    is then placed at 5 + 0.5, below the top of the first. *)
Example integer_data_truncates_tops :
  exists p u r v r' ax1 lc1 top_u y_v,
    prepare Inputs.plain_env Inputs.integer_overlapping Inputs.axes_0_10
      = Ok p /\
    dtype (y_stack_arr (prep_locals p)) = int64 /\
    (0 <= y_offset (prep_cfg p) /\ 0 <= y_offset_to_box (prep_cfg p) /\
     0 <= cfg_h (prep_cfg p)) /\
    combine (prep_pairs p) (prep_results p) = [(u, r); (v, r')] /\
    annotate_pair Inputs.plain_env Inputs.integer_overlapping (prep_cfg p)
      (prep_locals p) Inputs.axes_0_10 (u, r) = (ax1, Ok lc1) /\
    y_stack lc1 = [Some top_u] /\
    row1 (y_stack_arr lc1) = [Some 5; Some 5; Some 4] /\
    bracket_y (prep_cfg p) (y_stack_arr lc1)
      (x (fst v)) (x (snd v)) (xi (fst v)) = Ok (Some y_v) /\
    covers u 0 = true /\ covers v 0 = true /\
    5 < top_u /\ y_v < top_u.
Proof.
  do 9 eexists.
  split; [vm_compute; reflexivity |].
  split; [reflexivity |].
  split; [repeat split; unfold Qle; simpl; lia |].
  split; [vm_compute; reflexivity |].
  split; [vm_compute; reflexivity |].
  split; [reflexivity |].
  split; [vm_compute; reflexivity |].
  split; [vm_compute; reflexivity |].
  repeat split.
Qed.

(** * Further properties of the code *)

(** ** format_annotations.py: which tables pass, and what each result gets *)

Lemma threshold_loop_outcome (p_values : list Q) (rows : Thresholds) :
  forall bound annotations,
    (strictly_decreasing rows /\ Forall (fun r => fst r < bound) rows /\
     exists out, threshold_loop p_values rows bound annotations = Ok out) \/
    (~ (strictly_decreasing rows /\ Forall (fun r => fst r < bound) rows) /\
     threshold_loop p_values rows bound annotations
       = Raise (AssertionError not_monotonic)).
Proof.
  induction rows as [|[c lab] rows IH]; intros bound annotations; simpl.
  - left. split; [constructor |]. split; [constructor | eauto].
  - destruct (Qltb c bound) eqn:E.
    + apply Qltb_lt in E.
      destruct (IH c (assign_below p_values c lab annotations))
        as [(Hs & Hall & Hout) | (Hno & Hraise)].
      * left. split; [| split; [| exact Hout]].
        -- constructor; [exact Hs | exact Hall].
        -- constructor; [exact E |].
           eapply Forall_impl; [| exact Hall].
           intros r Hr. simpl in Hr. eapply Qlt_trans; eassumption.
      * right. split; [| exact Hraise].
        intros [Hs _]. apply Hno.
        apply StronglySorted_inv in Hs. exact Hs.
    + right. split; [| reflexivity].
      intros [_ Hall]. apply Forall_cons_iff in Hall. destruct Hall as [Hc _].
      simpl in Hc. apply Qltb_ge in E. eapply Qlt_not_le; eassumption.
Qed.

Lemma label_all_nil_rows (p_values : list Q) :
  forall annotations, label_all p_values [] annotations = annotations.
Proof.
  induction p_values as [|p ps IH]; intros [|s ss]; simpl; try reflexivity.
  f_equal. apply IH.
Qed.

Lemma label_all_step (c : Q) (lab : string) (rows : Thresholds)
    (p_values : list Q) :
  forall annotations,
    label_all p_values rows (assign_below p_values c lab annotations)
    = label_all p_values ((c, lab) :: rows) annotations.
Proof.
  induction p_values as [|p ps IH]; intros [|s ss]; simpl; try reflexivity.
  f_equal. apply IH.
Qed.

(** The loop, when it does not fail, leaves each p-value with its last
    label. *)
Lemma threshold_loop_labels (p_values : list Q) (rows : Thresholds) :
  forall bound annotations out,
    threshold_loop p_values rows bound annotations = Ok out ->
    out = label_all p_values rows annotations.
Proof.
  induction rows as [|[c lab] rows IH]; intros bound annotations out; simpl.
  - intro H. injection H as <-. symmetry. apply label_all_nil_rows.
  - destruct (Qltb c bound); [| discriminate].
    intro H. apply IH in H. rewrite H. apply label_all_step.
Qed.

(** On rows that strictly decrease, the last label is that of the
    smallest cutoff the p-value does not exceed. *)
Lemma last_label_tightest (p : Q) (rows : Thresholds) :
  strictly_decreasing rows ->
  forall current,
    (forall m, In m rows -> p <= fst m ->
               (forall r, In r rows -> p <= fst r -> fst m <= fst r) ->
               last_label p rows current = snd m) /\
    ((forall r, In r rows -> fst r < p) ->
     last_label p rows current = current).
Proof.
  induction 1 as [|[c lab] rows Hs IH Hhead]; intro current; simpl.
  - split; [intros m [] | reflexivity].
  - destruct (IH (if Qle_bool p c then lab else current)) as [Hmin Hnone].
    split.
    + intros m [<- | Hm] Hpm Hleast.
      * simpl in *. apply Qle_bool_iff in Hpm. rewrite Hpm in Hnone |- *.
        apply Hnone. intros r Hr. apply Qnot_le_lt. intro Hpr.
        rewrite Forall_forall in Hhead. specialize (Hhead r Hr).
        simpl in Hhead. specialize (Hleast r (or_intror Hr) Hpr).
        eapply Qlt_not_le; eassumption.
      * apply Hmin; [exact Hm | exact Hpm |].
        intros r Hr. apply Hleast. right. exact Hr.
    + intro Hall.
      assert (Hpc : Qle_bool p c = false).
      { apply Qle_bool_false. apply (Hall (c, lab)). left. reflexivity. }
      rewrite Hpc in Hnone |- *. apply Hnone.
      intros r Hr. apply Hall. right. exact Hr.
Qed.

Lemma label_all_nth (rows : Thresholds) (p_values : list Q) :
  forall annotations i p s,
    nth_error p_values i = Some p ->
    nth_error annotations i = Some s ->
    nth_error (label_all p_values rows annotations) i
      = Some (last_label p rows s).
Proof.
  induction p_values as [|q ps IH]; intros [|a ss] [|i] p s Hp Hs;
    simpl in *; try discriminate.
  - injection Hp as <-. injection Hs as <-. reflexivity.
  - eapply IH; eassumption.
Qed.

Lemma label_all_length (rows : Thresholds) (p_values : list Q) :
  forall annotations,
    List.length (label_all p_values rows annotations)
      = List.length annotations.
Proof.
  induction p_values as [|q ps IH]; intros [|a ss]; simpl; try reflexivity.
  f_equal. apply IH.
Qed.

Lemma zip_concat_nth (stars : list string) :
  forall suffixes i s x,
    nth_error stars i = Some s ->
    nth_error suffixes i = Some x ->
    nth_error (zip_concat stars suffixes) i = Some (s ++ x)%string.
Proof.
  induction stars as [|a stars IH]; intros [|b suffixes] [|i] s x Hs Hx;
    simpl in *; try discriminate.
  - injection Hs as <-. injection Hx as <-. reflexivity.
  - eapply IH; eassumption.
Qed.

Lemma zip_concat_length (stars : list string) :
  forall suffixes,
    List.length suffixes = List.length stars ->
    List.length (zip_concat stars suffixes) = List.length stars.
Proof.
  induction stars as [|a stars IH]; intros [|b suffixes] H; simpl in *;
    try discriminate; try reflexivity.
  f_equal. apply IH. congruence.
Qed.

(** A strictly decreasing table has at most one row of a given cutoff. *)
Lemma one_row_per_cutoff (c : Q) (rows : Thresholds) :
  strictly_decreasing rows ->
  (List.length (filter (fun r => Qeq_bool (fst r) c) rows) <= 1)%nat.
Proof.
  induction 1 as [|h rows Hs IH Hhead]; simpl; [lia |].
  destruct (Qeq_bool (fst h) c) eqn:E; [| exact IH].
  apply Qeq_bool_iff in E.
  assert (Hnone : filter (fun r => Qeq_bool (fst r) c) rows = []).
  { clear IH Hs. induction rows as [|r rows IH]; simpl; [reflexivity |].
    apply Forall_cons_iff in Hhead. destruct Hhead as [Hr Hrest].
    destruct (Qeq_bool (fst r) c) eqn:Er; [| apply IH, Hrest].
    apply Qeq_bool_iff in Er. exfalso. rewrite Er, <- E in Hr.
    apply (Qlt_irrefl _ Hr). }
  rewrite Hnone. simpl. lia.
Qed.

Lemma sort_values_desc_Ok (t rows : Thresholds) :
  sort_values_desc t = Ok rows -> t <> [] /\ rows = by_decreasing_cutoff t.
Proof.
  destruct t as [|r t]; simpl; intro H; [discriminate |].
  injection H as <-. split; [discriminate | reflexivity].
Qed.

(** X1. [pval_annotation_text] returns a text exactly for the tables that
    are not empty, whose cutoffs strictly decrease once sorted and all
    lie below 1.1, whatever the results.  An empty table ends in the
    [KeyError] of the sort, any other table in the failed assertion. *)
Theorem star_table_outcome
    (significance_suffix : StatResult -> string)
    (return_results : list string -> string)
    (result : list StatResult) (t : Thresholds) :
  match pval_annotation_text significance_suffix return_results result t with
  | Ok _ => accepted t
  | Raise e =>
      (t = [] /\ e = KeyError "0") \/
      (t <> [] /\ ~ accepted t /\ e = AssertionError not_monotonic)
  end.
Proof.
  unfold pval_annotation_text, significance_annotations_with_suffixes.
  destruct t as [|r0 t]; [left; split; reflexivity |].
  set (tab := r0 :: t).
  assert (Hne : tab <> []) by discriminate.
  rewrite (sort_values_desc_nonempty tab Hne). cbn [bind].
  destruct (threshold_loop_outcome (map pval result)
              (by_decreasing_cutoff tab) 1.1
              (map (fun _ => EmptyString) (map pval result)))
    as [(Hs & Hall & out & ->) | (Hno & ->)]; cbn [bind].
  - split; [exact Hne |]. split; [exact Hs |].
    eapply Permutation_Forall; [| exact Hall]. apply stable_sort_perm.
  - right. split; [exact Hne |]. split; [| reflexivity].
    intros (_ & Hs & Hall). apply Hno. split; [exact Hs |].
    apply below_seed_sorted, Hall.
Qed.

(** X2. A table in which two rows have the same cutoff is refused with
    the failed assertion, wherever the two rows stand. *)
Theorem duplicate_cutoffs_refused
    (significance_suffix : StatResult -> string)
    (return_results : list string -> string)
    (result : list StatResult) (l1 l2 l3 : Thresholds) (r r' : Q * string) :
  fst r == fst r' ->
  pval_annotation_text significance_suffix return_results result
    (l1 ++ r :: l2 ++ r' :: l3)%list
    = Raise (AssertionError not_monotonic).
Proof.
  intro Heq.
  set (tab := (l1 ++ r :: l2 ++ r' :: l3)%list).
  assert (Hne : tab <> []) by (unfold tab; destruct l1; discriminate).
  unfold pval_annotation_text, significance_annotations_with_suffixes.
  rewrite (sort_values_desc_nonempty tab Hne). cbn [bind].
  destruct (threshold_loop_outcome (map pval result)
              (by_decreasing_cutoff tab) 1.1
              (map (fun _ => EmptyString) (map pval result)))
    as [(Hs & _ & _) | (_ & ->)]; [| reflexivity].
  exfalso.
  pose proof (one_row_per_cutoff (fst r) _ Hs) as Hone.
  unfold by_decreasing_cutoff in Hone.
  rewrite stable_sort_filter in Hone.
  - unfold tab in Hone.
    rewrite filter_app in Hone. simpl in Hone.
    rewrite Qeq_bool_refl in Hone. simpl in Hone.
    rewrite filter_app in Hone. simpl in Hone.
    rewrite (Qeq_eq_bool _ _ (Qeq_sym _ _ Heq)) in Hone.
    rewrite !length_app in Hone. simpl in Hone.
    rewrite length_app in Hone. simpl in Hone. lia.
  - intros u v Hu Hv. apply Qeq_bool_iff in Hu. apply Qeq_bool_iff in Hv.
    apply Qle_bool_iff. rewrite Hu, Hv. apply Qle_refl.
Qed.

(** X3. When the formatter returns, it returns one text per result, in
    the order of the results: the label of the smallest cutoff that the
    p-value of the result does not exceed (the empty string when it
    exceeds them all), followed by the suffix of the result. *)
Theorem star_labels_per_result
    (significance_suffix : StatResult -> string)
    (result : list StatResult) (t : Thresholds) (l : list string) :
  significance_annotations_with_suffixes significance_suffix result t = Ok l ->
  List.length l = List.length result /\
  forall i r,
    nth_error result i = Some r ->
    exists lab,
      nth_error l i = Some (lab ++ significance_suffix r)%string /\
      (forall m, In m t -> pval r <= fst m ->
                 (forall row, In row t -> pval r <= fst row ->
                              fst m <= fst row) ->
                 lab = snd m) /\
      ((forall row, In row t -> fst row < pval r) -> lab = EmptyString).
Proof.
  unfold significance_annotations_with_suffixes. intro H.
  apply bind_Ok in H. destruct H as (rows & Hrows & H).
  apply bind_Ok in H. destruct H as (out & Hout & H).
  injection H as <-.
  apply sort_values_desc_Ok in Hrows. destruct Hrows as [_ ->].
  pose proof (threshold_loop_labels _ _ _ _ _ Hout) as ->.
  assert (Hs : strictly_decreasing (by_decreasing_cutoff t)).
  { destruct (threshold_loop_outcome (map pval result)
                (by_decreasing_cutoff t) 1.1
                (map (fun _ => EmptyString) (map pval result)))
      as [(Hs & _) | (_ & Hraise)]; [exact Hs | congruence]. }
  split.
  - rewrite zip_concat_length; rewrite label_all_length, !length_map;
      reflexivity.
  - intros i r Hr.
    exists (last_label (pval r) (by_decreasing_cutoff t) EmptyString).
    split; [| split].
    + apply zip_concat_nth; [| apply map_nth_error, Hr].
      apply label_all_nth.
      * apply map_nth_error, Hr.
      * rewrite map_map. apply (map_nth_error (fun _ => EmptyString) _ _ Hr).
    + intros m Hm Hp Hleast.
      destruct (last_label_tightest (pval r) _ Hs EmptyString) as [Hmin _].
      apply Hmin.
      * apply stable_sort_in. exact Hm.
      * exact Hp.
      * intros row Hrow. apply Hleast.
        unfold by_decreasing_cutoff in Hrow.
        apply stable_sort_in in Hrow. exact Hrow.
    + intro Hall.
      destruct (last_label_tightest (pval r) _ Hs EmptyString) as [_ Hnone].
      apply Hnone. intros row Hrow. apply Hall.
      unfold by_decreasing_cutoff in Hrow.
      apply stable_sort_in in Hrow. exact Hrow.
Qed.

Lemma star_labels_per_result_witness :
  significance_annotations_with_suffixes Inputs.no_suffix
    [Inputs.result_with_pval 0.03; Inputs.result_with_pval 0.2;
     Inputs.result_with_pval 0.00001]
    default_star_thresholds
  = Ok ["*"; "ns"; "****"] /\
  List.length ["*"; "ns"; "****"] = 3%nat.
Proof.
  assert (H : significance_annotations_with_suffixes Inputs.no_suffix
                [Inputs.result_with_pval 0.03; Inputs.result_with_pval 0.2;
                 Inputs.result_with_pval 0.00001]
                default_star_thresholds
              = Ok ["*"; "ns"; "****"]) by reflexivity.
  split; [exact H |].
  destruct (star_labels_per_result _ _ _ _ H) as [Hlen _]. exact Hlen.
Defined.

(** ** format_annotations.py: [simple_text] *)

Lemma sort_thresholds_sorted (t : Thresholds) :
  StronglySorted (fun r r' => fst r <= fst r') (sort_thresholds t).
Proof.
  unfold sort_thresholds, sorted.
  eapply StronglySorted_weaken; [| apply stable_sort_sorted].
  - intros u v H. apply Qle_bool_iff. exact H.
  - intros u v.
    destruct (Qle_bool (fst u) (fst v)) eqn:E; [left; reflexivity | right].
    apply Qle_bool_false in E. apply Qle_bool_iff, Qlt_le_weak, E.
  - intros u v w H1 H2. apply Qle_bool_iff.
    apply Qle_bool_iff in H1. apply Qle_bool_iff in H2.
    eapply Qle_trans; eassumption.
Qed.

Lemma simple_pval_text_exact (format_float : string -> Q -> string) (p : Q)
    (fmt : string) (rows : Thresholds) :
  (forall row, In row rows -> fst row <= p) ->
  simple_pval_text format_float p fmt rows
    = ("p = " ++ format_float fmt p)%string.
Proof.
  induction rows as [|h rows IH]; simpl; intro Hall; [reflexivity |].
  assert (E : Qltb p (fst h) = false)
    by (apply Qltb_ge, Hall; left; reflexivity).
  rewrite E. apply IH. intros row Hrow. apply Hall. right. exact Hrow.
Qed.

Lemma simple_pval_text_first (format_float : string -> Q -> string) (p : Q)
    (fmt : string) (m : Q * string) (rows : Thresholds) :
  StronglySorted (fun r r' => fst r <= fst r') rows ->
  In m rows ->
  p < fst m ->
  (forall row, In row rows -> p < fst row -> row = m \/ fst m < fst row) ->
  simple_pval_text format_float p fmt rows = ("p ≤ " ++ snd m)%string.
Proof.
  induction 1 as [|h rows Hs IH Hhead]; intros Hm Hp Hfirst;
    [contradiction |].
  simpl. destruct (Qltb p (fst h)) eqn:E.
  - apply Qltb_lt in E.
    destruct (Hfirst h (or_introl eq_refl) E) as [-> | Hlt]; [reflexivity |].
    exfalso. destruct Hm as [-> | Hm]; [apply (Qlt_irrefl _ Hlt) |].
    rewrite Forall_forall in Hhead. specialize (Hhead m Hm).
    eapply Qlt_not_le; eassumption.
  - apply Qltb_ge in E.
    destruct Hm as [-> | Hm];
      [exfalso; eapply Qlt_not_le; eassumption |].
    apply IH; [exact Hm | exact Hp |].
    intros row Hrow. apply Hfirst. right. exact Hrow.
Qed.

(** X4. [simple_text] writes the optional test name, the p-value part
    and the suffix.  The p-value part names the label of the smallest
    cutoff strictly above the p-value; a p-value equal to a cutoff is
    not covered by it, and a p-value that no cutoff is above is written
    out with the format. *)
Theorem simple_text_cases
    (significance_suffix : StatResult -> string)
    (format_float : string -> Q -> string)
    (r : StatResult) (fmt : string) (t : Thresholds)
    (name : option string) :
  ((forall row, In row t -> fst row <= pval r) ->
   simple_text significance_suffix format_float r fmt t name
     = (name_prefix name ++ ("p = " ++ format_float fmt (pval r))
          ++ significance_suffix r)%string) /\
  (forall m, In m t -> pval r < fst m ->
             (forall row, In row t -> pval r < fst row ->
                          row = m \/ fst m < fst row) ->
             simple_text significance_suffix format_float r fmt t name
               = (name_prefix name ++ ("p ≤ " ++ snd m)
                    ++ significance_suffix r)%string).
Proof.
  unfold simple_text. split.
  - intro Hall. rewrite simple_pval_text_exact; [reflexivity |].
    intros row Hrow. apply Hall.
    unfold sort_thresholds, sorted in Hrow.
    apply stable_sort_in in Hrow. exact Hrow.
  - intros m Hm Hp Hfirst.
    rewrite (simple_pval_text_first format_float (pval r) fmt m);
      [reflexivity | apply sort_thresholds_sorted | | exact Hp |].
    + apply stable_sort_in. exact Hm.
    + intros row Hrow. apply Hfirst.
      unfold sort_thresholds, sorted in Hrow.
      apply stable_sort_in in Hrow. exact Hrow.
Qed.

Lemma duplicate_cutoffs_witness :
  pval_annotation_text Inputs.no_suffix Inputs.first_or_join
    [Inputs.result_with_pval 0.5] Inputs.repeated_cutoff
    = Raise (AssertionError not_monotonic).
Proof.
  apply (duplicate_cutoffs_refused _ _ _ [] [(0.01, "**")] []
           (0.05, "*") (0.05, "x")).
  reflexivity.
Defined.

(** ** statannot.py: the resolved pairs *)

Lemma resolve_pair_boxes (box_names : list BoxName)
    (box_structs : list IndexedBox) (i : nat) (b1 b2 : BoxName)
    (u : PairBox * PairBox) :
  resolve_pair box_names box_structs (i, (b1, b2)) = Ok u ->
  (box (fst u) = b1 /\ box (snd u) = b2) \/
  (box (fst u) = b2 /\ box (snd u) = b1).
Proof.
  unfold resolve_pair.
  destruct (is_in b1 box_names && is_in b2 box_names); [| discriminate].
  intro H. apply bind_Ok in H. destruct H as (s1 & H1 & H).
  apply bind_Ok in H. destruct H as (s2 & H2 & H).
  apply dict_get_In in H1. apply dict_get_In in H2.
  destruct H1 as [_ H1]. destruct H2 as [_ H2]. simpl in H.
  destruct (Qle_bool (x s1) (x s2)); injection H as <-; simpl; auto.
Qed.

Lemma resolved_pair_request (box_names : list BoxName)
    (box_structs : list IndexedBox) (pairs : list (BoxName * BoxName))
    (resolved : list (PairBox * PairBox)) (u : PairBox * PairBox) :
  build_box_struct_pairs box_names box_structs pairs = Ok resolved ->
  In u resolved ->
  exists b1 b2,
    nth_error pairs (request_index u) = Some (b1, b2) /\
    ((box (fst u) = b1 /\ box (snd u) = b2) \/
     (box (fst u) = b2 /\ box (snd u) = b1)).
Proof.
  unfold build_box_struct_pairs, enumerate. intros H Hu.
  apply mapM_Ok in H. apply Forall2_flip in H.
  destruct (In_nth_error _ _ Hu) as (k & Hk).
  destruct (Forall2_nth_error _ _ _ H k u Hk) as ([i [b1 b2]] & Hi & Hres).
  apply enumerate_from_nth in Hi. destruct Hi as [-> Hi]. simpl in Hi.
  pose proof (resolve_pair_Ok _ _ _ _ _ _ Hres) as (Hidx & _).
  exists b1, b2. unfold request_index. rewrite Hidx.
  split; [exact Hi | eapply resolve_pair_boxes; exact Hres].
Qed.

(** X5. Every pair the loops go through has its left box at or before
    its right box on the x axis, carries on both boxes the index of one
    request, and is made of the two boxes named by that request, in the
    order of the request or swapped. *)
Theorem processed_pairs_are_ordered_requests
    (env : Collaborators) (a : Args) (ax : Axes) (p : Prepared)
    (u : PairBox * PairBox) :
  prepare env a ax = Ok p ->
  In u (prep_pairs p) ->
  x (fst u) <= x (snd u) /\
  i_box_pair (snd u) = i_box_pair (fst u) /\
  exists b1 b2,
    nth_error (box_pairs a) (request_index u) = Some (b1, b2) /\
    ((box (fst u) = b1 /\ box (snd u) = b2) \/
     (box (fst u) = b2 /\ box (snd u) = b1)).
Proof.
  intros Hp Hu. apply prepare_pairs in Hp.
  destruct Hp as (resolved & Hr & Hsorted).
  rewrite Hsorted in Hu.
  apply (Permutation_in _ (sort_pairs_perm resolved)) in Hu.
  pose proof (build_box_struct_pairs_Ok _ _ _ _ Hr) as [_ Hall].
  rewrite Forall_forall in Hall.
  destruct (Hall u Hu) as (Hidx & _ & _ & Hle).
  split; [exact Hle |]. split; [exact Hidx |].
  eapply resolved_pair_request; eassumption.
Qed.

Lemma processed_pairs_witness :
  exists p u,
    prepare Inputs.plain_env Inputs.far_then_near Inputs.axes_0_6 = Ok p /\
    nth_error (prep_pairs p) 0 = Some u /\
    x (fst u) <= x (snd u).
Proof.
  do 2 eexists.
  match goal with
  | |- ?G /\ _ => assert (Hp : G) by (vm_compute; reflexivity)
  end.
  split; [exact Hp |].
  match goal with
  | |- ?G /\ _ => assert (Hu : G) by (vm_compute; reflexivity)
  end.
  split; [exact Hu |].
  apply nth_error_In in Hu.
  destruct (processed_pairs_are_ordered_requests _ _ _ _ _ Hp Hu)
    as [Hle _].
  exact Hle.
Defined.

(** ** statannot.py: the depth of the stack *)

Lemma increment_slice_nth (xi1 xi2 : nat) (counts : list nat) :
  forall k i n,
    nth_error counts i = Some n ->
    nth_error (increment_slice xi1 xi2 k counts) i
      = Some (if (xi1 <=? k + i)%nat && (k + i <=? xi2)%nat
              then S n else n).
Proof.
  induction counts as [|c counts IH]; intros k [|i] n H; simpl in H;
    try discriminate.
  - injection H as <-. simpl. rewrite Nat.add_0_r.
    replace (k <? xi2 + 1)%nat with (k <=? xi2)%nat; [reflexivity |].
    destruct (Nat.leb_spec k xi2), (Nat.ltb_spec k (xi2 + 1)); lia.
  - simpl. rewrite (IH (S k) i n H).
    replace (S k + i)%nat with (k + S i)%nat by lia. reflexivity.
Qed.

Section DepthFacts.
Variable env : Collaborators.
Variable a : Args.
Variable cfg : Config.

Lemma annotate_pair_depth (lc lc' : Locals) (ax ax' : Axes)
    (u : PairBox * PairBox) (r : StatResult) (i n : nat) :
  annotate_pair env a cfg lc ax (u, r) = (ax', Ok lc') ->
  nth_error (row2 (y_stack_arr lc)) i = Some n ->
  nth_error (row2 (y_stack_arr lc')) i = Some (n + covering_count i [u])%nat.
Proof.
  intros Hstep Hn. apply annotate_pair_Ok in Hstep.
  destruct Hstep as (t & name & y & y_top & m & _ & _ & _ & _ & ->).
  simpl. rewrite (increment_slice_nth _ _ _ 0 i n Hn). simpl.
  unfold covering_count. simpl.
  destruct ((xi (fst u) <=? i)%nat && (i <=? xi (snd u))%nat); simpl;
    f_equal; lia.
Qed.

End DepthFacts.

(** X6. The depth recorded at an index of the occupancy array counts
    annotations: after the loop has gone through a list of pairs, it is
    the depth before plus the number of those pairs whose index range
    [xi1 .. xi2] contains the index.  In particular it never decreases
    and it is zero where no annotation has passed. *)
Theorem depth_counts_annotations
    (env : Collaborators) (a : Args) (cfg : Config)
    (l : list ((PairBox * PairBox) * StatResult))
    (lc lc' : Locals) (ax ax' : Axes) (i n : nat) :
  annotate_loop env a cfg l lc ax = (ax', Ok lc') ->
  nth_error (row2 (y_stack_arr lc)) i = Some n ->
  nth_error (row2 (y_stack_arr lc')) i
    = Some (n + covering_count i (map fst l))%nat.
Proof.
  revert lc ax ax' lc' n.
  induction l as [|[u r] l IH]; intros lc ax ax' lc' n H Hn;
    cbn [annotate_loop] in H.
  - injection H as _ <-. unfold covering_count. simpl.
    rewrite Nat.add_0_r. exact Hn.
  - destruct (annotate_pair env a cfg lc ax (u, r)) as [ax1 [lc1|e]] eqn:E;
      [| discriminate H].
    pose proof (annotate_pair_depth env a cfg _ _ _ _ _ _ i n E Hn) as H1.
    rewrite (IH _ _ _ _ _ H H1). f_equal.
    unfold covering_count. simpl.
    destruct ((xi (fst u) <=? i)%nat && (i <=? xi (snd u))%nat); simpl; lia.
Qed.

Lemma depth_counts_witness :
  exists p ax' lc',
    prepare Inputs.plain_env Inputs.overlapping Inputs.axes_0_6 = Ok p /\
    annotate_loop Inputs.plain_env Inputs.overlapping (prep_cfg p)
      (combine (prep_pairs p) (prep_results p)) (prep_locals p)
      Inputs.axes_0_6 = (ax', Ok lc') /\
    nth_error (row2 (y_stack_arr lc')) 1 = Some 2%nat /\
    nth_error (row2 (y_stack_arr lc')) 2 = Some 1%nat /\
    nth_error (row2 (y_stack_arr lc')) 3 = Some 0%nat.
Proof.
  do 3 eexists.
  match goal with
  | |- ?G /\ _ => assert (Hp : G) by (vm_compute; reflexivity)
  end.
  split; [exact Hp |].
  match goal with
  | |- ?G /\ _ => assert (Hl : G) by (vm_compute; reflexivity)
  end.
  split; [exact Hl |].
  split; [| split].
  - rewrite (depth_counts_annotations _ _ _ _ _ _ _ _ 1 0 Hl eq_refl).
    reflexivity.
  - rewrite (depth_counts_annotations _ _ _ _ _ _ _ _ 2 0 Hl eq_refl).
    reflexivity.
  - rewrite (depth_counts_annotations _ _ _ _ _ _ _ _ 3 0 Hl eq_refl).
    reflexivity.
Defined.

(** ** statannot.py: where the bracket goes *)

(** The scan keeps the first of several equal maxima. *)
Lemma argmax_scan_first (l : list float) :
  forall i best k m,
    argmax_scan l i best = Some (k, m) ->
    best = Some (k, m) \/
    exists d,
      k = (i + d)%nat /\ nth_error l d = Some (Some m) /\
      (forall j v, (j < d)%nat -> nth_error l j = Some (Some v) -> v < m) /\
      (forall j b, best = Some (j, b) -> b < m).
Proof.
  induction l as [|c l IH]; simpl; intros i best k m H.
  - left. exact H.
  - apply IH in H. destruct c as [v|].
    + destruct best as [[j b]|].
      * destruct (Qltb b v) eqn:E.
        -- apply Qltb_lt in E. right.
           destruct H as [H | (d & -> & Hd & Hbefore & Hbest)].
           ++ injection H as <- <-. exists 0%nat.
              split; [lia |]. split; [reflexivity |].
              split; [intros j' w Hj'; lia |].
              intros j' b' Hb'. injection Hb' as <- <-. exact E.
           ++ pose proof (Hbest i v eq_refl) as Hvm.
              exists (S d). split; [lia |]. split; [exact Hd |]. split.
              ** intros [|j'] w Hj' Hw; simpl in Hw.
                 --- injection Hw as <-. exact Hvm.
                 --- eapply Hbefore; [| exact Hw]. lia.
              ** intros j' b' Hb'. injection Hb' as <- <-.
                 eapply Qlt_trans; eassumption.
        -- apply Qltb_ge in E.
           destruct H as [H | (d & -> & Hd & Hbefore & Hbest)];
             [left; exact H | right].
           pose proof (Hbest j b eq_refl) as Hbm.
           exists (S d). split; [lia |]. split; [exact Hd |]. split.
           ++ intros [|j'] w Hj' Hw; simpl in Hw.
              ** injection Hw as <-. eapply Qle_lt_trans; eassumption.
              ** eapply Hbefore; [| exact Hw]. lia.
           ++ intros j' b' Hb'. injection Hb' as <- <-. exact Hbm.
      * right. destruct H as [H | (d & -> & Hd & Hbefore & Hbest)].
        -- injection H as <- <-. exists 0%nat.
           split; [lia |]. split; [reflexivity |].
           split; [intros j' w Hj'; lia | discriminate].
        -- pose proof (Hbest i v eq_refl) as Hvm.
           exists (S d). split; [lia |]. split; [exact Hd |]. split.
           ++ intros [|j'] w Hj' Hw; simpl in Hw.
              ** injection Hw as <-. exact Hvm.
              ** eapply Hbefore; [| exact Hw]. lia.
           ++ discriminate.
    + destruct H as [H | (d & -> & Hd & Hbefore & Hbest)].
      * left. destruct best as [[j b]|]; exact H.
      * right. exists (S d). split; [lia |]. split; [exact Hd |]. split.
        -- intros [|j'] w Hj' Hw; simpl in Hw; [discriminate |].
           eapply Hbefore; [| exact Hw]. lia.
        -- destruct best as [[j b]|]; [| discriminate].
           intros j' b' Hb'. eapply Hbest. exact Hb'.
Qed.

Lemma nanargmax_first (l : list float) (k : nat) :
  nanargmax l = Ok k ->
  exists m, nth_error l k = Some (Some m) /\
            forall j v, (j < k)%nat -> nth_error l j = Some (Some v) ->
                        v < m.
Proof.
  unfold nanargmax.
  destruct (argmax_scan l 0 None) as [[k' m]|] eqn:E; [| discriminate].
  intro H. injection H as ->.
  apply argmax_scan_first in E.
  destruct E as [E | (d & -> & Hd & Hbefore & _)]; [discriminate |].
  exists m. split; [exact Hd | exact Hbefore].
Qed.

Lemma nanargmax_all_nan (l : list float) :
  Forall (fun v => v = None) l ->
  nanargmax l = Raise (ValueError "All-NaN slice encountered").
Proof.
  intro H. unfold nanargmax.
  assert (E : forall i, argmax_scan l i None = None).
  { induction H as [|v l Hv _ IH]; intro i; simpl; [reflexivity |].
    rewrite Hv. apply IH. }
  rewrite E. reflexivity.
Qed.

(** The values selected are values of positions in the range. *)
Lemma select_values (x1 x2 : Q) (positions : list Q) :
  forall values v,
    In v (select x1 x2 positions values) ->
    exists q pos,
      nth_error positions q = Some pos /\ in_range x1 x2 pos = true /\
      nth_error values q = Some v.
Proof.
  induction positions as [|p positions IH]; intros [|v0 values] v Hv;
    simpl in Hv; try contradiction.
  destruct (in_range x1 x2 p) eqn:E.
  - destruct Hv as [<- | Hv].
    + exists 0%nat, p. auto.
    + destruct (IH values v Hv) as (q & pos & H1 & H2 & H3).
      exists (S q), pos. auto.
  - destruct (IH values v Hv) as (q & pos & H1 & H2 & H3).
    exists (S q), pos. auto.
Qed.

(** With strictly increasing positions, the entry [k] of the selection is
    the entry [xi1 + k] of the array, and its position is in the range. *)
Lemma select_position (x1 x2 : Q) (xi1 : nat) (positions : list Q)
    (values : list float) (k : nat) (v : float) :
  StronglySorted Qlt positions ->
  List.length values = List.length positions ->
  nth_error positions xi1 = Some x1 ->
  nth_error (select x1 x2 positions values) k = Some v ->
  exists pos,
    nth_error positions (xi1 + k) = Some pos /\ in_range x1 x2 pos = true.
Proof.
  intros Hs Hlen Hx1 Hk.
  destruct (select_from x1 x2 xi1 positions values Hs Hlen Hx1) as [H1 H2].
  pose proof (H1 k v Hk) as Hv.
  assert (Hlt : (xi1 + k < List.length positions)%nat).
  { rewrite <- Hlen. apply nth_error_Some. congruence. }
  destruct (nth_error positions (xi1 + k)) as [pos|] eqn:Hpos;
    [| apply nth_error_None in Hpos; lia].
  exists pos. split; [reflexivity |].
  destruct (in_range x1 x2 pos) eqn:E; [reflexivity | exfalso].
  (* every entry of the selection comes from a position in range, and
     these positions are the ones from [xi1] on, in order *)
  assert (Hcount : forall j, (j <= k)%nat ->
            exists pj, nth_error positions (xi1 + j) = Some pj /\
                       in_range x1 x2 pj = true).
  { clear Hv E Hpos pos.
    assert (Hsel : (k < List.length (select x1 x2 positions values))%nat)
      by (apply nth_error_Some; congruence).
    clear Hk v.
    revert xi1 values Hlen Hx1 k H1 H2 Hlt Hsel.
    induction Hs as [|p positions Hs IH Hp];
      intros xi1 values Hlen Hx1 k H1 H2 Hlt Hsel j Hj.
    - simpl in Hlt. lia.
    - destruct values as [|v0 values]; [discriminate |].
      simpl in Hlen. injection Hlen as Hlen.
      destruct xi1 as [|n].
      + simpl in Hx1. injection Hx1 as ->.
        (* from the left box on: the selection is a prefix *)
        clear IH H1 H2.
        revert k Hsel Hlt j Hj.
        assert (Hge : Forall (fun pos => x1 <= pos) (x1 :: positions)).
        { constructor; [apply Qle_refl |].
          eapply Forall_impl; [| exact Hp]. intros pos. apply Qlt_le_weak. }
        assert (Hss : StronglySorted Qlt (x1 :: positions))
          by (constructor; assumption).
        assert (Hl : List.length (v0 :: values)
                     = List.length (x1 :: positions)) by (simpl; congruence).
        generalize dependent (v0 :: values).
        generalize dependent (x1 :: positions).
        clear. intros ps Hge Hss.
        induction Hss as [|p ps Hss IH Hp]; intros vs Hl k Hsel Hlt j Hj.
        * destruct vs; simpl in Hsel; lia.
        * destruct vs as [|w vs]; [discriminate |].
          simpl in Hl. injection Hl as Hl.
          apply Forall_cons_iff in Hge. destruct Hge as [Hx1p Hge].
          simpl in Hsel. destruct (in_range x1 x2 p) eqn:E.
          -- destruct j as [|j]; [exists p; auto |].
             destruct k as [|k]; [lia |].
             simpl in Hsel, Hlt.
             destruct (IH Hge vs Hl k) with (j := j) as (pj & Hpj & Hin);
               try lia.
             exists pj. auto.
          -- assert (Hp2 : x2 < p).
             { apply Qnot_le_lt. intro Hle.
               assert (in_range x1 x2 p = true)
                 by (apply in_range_spec; auto).
               congruence. }
             rewrite select_beyond in Hsel; [simpl in Hsel; lia |].
             eapply Forall_impl; [| exact Hp]. intros pos Hpos.
             simpl in Hpos. eapply Qlt_trans; eassumption.
      + simpl in Hx1.
        assert (Hpx : p < x1).
        { rewrite Forall_forall in Hp. apply Hp.
          eapply nth_error_In. exact Hx1. }
        assert (E : in_range x1 x2 p = false).
        { destruct (in_range x1 x2 p) eqn:E; [| reflexivity].
          apply in_range_spec in E. destruct E as [E _].
          exfalso. eapply Qlt_not_le; eassumption. }
        simpl in Hsel. rewrite E in Hsel.
        destruct (select_from x1 x2 n positions values Hs Hlen Hx1)
          as [H1' H2'].
        simpl in Hlt.
        destruct (IH n values Hlen Hx1 k H1' H2') with (j := j)
          as (pj & Hpj & Hin); try lia.
        exists pj. auto. }
  destruct (Hcount k (Nat.le_refl k)) as (pj & Hpj & Hin).
  congruence.
Qed.

(** X7. On an array with strictly increasing positions, where the left
    box stands at its index, the y of a new bracket is the highest top
    found at the positions between the two boxes, tops that are undefined
    left aside, plus an offset: the offset to a box when the depth at the
    position of that top is zero, the offset between annotations
    otherwise.  Of several positions with the highest top the leftmost
    decides. *)
Theorem bracket_sits_on_highest_top
    (cfg : Config) (arr : YStackArr) (x1 x2 : Q) (xi1 : nat) (y : float) :
  stack_wf arr ->
  nth_error (row0 arr) xi1 = Some x1 ->
  bracket_y cfg arr x1 x2 xi1 = Ok y ->
  exists i pos m n,
    nth_error (row0 arr) i = Some pos /\
    in_range x1 x2 pos = true /\
    nth_error (row1 arr) i = Some (Some m) /\
    nth_error (row2 arr) i = Some n /\
    y = Some (m + (if (n =? 0)%nat
                   then y_offset_to_box cfg else y_offset cfg)) /\
    (forall q pq t,
        nth_error (row0 arr) q = Some pq -> in_range x1 x2 pq = true ->
        nth_error (row1 arr) q = Some (Some t) -> t <= m) /\
    (forall q pq t,
        (q < i)%nat ->
        nth_error (row0 arr) q = Some pq -> in_range x1 x2 pq = true ->
        nth_error (row1 arr) q = Some (Some t) -> t < m).
Proof.
  intros (Hs & Hlen & _) Hx1 H. unfold bracket_y, query_stack in H.
  apply bind_Ok in H. destruct H as ([i v] & Hq & H).
  apply bind_Ok in Hq. destruct Hq as (k & Hk & Hq).
  apply bind_Ok in Hq. destruct Hq as (w & Hw & Hq).
  injection Hq as <- <-.
  apply bind_Ok in H. destruct H as (n & Hn & H). injection H as <-.
  apply getitem_Ok in Hw. apply getitem_Ok in Hn.
  destruct (nanargmax_spec _ _ Hk) as (m & Hkm & Hmax).
  destruct (nanargmax_first _ _ Hk) as (m' & Hkm' & Hfirst).
  assert (m' = m) by congruence. subst m'.
  destruct (select_from x1 x2 xi1 _ _ Hs Hlen Hx1) as [H1 H2].
  destruct (select_position x1 x2 xi1 _ _ k _ Hs Hlen Hx1 Hkm)
    as (pos & Hpos & Hin).
  pose proof (H1 k _ Hkm) as Hrow1.
  assert (w = Some m) by congruence. subst w.
  exists (xi1 + k)%nat, pos, m, n.
  split; [exact Hpos |]. split; [exact Hin |]. split; [exact Hrow1 |].
  split; [exact Hn |]. split; [reflexivity |]. split.
  - intros q pq t Hq Hinq Ht.
    destruct (H2 q pq Hq Hinq) as (k' & -> & Hk').
    eapply Hmax. rewrite Hk'. exact Ht.
  - intros q pq t Hlt Hq Hinq Ht.
    destruct (H2 q pq Hq Hinq) as (k' & -> & Hk').
    apply (Hfirst k'); [lia |]. rewrite Hk'. exact Ht.
Qed.

Lemma bracket_sits_witness :
  exists p u y m n,
    prepare Inputs.plain_env Inputs.overlapping Inputs.axes_0_6 = Ok p /\
    nth_error (prep_pairs p) 0 = Some u /\
    bracket_y (prep_cfg p) (y_stack_arr (prep_locals p))
      (x (fst u)) (x (snd u)) (xi (fst u)) = Ok y /\
    y = Some (m + (if (n =? 0)%nat
                   then y_offset_to_box (prep_cfg p)
                   else y_offset (prep_cfg p))).
Proof.
  do 3 eexists.
  assert (Hp : prepare Inputs.plain_env Inputs.overlapping Inputs.axes_0_6
               = Ok _) by (vm_compute; reflexivity).
  match type of Hp with
  | _ = Ok ?p =>
      assert (Hu : nth_error (prep_pairs p) 0 = Some _)
        by (vm_compute; reflexivity);
      match type of Hu with
      | _ = Some ?u =>
          assert (Hy : bracket_y (prep_cfg p) (y_stack_arr (prep_locals p))
                         (x (fst u)) (x (snd u)) (xi (fst u)) = Ok _)
            by (vm_compute; reflexivity);
          assert (Hwf : stack_wf (y_stack_arr (prep_locals p)))
            by (unfold stack_wf; simpl; split;
                [repeat constructor | split; reflexivity]);
          destruct (bracket_sits_on_highest_top
                      (prep_cfg p) (y_stack_arr (prep_locals p))
                      (x (fst u)) (x (snd u)) (xi (fst u)) _
                      Hwf eq_refl Hy)
            as (i & pos & m & n & _ & _ & _ & _ & Hyv & _)
      end
  end.
  exists m, n.
  split; [exact Hp |]. split; [exact Hu |]. split; [exact Hy | exact Hyv].
Defined.

(** X8. When every top between the two boxes is undefined, as between
    groups without data on which nothing has been drawn yet, no bracket
    is computed: the query ends in the [ValueError] of [np.nanargmax]. *)
Theorem bracket_over_undefined_tops
    (cfg : Config) (arr : YStackArr) (x1 x2 : Q) (xi1 : nat) :
  (forall q pos v,
      nth_error (row0 arr) q = Some pos -> in_range x1 x2 pos = true ->
      nth_error (row1 arr) q = Some v -> v = None) ->
  bracket_y cfg arr x1 x2 xi1
    = Raise (ValueError "All-NaN slice encountered").
Proof.
  intro Hall. unfold bracket_y, query_stack.
  rewrite nanargmax_all_nan; [reflexivity |].
  apply Forall_forall. intros v Hv.
  destruct (select_values _ _ _ _ _ Hv) as (q & pos & Hq & Hin & Hrow).
  eapply Hall; eassumption.
Qed.

Lemma bracket_over_undefined_witness :
  exists p u,
    prepare Inputs.plain_env Inputs.empty_groups Inputs.axes_0_6 = Ok p /\
    nth_error (prep_pairs p) 0 = Some u /\
    bracket_y (prep_cfg p) (y_stack_arr (prep_locals p))
      (x (fst u)) (x (snd u)) (xi (fst u))
      = Raise (ValueError "All-NaN slice encountered") /\
    add_stat_annotation Inputs.plain_env Inputs.empty_groups Inputs.axes_0_6
      = (Inputs.axes_0_6, Raise (ValueError "All-NaN slice encountered")).
Proof.
  do 2 eexists.
  match goal with
  | |- ?G /\ _ => assert (Hp : G) by (vm_compute; reflexivity)
  end.
  split; [exact Hp |].
  match goal with
  | |- ?G /\ _ => assert (Hu : G) by (vm_compute; reflexivity)
  end.
  split; [exact Hu |].
  split; [| vm_compute; reflexivity].
  apply bracket_over_undefined_tops.
  intros [|[|q]] pos v Hq Hin Hv; simpl in Hq, Hv.
  - injection Hv as <-. reflexivity.
  - injection Hv as <-. reflexivity.
  - destruct q; discriminate.
Defined.

(** ** statannot.py: the positions of the boxes *)

Lemma index_Ok {A : Type} (is_a : A -> bool) (l : list A) :
  forall i, index is_a l = Ok i ->
            exists v, nth_error l i = Some v /\ is_a v = true.
Proof.
  induction l as [|b l IH]; simpl; intros i H; [discriminate |].
  destruct (is_a b) eqn:E.
  - injection H as <-. exists b. auto.
  - apply bind_Ok in H. destruct H as (j & Hj & H). injection H as <-.
    destruct (IH j Hj) as (v & Hv & Hav). exists v. auto.
Qed.

(** Without hue, a box stands at the index of its group. *)
Lemma find_x_position_no_hue (b_plotter : Plotter) (name : BoxName)
    (pos : Q) :
  plot_hues b_plotter = None ->
  find_x_position_box b_plotter name = Ok pos ->
  exists i g,
    nth_error (group_names b_plotter) i = Some g /\
    name = Cat g /\
    pos = inject_Z (Z.of_nat i) + 0.
Proof.
  intros Hhue H. unfold find_x_position_box in H. rewrite Hhue in H.
  cbn [bind] in H.
  apply bind_Ok in H. destruct H as (i & Hi & H). injection H as <-.
  apply index_Ok in Hi. destruct Hi as (g & Hg & E).
  apply BoxName_eqb_eq in E. exists i, g. auto.
Qed.

Lemma inject_nat_eq (i j : nat) :
  inject_Z (Z.of_nat i) + 0 == inject_Z (Z.of_nat j) + 0 -> i = j.
Proof.
  intro H. rewrite !Qplus_0_r in H.
  unfold Qeq in H. simpl in H. lia.
Qed.

Lemma Forall2_In_r {A B : Type} (R : A -> B -> Prop) (l1 : list A)
    (l2 : list B) (b : B) :
  Forall2 R l1 l2 -> In b l2 -> exists v, In v l1 /\ R v b.
Proof.
  induction 1 as [|u v l1 l2 Huv _ IH]; simpl; [contradiction |].
  intros [<- | Hb]; [exists u; auto |].
  destruct (IH Hb) as (w & Hw & HR). exists w. auto.
Qed.

Lemma Forall2_In_l {A B : Type} (R : A -> B -> Prop) (l1 : list A)
    (l2 : list B) (v : A) :
  Forall2 R l1 l2 -> In v l1 -> exists b, In b l2 /\ R v b.
Proof.
  induction 1 as [|u w l1 l2 Huw _ IH]; simpl; [contradiction |].
  intros [<- | Hv]; [exists w; auto |].
  destruct (IH Hv) as (b & Hb & HR). exists b. auto.
Qed.

(** Each box of the list was made from one of the box names of the
    plotter. *)
Lemma build_box_structs_made (b_plotter : Plotter)
    (box_structs : list IndexedBox) (s : IndexedBox) :
  build_box_structs b_plotter = Ok box_structs ->
  In s box_structs ->
  In (box s) (box_names_of b_plotter) /\
  make_box_struct b_plotter (box s) = Ok (box_struct s).
Proof.
  unfold build_box_structs. intros H Hs.
  apply bind_Ok in H. destruct H as (l & Hl & H). injection H as <-.
  apply in_map_iff in Hs. destruct Hs as ([i b] & <- & Hib). simpl.
  assert (Hb : In b l).
  { apply (in_map snd) in Hib. unfold enumerate in Hib.
    rewrite enumerate_from_snd in Hib. simpl in Hib.
    unfold sorted in Hib. apply stable_sort_in in Hib. exact Hib. }
  apply mapM_Ok in Hl.
  destruct (Forall2_In_r _ _ _ b Hl Hb) as (name & Hname & Hmade).
  rewrite (make_box_struct_box _ _ _ Hmade). auto.
Qed.

(** X9. In a plot without hue whose group names are all different, each
    box stands at the index of its group in [group_names], so that no
    two boxes share a position. *)
Theorem positions_without_hue
    (b_plotter : Plotter) (box_structs : list IndexedBox) :
  plot_hues b_plotter = None ->
  NoDup (group_names b_plotter) ->
  build_box_structs b_plotter = Ok box_structs ->
  distinct_positions box_structs /\
  forall s, In s box_structs ->
            exists i g,
              nth_error (group_names b_plotter) i = Some g /\
              box s = Cat g /\
              x s = inject_Z (Z.of_nat i) + 0.
Proof.
  intros Hhue Hnodup Hbuild.
  assert (Hpos : forall s, In s box_structs ->
            exists i g,
              nth_error (group_names b_plotter) i = Some g /\
              box s = Cat g /\
              x s = inject_Z (Z.of_nat i) + 0).
  { intros s Hs.
    destruct (build_box_structs_made _ _ _ Hbuild Hs) as [_ Hmade].
    unfold make_box_struct in Hmade.
    apply bind_Ok in Hmade. destruct Hmade as (pos & Hfind & Hmade).
    apply bind_Ok in Hmade. destruct Hmade as (data & _ & Hmade).
    injection Hmade as Hmade.
    destruct (find_x_position_no_hue _ _ _ Hhue Hfind) as (i & g & Hg & Hn & Hp).
    exists i, g. rewrite <- Hmade. simpl. rewrite <- Hmade in Hn. simpl in Hn.
    auto. }
  split; [| exact Hpos].
  intros i j s t Hs Ht Heq.
  destruct (Hpos s (nth_error_In _ _ Hs)) as (a & g & Hg & Hbs & Hxs).
  destruct (Hpos t (nth_error_In _ _ Ht)) as (b & g' & Hg' & Hbt & Hxt).
  rewrite Hxs, Hxt in Heq. apply inject_nat_eq in Heq. subst b.
  assert (Hbox : box s = box t) by congruence.
  assert (Hnd : NoDup (map (fun s : IndexedBox => box s) box_structs)).
  { eapply Permutation_NoDup;
      [apply Permutation_sym, build_box_structs_names, Hbuild |].
    unfold box_names_of. rewrite Hhue.
    clear - Hnodup.
    induction Hnodup as [|g names Hg _ IH]; simpl; constructor;
      [| exact IH].
    intro Hin. apply in_map_iff in Hin. destruct Hin as (g' & Heq & Hg').
    injection Heq as ->. contradiction. }
  rewrite NoDup_nth_error in Hnd. apply Hnd.
  - rewrite length_map. apply nth_error_Some. congruence.
  - rewrite !nth_error_map, Hs, Ht. simpl. congruence.
Qed.

Lemma positions_without_hue_witness :
  exists box_structs,
    build_box_structs Inputs.four_groups = Ok box_structs /\
    distinct_positions box_structs.
Proof.
  eexists.
  match goal with
  | |- ?G /\ _ => assert (Hb : G) by (vm_compute; reflexivity)
  end.
  split; [exact Hb |].
  assert (Hnd : NoDup (group_names Inputs.four_groups))
    by (repeat constructor; simpl; intuition discriminate).
  destruct (positions_without_hue Inputs.four_groups _ eq_refl Hnd Hb)
    as [Hd _].
  exact Hd.
Defined.

(** X10. A plot without hue that has a group named by the empty string
    cannot be annotated: the expression that picks the category reads
    the first character of the empty name, and the call ends in an
    exception before anything is drawn. *)
Theorem empty_group_name_fails
    (env : Collaborators) (a : Args) (ax : Axes) :
  plot_hues (box_plotter a) = None ->
  In EmptyString (group_names (box_plotter a)) ->
  get_box_data (box_plotter a) (Cat EmptyString)
    = Raise (IndexError "string index out of range") /\
  exists e, add_stat_annotation env a ax = (ax, Raise e).
Proof.
  intros Hhue Hin.
  assert (Hdata : get_box_data (box_plotter a) (Cat EmptyString)
                  = Raise (IndexError "string index out of range")).
  { unfold get_box_data. rewrite Hhue. reflexivity. }
  split; [exact Hdata |].
  destruct (prepare env a ax) as [p|e] eqn:Hp;
    [exfalso | exists e; apply prepare_Raise, Hp].
  apply prepare_Ok in Hp. destruct Hp as (s & _ & _ & Hs & _).
  apply setup_box_structs in Hs. unfold build_box_structs in Hs.
  apply bind_Ok in Hs. destruct Hs as (l & Hl & _).
  apply mapM_Ok in Hl.
  assert (Hname : In (Cat EmptyString) (box_names_of (box_plotter a))).
  { unfold box_names_of. rewrite Hhue. apply in_map. exact Hin. }
  destruct (Forall2_In_l _ _ _ _ Hl Hname) as (b & _ & Hmade).
  unfold make_box_struct in Hmade.
  apply bind_Ok in Hmade. destruct Hmade as (pos & _ & Hmade).
  apply bind_Ok in Hmade. destruct Hmade as (data & Hget & _).
  congruence.
Qed.

Lemma empty_group_name_witness :
  add_stat_annotation Inputs.plain_env Inputs.with_unnamed_group
    Inputs.axes_0_6
  = (Inputs.axes_0_6, Raise (IndexError "string index out of range")).
Proof.
  destruct (empty_group_name_fails Inputs.plain_env Inputs.with_unnamed_group
              Inputs.axes_0_6 eq_refl) as [_ (e & He)].
  - simpl. right. left. reflexivity.
  - vm_compute. reflexivity.
Defined.

(** ** statannot.py: a request without pairs *)

(** X11. A call without pairs goes through every check and then fails on
    [max(ymaxs)]: once the arguments are validated and the geometry is
    resolved, it ends in the [ValueError] of an empty [max], with the
    plot surface as it was. *)
Theorem no_pairs_fails
    (env : Collaborators) (a : Args) (ax : Axes) (s : Setup) :
  box_pairs a = [] ->
  setup env a ax = Ok s ->
  add_stat_annotation env a ax
    = (ax, Raise (ValueError "max() arg is an empty sequence")).
Proof.
  intros Hpairs Hs.
  unfold add_stat_annotation, run, prepare. rewrite Hs. cbn [bind].
  rewrite Hpairs.
  cbn [build_box_struct_pairs enumerate enumerate_from mapM bind sort_pairs
       sorted stable_sort prep_pairs prep_cfg prep_locals combine
       annotate_loop ymaxs py_max].
  reflexivity.
Qed.

Lemma no_pairs_witness :
  add_stat_annotation Inputs.plain_env Inputs.no_pairs Inputs.axes_0_6
    = (Inputs.axes_0_6, Raise (ValueError "max() arg is an empty sequence")).
Proof.
  eapply (no_pairs_fails Inputs.plain_env Inputs.no_pairs Inputs.axes_0_6).
  - reflexivity.
  - vm_compute. reflexivity.
Defined.

(** ** statannot.py: what happens to the plot surface *)

Section SurfaceFacts.
Variable env : Collaborators.
Variable a : Args.
Variable cfg : Config.

Lemma draw_text_surface (ax : Axes) (s : string) (x1 x2 : Q) (y : float)
    (h : Q) :
  exists ann,
    fst (draw_text env a ax s x1 x2 y h) = ax_annotate ax ann /\
    is_line ann = false.
Proof.
  unfold draw_text.
  exists (Annotation s ((x1 + x2) / 2, fadd y (Some h))
            (0, text_offset a) (fontsize_arg a)).
  split; [| reflexivity].
  destruct (use_fixed_offset a); [reflexivity |].
  destruct (isnan _); reflexivity.
Qed.

(** An iteration, however it ends, adds to the artists; when it ends
    normally it has added one bracket, at most one text, and one entry to
    [y_stack]. *)
Lemma annotate_pair_surface (lc : Locals) (ax : Axes)
    (pr : (PairBox * PairBox) * StatResult) :
  exists drawn,
    artists (fst (annotate_pair env a cfg lc ax pr))
      = (artists ax ++ drawn)%list /\
    forall lc', snd (annotate_pair env a cfg lc ax pr) = Ok lc' ->
                List.length (filter is_line drawn) = 1%nat /\
                (List.length drawn <= 2)%nat /\
                List.length (y_stack lc') = S (List.length (y_stack lc)).
Proof.
  destruct pr as [u r]. unfold annotate_pair.
  destruct (choose_text _ _ _ _ _ _) as [[text name]|e].
  2:{ exists []. simpl. rewrite app_nil_r.
      split; [reflexivity | discriminate]. }
  destruct (bracket_y _ _ _ _ _) as [y|e].
  2:{ exists []. simpl. rewrite app_nil_r.
      split; [reflexivity | discriminate]. }
  destruct text as [t|].
  2:{ eexists. simpl. split; [reflexivity | discriminate]. }
  destruct t as [s|].
  - match goal with
    | |- context [draw_text env a ?ax1 s ?x1 ?x2 y ?h] =>
        destruct (draw_text_surface ax1 s x1 x2 y h) as (ann & Hann & Hline);
        destruct (draw_text env a ax1 s x1 x2 y h) as [ax2 y_top]
    end.
    simpl in Hann. subst ax2.
    destruct (py_max _) as [m|e].
    + eexists. simpl. rewrite <- app_assoc. split; [reflexivity |].
      intros lc' H. injection H as <-. simpl.
      rewrite Hline. simpl. rewrite length_app. simpl.
      split; [reflexivity |]. split; lia.
    + eexists. simpl. rewrite <- app_assoc.
      split; [reflexivity | discriminate].
  - destruct (py_max _) as [m|e].
    + eexists. simpl. split; [reflexivity |].
      intros lc' H. injection H as <-. simpl.
      rewrite length_app. simpl. split; [reflexivity |]. split; lia.
    + eexists. simpl. split; [reflexivity | discriminate].
Qed.

Lemma annotate_loop_surface (l : list ((PairBox * PairBox) * StatResult)) :
  forall lc ax,
  exists drawn,
    artists (fst (annotate_loop env a cfg l lc ax))
      = (artists ax ++ drawn)%list /\
    forall lc', snd (annotate_loop env a cfg l lc ax) = Ok lc' ->
                List.length (filter is_line drawn) = List.length l /\
                (List.length drawn <= 2 * List.length l)%nat /\
                List.length (y_stack lc')
                  = (List.length (y_stack lc) + List.length l)%nat.
Proof.
  induction l as [|pr l IH]; intros lc ax; cbn [annotate_loop].
  - exists []. simpl. rewrite app_nil_r.
    split; [reflexivity |].
    intros lc' H. injection H as <-. simpl. repeat split; lia.
  - destruct (annotate_pair_surface lc ax pr) as (d1 & Hart & Hok).
    destruct (annotate_pair env a cfg lc ax pr) as [ax1 [lc1|e]]; simpl in *.
    + destruct (IH lc1 ax1) as (d2 & Hart2 & Hok2).
      exists (d1 ++ d2)%list.
      rewrite Hart2, Hart, app_assoc.
      split; [reflexivity |].
      intros lc' H.
      destruct (Hok lc1 eq_refl) as (Hl1 & Hd1 & Hs1).
      destruct (Hok2 lc' H) as (Hl2 & Hd2 & Hs2).
      rewrite filter_app, !length_app. repeat split; lia.
    + exists d1. split; [exact Hart | discriminate].
Qed.

(** The limits set before the return keep the artists. *)
Lemma final_ylim_artists (ax0 ax1 ax2 : Axes) (y_stack_max : float) :
  final_ylim a ax0 ax1 y_stack_max = Ok ax2 -> artists ax2 = artists ax1.
Proof.
  unfold final_ylim, set_ylim.
  destruct (String.eqb (loc a) "inside").
  - destruct (py_max2 _ _); [| discriminate].
    intro H. injection H as <-. reflexivity.
  - destruct (String.eqb (loc a) "outside"); intro H; injection H as <-;
      reflexivity.
Qed.
End SurfaceFacts.

Lemma prepare_lengths (env : Collaborators) (a : Args) (ax : Axes)
    (p : Prepared) :
  prepare env a ax = Ok p ->
  List.length (prep_pairs p) = List.length (box_pairs a) /\
  List.length (prep_results p) = List.length (box_pairs a).
Proof.
  intro Hp.
  pose proof (prepare_results env a ax p Hp) as HF.
  destruct (pairs_sorted_and_complete env a ax p Hp) as [_ Hperm].
  apply Permutation_length in Hperm.
  rewrite length_map, length_seq in Hperm.
  split; [exact Hperm |]. rewrite (Forall2_length HF). exact Hperm.
Qed.

(** X12. A call that returns has kept every artist that was on the
    surface and has appended, for each requested pair, one bracket and
    at most one text; [y_stack] holds one top per pair. *)
Theorem one_bracket_per_pair
    (env : Collaborators) (a : Args) (ax ax' : Axes) (p : Prepared)
    (lc : Locals) :
  run env a ax = (ax', Ok (p, lc)) ->
  exists drawn,
    artists ax' = (artists ax ++ drawn)%list /\
    List.length (filter is_line drawn) = List.length (box_pairs a) /\
    (List.length drawn <= 2 * List.length (box_pairs a))%nat /\
    List.length (y_stack lc) = List.length (box_pairs a).
Proof.
  intro Hrun. apply run_Ok in Hrun.
  destruct Hrun as (ax1 & ysm & Hp & Hloop & _ & Hfinal).
  destruct (annotate_loop_surface env a (prep_cfg p)
              (combine (prep_pairs p) (prep_results p)) (prep_locals p) ax)
    as (drawn & Hart & Hok).
  rewrite Hloop in Hart, Hok. simpl in Hart, Hok.
  destruct (Hok lc eq_refl) as (Hlines & Hlen & Hstack).
  destruct (prepare_lengths env a ax p Hp) as [Hn1 Hn2].
  rewrite length_combine, Hn1, Hn2, Nat.min_id in Hlines, Hlen, Hstack.
  assert (Hsame : artists ax' = artists ax1).
  { unfold final_ylim, set_ylim in Hfinal.
    destruct (String.eqb (loc a) "inside").
    - destruct (py_max2 _ _); [| discriminate].
      injection Hfinal as <-. reflexivity.
    - destruct (String.eqb (loc a) "outside"); injection Hfinal as <-;
        reflexivity. }
  exists drawn. rewrite Hsame.
  split; [exact Hart |]. split; [exact Hlines |]. split; [exact Hlen |].
  apply prepare_Ok in Hp.
  destruct Hp as (s & resolved & results & _ & _ & _ & ->).
  simpl in Hstack. exact Hstack.
Qed.

Lemma one_bracket_witness :
  exists ax' p lc drawn,
    run Inputs.plain_env Inputs.overlapping Inputs.axes_0_6
      = (ax', Ok (p, lc)) /\
    artists ax' = drawn /\
    List.length (filter is_line drawn) = 2%nat.
Proof.
  do 4 eexists.
  match goal with
  | |- ?G /\ _ => assert (Hrun : G) by (vm_compute; reflexivity)
  end.
  split; [exact Hrun |]. split; [reflexivity |].
  destruct (one_bracket_per_pair _ _ _ _ _ _ Hrun)
    as (drawn & Hart & Hlines & _).
  simpl in Hart. rewrite Hart. exact Hlines.
Defined.

(** ** statannot.py: the offsets *)

(** X14. With [loc = 'outside'] and a [line_offset] given, the argument
    [line_offset_to_box] plays no part: the call does the same whatever
    value it is given. *)
Theorem outside_ignores_offset_to_box
    (env : Collaborators) (a : Args) (ax : Axes) (lo : Q) (v : option Q) :
  loc a = "outside" ->
  line_offset a = Some lo ->
  add_stat_annotation env (with_line_offset_to_box a v) ax
    = add_stat_annotation env a ax.
Proof.
  intros Hloc Hlo. destruct a. cbn [loc line_offset] in Hloc, Hlo. subst.
  unfold with_line_offset_to_box.
  cbn [box_plotter box_pairs perform_stat_test pvalues arg_test_short_name
       test text_format pvalue_format_string text_annot_custom loc
       show_test_name pvalue_thresholds stats_params comparisons_correction
       num_comparisons use_fixed_offset line_offset_to_box line_offset
       line_height text_offset color linewidth fontsize_arg verbose].
  reflexivity.
Qed.

Lemma outside_ignores_witness :
  add_stat_annotation Inputs.plain_env
    (with_line_offset_to_box Inputs.outside_with_offsets None)
    Inputs.axes_3_13
  = add_stat_annotation Inputs.plain_env Inputs.outside_with_offsets
      Inputs.axes_3_13.
Proof.
  apply (outside_ignores_offset_to_box Inputs.plain_env
           Inputs.outside_with_offsets Inputs.axes_3_13 0.04 None);
    reflexivity.
Defined.

(** ** statannot.py: what a call that returns was given *)

Lemma assert_is_in_Ok {A : Type} (eqb : A -> A -> bool) (v : A)
    (valid_values : list A) (label_arg : string) (u : unit) :
  assert_is_in eqb v valid_values label_arg = Ok u ->
  existsb (eqb v) valid_values = true.
Proof.
  unfold assert_is_in. destruct (existsb (eqb v) valid_values);
    [reflexivity | discriminate].
Qed.

Lemma validate_arguments_Ok (implemented : list string) (a : Args)
    (u : unit) :
  validate_arguments implemented a = Ok u ->
  (if perform_stat_test a
   then (exists t, test a = Some t /\ In t implemented) /\
        pvalues a = None /\ arg_test_short_name a = None
   else (exists ps, pvalues a = Some ps /\
                    List.length ps = List.length (box_pairs a)) /\
        test a = None) /\
  (forall l, text_annot_custom a = Some l ->
             List.length l = List.length (box_pairs a)) /\
  (loc a = "inside" \/ loc a = "outside") /\
  (text_format a = Some "full" \/ text_format a = Some "simple" \/
   text_format a = Some "star").
Proof.
  unfold validate_arguments. intro H.
  apply bind_Ok in H. destruct H as ([] & Hmode & H).
  apply bind_Ok in H. destruct H as ([] & Hcustom & H).
  apply bind_Ok in H. destruct H as ([] & Hloc & Hformat).
  split; [| split; [| split]].
  - destruct (perform_stat_test a).
    + destruct (test a) as [t|]; [| discriminate].
      destruct (pvalues a), (arg_test_short_name a); try discriminate.
      simpl in Hmode.
      destruct (existsb (String.eqb t) implemented) eqn:E; [| discriminate].
      apply existsb_exists in E. destruct E as (t' & Ht' & E).
      apply String.eqb_eq in E. subst t'.
      split; [exists t; auto | auto].
    + destruct (pvalues a) as [ps|]; [| discriminate].
      destruct (test a); [discriminate |]. simpl in Hmode.
      destruct (List.length ps =? List.length (box_pairs a))%nat eqn:E;
        [| discriminate].
      apply Nat.eqb_eq in E. split; [exists ps; auto | reflexivity].
  - intros l Hl. rewrite Hl in Hcustom.
    destruct (List.length l =? List.length (box_pairs a))%nat eqn:E;
      [| discriminate].
    apply Nat.eqb_eq in E. exact E.
  - apply assert_is_in_Ok in Hloc. simpl in Hloc.
    rewrite orb_false_r in Hloc. apply orb_true_iff in Hloc.
    destruct Hloc as [E | E]; apply String.eqb_eq in E; auto.
  - apply assert_is_in_Ok in Hformat. simpl in Hformat.
    rewrite orb_false_r in Hformat.
    destruct (text_format a) as [f|]; [| discriminate]. simpl in Hformat.
    apply orb_true_iff in Hformat. destruct Hformat as [E | Hformat].
    + apply String.eqb_eq in E. subst. auto.
    + apply orb_true_iff in Hformat. destruct Hformat as [E | E];
        apply String.eqb_eq in E; subst; auto.
Qed.

Lemma setup_validated (env : Collaborators) (a : Args) (ax : Axes)
    (s : Setup) :
  setup env a ax = Ok s ->
  exists u, validate_arguments (IMPLEMENTED_TESTS env) a = Ok u.
Proof.
  unfold setup. intro H. apply bind_Ok in H. destruct H as (u & Hu & _).
  exists u. exact Hu.
Qed.

(** X13. However the call ends, the surface it leaves holds the artists
    it found, in place, followed by what the call drew.  When the call
    returns, the lower y-limit is the one read at entry and the upper one
    is not below the one read at entry, whatever the limits became while
    the brackets were drawn. *)
Theorem surface_only_grows
    (env : Collaborators) (a : Args) (ax : Axes) :
  (exists drawn,
      artists (fst (add_stat_annotation env a ax))
        = (artists ax ++ drawn)%list) /\
  (forall rs,
      snd (add_stat_annotation env a ax) = Ok rs ->
      fst (ylim (fst (add_stat_annotation env a ax))) = fst (ylim ax) /\
      snd (ylim ax) <= snd (ylim (fst (add_stat_annotation env a ax)))).
Proof.
  split.
  - unfold add_stat_annotation, run.
    destruct (prepare env a ax) as [p|e].
    2:{ exists []. simpl. rewrite app_nil_r. reflexivity. }
    destruct (annotate_loop_surface env a (prep_cfg p)
                (combine (prep_pairs p) (prep_results p)) (prep_locals p) ax)
      as (drawn & Hart & _).
    exists drawn.
    destruct (annotate_loop _ _ _ _ _ _) as [ax1 [lc|e]]; simpl in Hart;
      [| exact Hart].
    destruct (py_max (ymaxs lc)) as [ysm|e]; cbn [bind]; [| exact Hart].
    destruct (final_ylim a ax ax1 ysm) as [ax2|e] eqn:Hfinal; [| exact Hart].
    simpl. rewrite (final_ylim_artists a _ _ _ _ Hfinal). exact Hart.
  - intros rs Hrs.
    destruct (add_stat_annotation env a ax) as [ax' res] eqn:Hcall.
    simpl in Hrs. subst res. simpl.
    apply add_stat_annotation_Ok in Hcall.
    destruct Hcall as (p & lc & Hrun & _).
    apply run_Ok in Hrun.
    destruct Hrun as (ax1 & ysm & Hp & _ & _ & Hfinal).
    apply prepare_Ok in Hp.
    destruct Hp as (s & _ & _ & Hs & _).
    apply setup_validated in Hs. destruct Hs as (u & Hu).
    apply validate_arguments_Ok in Hu.
    destruct Hu as (_ & _ & Hloc & _).
    unfold final_ylim, set_ylim in Hfinal.
    destruct Hloc as [Hloc | Hloc]; rewrite Hloc in Hfinal; simpl in Hfinal.
    + destruct ysm as [m|]; simpl in Hfinal.
      * unfold py_max2 in Hfinal. simpl in Hfinal.
        destruct (Qltb (1.03 * m) (snd (ylim ax))) eqn:E;
          injection Hfinal as <-; simpl.
        -- split; [reflexivity | apply Qle_refl].
        -- apply Qltb_ge in E. split; [reflexivity | exact E].
      * discriminate Hfinal.
    + injection Hfinal as <-. simpl. split; [reflexivity | apply Qle_refl].
Qed.

(** X15. A call that returns was given consistent arguments: a test that
    is implemented and no custom p-values or test name, or else one
    custom p-value per pair and no test; one custom text per pair when
    custom texts are given; 'inside' or 'outside' as location; 'full',
    'simple' or 'star' as text format; at least one pair; and in every
    pair two boxes of the plot. *)
Theorem returned_call_was_valid
    (env : Collaborators) (a : Args) (ax ax' : Axes)
    (rs : list StatResult) :
  add_stat_annotation env a ax = (ax', Ok rs) ->
  (if perform_stat_test a
   then (exists t, test a = Some t /\ In t (IMPLEMENTED_TESTS env)) /\
        pvalues a = None /\ arg_test_short_name a = None
   else (exists ps, pvalues a = Some ps /\
                    List.length ps = List.length (box_pairs a)) /\
        test a = None) /\
  (forall l, text_annot_custom a = Some l ->
             List.length l = List.length (box_pairs a)) /\
  (loc a = "inside" \/ loc a = "outside") /\
  (text_format a = Some "full" \/ text_format a = Some "simple" \/
   text_format a = Some "star") /\
  box_pairs a <> [] /\
  (forall b1 b2, In (b1, b2) (box_pairs a) ->
                 In b1 (box_names_of (box_plotter a)) /\
                 In b2 (box_names_of (box_plotter a))).
Proof.
  intro H. apply add_stat_annotation_Ok in H.
  destruct H as (p & lc & Hrun & _).
  pose proof (run_maxima_track_tops env a ax ax' p lc Hrun) as Htrack.
  apply run_Ok in Hrun.
  destruct Hrun as (ax1 & ysm & Hp & Hloop & Hmax & _).
  pose proof (prepare_lengths env a ax p Hp) as [Hn1 Hn2].
  pose proof Hp as Hp'. apply prepare_Ok in Hp'.
  destruct Hp' as (s & resolved & results & Hs & Hr & _ & Hpeq).
  destruct (setup_validated env a ax s Hs) as (u & Hu).
  destruct (validate_arguments_Ok _ _ _ Hu) as (Hmode & Hcustom & Hloc & Hfmt).
  split; [exact Hmode |]. split; [exact Hcustom |].
  split; [exact Hloc |]. split; [exact Hfmt |]. split.
  - intro Hnil.
    destruct (annotate_loop_surface env a (prep_cfg p)
                (combine (prep_pairs p) (prep_results p)) (prep_locals p) ax)
      as (drawn & _ & Hok).
    rewrite Hloop in Hok. destruct (Hok lc eq_refl) as (_ & _ & Hstack).
    rewrite length_combine, Hn1, Hn2, Hnil in Hstack.
    rewrite Hpeq in Hstack. simpl in Hstack.
    unfold maxima_track_tops in Htrack.
    destruct (y_stack lc); [| discriminate].
    destruct (ymaxs lc); [discriminate | contradiction].
  - intros b1 b2 Hin.
    unfold build_box_struct_pairs in Hr. apply mapM_Ok in Hr.
    destruct (enumerate_In _ _ 0%nat Hin) as (i & Hi).
    destruct (Forall2_In_l _ _ _ _ Hr Hi) as (w & _ & Hw).
    apply resolve_pair_Ok in Hw.
    destruct Hw as (_ & _ & _ & _ & _ & H1 & H2).
    split; apply is_in_In; assumption.
Qed.

Lemma returned_call_witness :
  exists ax' rs,
    add_stat_annotation Inputs.plain_env Inputs.overlapping Inputs.axes_0_6
      = (ax', Ok rs) /\
    box_pairs Inputs.overlapping <> [].
Proof.
  do 2 eexists.
  match goal with
  | |- ?G /\ _ => assert (H : G) by (vm_compute; reflexivity)
  end.
  split; [exact H |].
  destruct (returned_call_was_valid _ _ _ _ _ H)
    as (_ & _ & _ & _ & Hne & _).
  exact Hne.
Defined.

(** ** statannot.py: the maximum of a box *)

Lemma Qmax_cases (u v : Q) : Qmax u v = u \/ Qmax u v = v.
Proof.
  unfold Qmax, GenericMinMax.gmax. destruct (u ?= v); auto.
Qed.

Lemma fold_Qmax_spec (vs : list Q) :
  forall v,
    In (fold_left Qmax vs v) (v :: vs) /\
    v <= fold_left Qmax vs v /\
    forall w, In w vs -> w <= fold_left Qmax vs v.
Proof.
  induction vs as [|u vs IH]; simpl; intro v.
  - split; [left; reflexivity |]. split; [apply Qle_refl | tauto].
  - destruct (IH (Qmax v u)) as (Hin & Hle & Hall).
    split; [| split].
    + destruct Hin as [Hin | Hin]; [| right; right; exact Hin].
      destruct (Qmax_cases v u) as [E | E]; [left | right; left];
        rewrite <- Hin; symmetry; exact E.
    + eapply Qle_trans; [apply Q.le_max_l | exact Hle].
    + intros w [<- | Hw]; [| apply Hall, Hw].
      eapply Qle_trans; [apply Q.le_max_r | exact Hle].
Qed.

(** X16. The maximum recorded for a box is undefined exactly when the
    box has no value left once the missing ones are removed; otherwise
    it is one of the values of the box and none of them is greater. *)
Theorem box_maximum
    (b_plotter : Plotter) (name : BoxName) (s : BoxStruct) :
  make_box_struct b_plotter name = Ok s ->
  get_box_data b_plotter name = Ok (box_data s) /\
  (ymax s = None <-> box_data s = []) /\
  (forall m, ymax s = Some m ->
             In m (box_data s) /\ forall v, In v (box_data s) -> v <= m).
Proof.
  unfold make_box_struct. intro H.
  apply bind_Ok in H. destruct H as (pos & _ & H).
  apply bind_Ok in H. destruct H as (data & Hdata & H).
  injection H as <-. simpl.
  split; [exact Hdata |].
  destruct data as [|v vs]; simpl.
  - split; [tauto | discriminate].
  - split; [split; discriminate |].
    intros m Hm. injection Hm as <-.
    destruct (fold_Qmax_spec vs v) as (Hin & Hle & Hall).
    split; [exact Hin |].
    intros w [<- | Hw]; [exact Hle | apply Hall, Hw].
Qed.

Lemma box_maximum_witness :
  exists s,
    make_box_struct Inputs.two_groups (Cat "B") = Ok s /\
    ymax s = Some 12 /\ In 12 (box_data s).
Proof.
  eexists.
  match goal with
  | |- ?G /\ _ => assert (H : G) by (vm_compute; reflexivity)
  end.
  split; [exact H |]. split; [reflexivity |].
  destruct (box_maximum _ _ _ H) as (_ & _ & Hmax).
  destruct (Hmax 12 eq_refl) as [Hin _]. exact Hin.
Defined.

(** ** statannot.py: the name of the test in the simple text *)

Section SimpleName.
Variable env : Collaborators.
Variable a : Args.
Variable cfg : Config.
Hypothesis no_custom_text : text_annot_custom a = None.
Hypothesis simple_format : text_format a = Some "simple".
Hypothesis given_as_literal : text_format_interned a = true.

Lemma choose_text_simple (lc : Locals) (i : nat) (r : StatResult) :
  test_short_name_var lc = None \/
  test_short_name_var lc = Some EmptyString ->
  choose_text env a cfg lc i r
  = Ok (Some (Some (simple_text (significance_suffix env) (format_float env)
                      r (cfg_simple_format cfg) (cfg_thresholds cfg) None)),
        Some EmptyString).
Proof.
  intro Hname. unfold choose_text, text_format_is.
  rewrite no_custom_text, simple_format, given_as_literal. simpl.
  destruct (show_test_name a); [| reflexivity].
  destruct Hname as [-> | ->]; reflexivity.
Qed.

Lemma annotate_pair_keeps_no_name (lc lc' : Locals) (ax ax' : Axes)
    (u : PairBox * PairBox) (r : StatResult) :
  test_short_name_var lc = None \/
  test_short_name_var lc = Some EmptyString ->
  annotate_pair env a cfg lc ax (u, r) = (ax', Ok lc') ->
  test_short_name_var lc' = None \/
  test_short_name_var lc' = Some EmptyString.
Proof.
  intros Hname Hstep. apply annotate_pair_Ok in Hstep.
  destruct Hstep as (t & name & y & y_top & m & Htext & _ & _ & _ & ->).
  rewrite (choose_text_simple lc _ r Hname) in Htext.
  injection Htext as _ <-. right. reflexivity.
Qed.
End SimpleName.

(** X17. When the call runs the test itself and the text format is the
    literal 'simple' (the object the test [is 'simple'] of l.333
    recognises), the text of every annotation is the p-value part followed
    by the suffix, without the name of the test, also with
    [show_test_name] set: the name shown is the argument
    [test_short_name], which has to be [None] in that mode. *)
Theorem simple_text_omits_test_name
    (env : Collaborators) (a : Args) (ax : Axes) (p : Prepared)
    (processed : list ((PairBox * PairBox) * StatResult))
    (ax1 : Axes) (lc1 : Locals) (i : nat) (r : StatResult) :
  perform_stat_test a = true ->
  text_annot_custom a = None ->
  text_format a = Some "simple" ->
  text_format_interned a = true ->
  prepare env a ax = Ok p ->
  annotate_loop env a (prep_cfg p) processed (prep_locals p) ax
    = (ax1, Ok lc1) ->
  choose_text env a (prep_cfg p) lc1 i r
  = Ok (Some (Some (simple_text (significance_suffix env) (format_float env)
                      r (cfg_simple_format (prep_cfg p))
                      (cfg_thresholds (prep_cfg p)) None)),
        Some EmptyString).
Proof.
  intros Hmode Hcustom Hformat Hliteral Hp Hloop.
  apply choose_text_simple; [exact Hcustom | exact Hformat | exact Hliteral |].
  eapply (annotate_loop_invariant env a (prep_cfg p)
            (fun lc => test_short_name_var lc = None \/
                       test_short_name_var lc = Some EmptyString));
    [| | exact Hloop].
  - intros lc ax0 u r0 ax' lc' Hinv Hstep.
    eapply annotate_pair_keeps_no_name; eassumption.
  - apply prepare_Ok in Hp.
    destruct Hp as (s & resolved & results & Hs & _ & _ & ->).
    destruct (setup_validated env a ax s Hs) as (u & Hu).
    destruct (validate_arguments_Ok _ _ _ Hu) as (Hvalid & _).
    rewrite Hmode in Hvalid. destruct Hvalid as (_ & _ & Hname).
    simpl. unfold test_short_name_after. rewrite Hmode. left. exact Hname.
Qed.

Lemma simple_text_omits_witness :
  exists ax' rs text,
    add_stat_annotation Inputs.testing_env Inputs.tested_simple
      Inputs.axes_3_13 = (ax', Ok rs) /\
    nth_error (artists ax') 1
      = Some (Annotation text (1 # 2, Some 12.8000) (0, 1) "medium") /\
    text = "p = {:.2f}" /\
    exists p,
      prepare Inputs.testing_env Inputs.tested_simple Inputs.axes_3_13
        = Ok p /\
      forall r,
        choose_text Inputs.testing_env Inputs.tested_simple (prep_cfg p)
          (prep_locals p) 0 r
        = Ok (Some (Some (simple_text Inputs.no_suffix Inputs.format_as_is r
                            (cfg_simple_format (prep_cfg p))
                            (cfg_thresholds (prep_cfg p)) None)),
              Some EmptyString).
Proof.
  do 3 eexists.
  split; [vm_compute; reflexivity |].
  split; [vm_compute; reflexivity |].
  split; [reflexivity |].
  eexists.
  match goal with
  | |- ?G /\ _ => assert (Hp : G) by (vm_compute; reflexivity)
  end.
  split; [exact Hp |].
  intro r.
  exact (simple_text_omits_test_name Inputs.testing_env
           Inputs.tested_simple Inputs.axes_3_13 _ [] Inputs.axes_3_13
           _ 0 r eq_refl eq_refl eq_refl eq_refl Hp eq_refl).
Defined.

(** ** statannot.py: a format that only spells 'star' or 'simple' *)

(** X18. A text format that is equal to 'star' or to 'simple' without
    being the literal passes the validation and the preparation, which
    compare with [==], and matches no branch of the loop, which compares
    with [is]: once the first bracket is placed and drawn, [text] is read
    unbound and the call ends there, the bracket left on the surface. *)
Theorem equal_string_matches_no_branch
    (env : Collaborators) (a : Args) (ax : Axes) (p : Prepared)
    (u : PairBox * PairBox) (r : StatResult)
    (rest : list ((PairBox * PairBox) * StatResult)) (y : float) :
  text_annot_custom a = None ->
  text_format a = Some "star" \/ text_format a = Some "simple" ->
  text_format_interned a = false ->
  prepare env a ax = Ok p ->
  combine (prep_pairs p) (prep_results p) = (u, r) :: rest ->
  bracket_y (prep_cfg p) (y_stack_arr (prep_locals p))
    (x (fst u)) (x (snd u)) (xi (fst u)) = Ok y ->
  add_stat_annotation env a ax
  = (ax_plot env ax [x (fst u); x (fst u); x (snd u); x (snd u)]
       [y; fadd y (Some (cfg_h (prep_cfg p)));
        fadd y (Some (cfg_h (prep_cfg p))); y]
       (linewidth a) (color a),
     Raise (UnboundLocalError
              "local variable 'text' referenced before assignment")).
Proof.
  intros Hcustom Hformat Hliteral Hp Hcombine Hy.
  assert (Htext : text_var (prep_locals p) = None).
  { pose proof Hp as Hp'. apply prepare_Ok in Hp'.
    destruct Hp' as (s & resolved & results & _ & _ & _ & ->). reflexivity. }
  unfold add_stat_annotation, run. rewrite Hp, Hcombine.
  cbn [annotate_loop].
  unfold annotate_pair, choose_text, text_format_is.
  rewrite Hcustom, Hliteral, Htext.
  destruct Hformat as [Hformat | Hformat]; rewrite Hformat; simpl;
    rewrite Hy; reflexivity.
Qed.

Lemma equal_string_witness :
  exists p u r rest y,
    prepare Inputs.plain_env Inputs.star_built_at_run_time Inputs.axes_0_6
      = Ok p /\
    combine (prep_pairs p) (prep_results p) = (u, r) :: rest /\
    bracket_y (prep_cfg p) (y_stack_arr (prep_locals p))
      (x (fst u)) (x (snd u)) (xi (fst u)) = Ok y /\
    add_stat_annotation Inputs.plain_env Inputs.star_built_at_run_time
      Inputs.axes_0_6
    = (mkAxes (0, 6)
         [Line2D [0; 0; 1; 1]
            [y; fadd y (Some (cfg_h (prep_cfg p)));
             fadd y (Some (cfg_h (prep_cfg p))); y] 1.5 "0.2"],
       Raise (UnboundLocalError
                "local variable 'text' referenced before assignment")).
Proof.
  do 5 eexists.
  match goal with
  | |- ?G /\ _ => assert (Hp : G) by (vm_compute; reflexivity)
  end.
  split; [exact Hp |].
  match goal with
  | |- ?G /\ _ => assert (Hc : G) by (vm_compute; reflexivity)
  end.
  split; [exact Hc |].
  match goal with
  | |- ?G /\ _ => assert (Hy : G) by (vm_compute; reflexivity)
  end.
  split; [exact Hy |].
  exact (equal_string_matches_no_branch Inputs.plain_env
           Inputs.star_built_at_run_time Inputs.axes_0_6 _ _ _ _ _
           eq_refl (or_introl eq_refl) eq_refl Hp Hc Hy).
Defined.

(** ** statannot.py: the tops in an int64 array *)

Lemma init_y_stack_arr_dtype (env : Collaborators) (b_plotter : Plotter)
    (box_structs : list IndexedBox) (where_ : string) (ylim1 : Q) :
  dtype (init_y_stack_arr env b_plotter box_structs where_ ylim1)
    = array_dtype b_plotter box_structs.
Proof.
  unfold init_y_stack_arr. destruct (String.eqb where_ "outside"); reflexivity.
Qed.

Lemma annotate_pair_shape (env : Collaborators) (a : Args) (cfg : Config)
    (lc lc' : Locals) (ax ax' : Axes) (u : PairBox * PairBox)
    (r : StatResult) :
  annotate_pair env a cfg lc ax (u, r) = (ax', Ok lc') ->
  dtype (y_stack_arr lc') = dtype (y_stack_arr lc) /\
  row0 (y_stack_arr lc') = row0 (y_stack_arr lc) /\
  List.length (row1 (y_stack_arr lc')) = List.length (row1 (y_stack_arr lc)).
Proof.
  intro Hstep. apply annotate_pair_Ok in Hstep.
  destruct Hstep as (t & name & y & y_top & m & _ & _ & _ & _ & ->).
  simpl. rewrite assign_range_length. auto.
Qed.

Lemma annotate_loop_shape (env : Collaborators) (a : Args) (cfg : Config)
    (l : list ((PairBox * PairBox) * StatResult)) (lc lc' : Locals)
    (ax ax' : Axes) :
  annotate_loop env a cfg l lc ax = (ax', Ok lc') ->
  dtype (y_stack_arr lc') = dtype (y_stack_arr lc) /\
  row0 (y_stack_arr lc') = row0 (y_stack_arr lc) /\
  List.length (row1 (y_stack_arr lc')) = List.length (row1 (y_stack_arr lc)).
Proof.
  intro Hloop.
  apply (annotate_loop_invariant env a cfg
           (fun lc0 =>
              dtype (y_stack_arr lc0) = dtype (y_stack_arr lc) /\
              row0 (y_stack_arr lc0) = row0 (y_stack_arr lc) /\
              List.length (row1 (y_stack_arr lc0))
                = List.length (row1 (y_stack_arr lc))))
    with (l := l) (lc := lc) (ax := ax) (ax' := ax'); [| auto | exact Hloop].
  intros lc0 ax0 u r ax1 lc1 (Hd & Hr & Hl) Hstep.
  apply annotate_pair_shape in Hstep. destruct Hstep as (Hd1 & Hr1 & Hl1).
  repeat split; congruence.
Qed.

Lemma Qtrunc_nonneg (t : Q) :
  0 <= t -> inject_Z (Qtrunc t) <= t /\ t < inject_Z (Qtrunc t) + 1.
Proof.
  intro Ht. unfold Qtrunc.
  destruct (Qle_bool 0 t) eqn:E.
  - split; [apply Qfloor_le |].
    eapply Qlt_le_trans; [apply Qlt_floor |].
    rewrite inject_Z_plus. apply Qle_refl.
  - apply Qle_bool_iff in Ht. congruence.
Qed.

(** X19. For integer data without hue, every box holding a value, the
    occupancy array is an int64 array.  With [loc = 'outside'] its tops
    start at the integer part of the upper y-limit, and what an annotation
    leaves in it over the range of its pair is the integer part of its
    top: a number that is at most the top and less than one below it when
    the top is not negative. *)
Theorem integer_array_keeps_integer_part
    (env : Collaborators) (a : Args) (ax : Axes) (p : Prepared) :
  prepare env a ax = Ok p ->
  plot_hues (box_plotter a) = None ->
  integer_data (box_plotter a) = true ->
  prep_box_structs p <> [] ->
  (forall s : IndexedBox, In s (prep_box_structs p) -> ymax s <> None) ->
  dtype (y_stack_arr (prep_locals p)) = int64 /\
  (loc a = "outside" ->
   (int64_min <= Qtrunc (snd (ylim ax)) <= int64_max)%Z ->
   Forall (fun v => v = Some (inject_Z (Qtrunc (snd (ylim ax)))))
          (row1 (y_stack_arr (prep_locals p)))) /\
  forall processed ax1 lc1 u r ax2 lc2 t q pos,
    annotate_loop env a (prep_cfg p) processed (prep_locals p) ax
      = (ax1, Ok lc1) ->
    annotate_pair env a (prep_cfg p) lc1 ax1 (u, r) = (ax2, Ok lc2) ->
    y_stack lc2 = (y_stack lc1 ++ [Some t])%list ->
    (int64_min <= Qtrunc t <= int64_max)%Z ->
    nth_error (row0 (y_stack_arr lc1)) q = Some pos ->
    covers u pos = true ->
    nth_error (row1 (y_stack_arr lc2)) q
      = Some (Some (inject_Z (Qtrunc t))) /\
    (0 <= t -> inject_Z (Qtrunc t) <= t /\ t < inject_Z (Qtrunc t) + 1).
Proof.
  intros Hp Hhue Hint Hboxes Hmax.
  pose proof Hp as Hp'. apply prepare_Ok in Hp'.
  destruct Hp' as (s & resolved & results & _ & _ & _ & Hpeq).
  assert (Hdtype : dtype (y_stack_arr (prep_locals p)) = int64).
  { rewrite Hpeq in Hboxes, Hmax |- *. simpl in Hboxes, Hmax |- *.
    rewrite init_y_stack_arr_dtype. unfold array_dtype.
    rewrite Hhue, Hint.
    destruct (su_box_structs s) as [|b bs] eqn:E; [contradiction |].
    rewrite <- E in *.
    replace (forallb (fun s0 : IndexedBox => negb (isnan (ymax s0)))
               (su_box_structs s)) with true; [reflexivity |].
    symmetry. apply forallb_forall. intros b0 Hb0.
    specialize (Hmax b0 Hb0). destruct (ymax b0); [reflexivity | congruence]. }
  assert (Hlen : List.length (row1 (y_stack_arr (prep_locals p)))
                 = List.length (row0 (y_stack_arr (prep_locals p)))).
  { rewrite Hpeq. simpl.
    destruct (init_y_stack_arr_rows env (box_plotter a) (su_box_structs s)
                (loc a) (snd (ylim ax))) as (H0 & H1 & _).
    rewrite H0, H1, length_map. reflexivity. }
  split; [exact Hdtype |]. split.
  - intros Hloc Hrange. rewrite Hpeq in Hdtype |- *. simpl in Hdtype |- *.
    rewrite init_y_stack_arr_dtype in Hdtype.
    unfold init_y_stack_arr. rewrite Hloc. simpl. rewrite Hdtype.
    apply Forall_forall. intros v Hv.
    apply in_map_iff in Hv. destruct Hv as (w & <- & _).
    unfold astype, int64_of.
    destruct Hrange as [Hlo Hhi].
    apply Z.leb_le in Hlo. apply Z.leb_le in Hhi. rewrite Hlo, Hhi.
    reflexivity.
  - intros processed ax1 lc1 u r ax2 lc2 t q pos Hloop Hstep Hstack Hrange
      Hq Hcover.
    split; [| apply Qtrunc_nonneg].
    apply annotate_loop_shape in Hloop. destruct Hloop as (Hd1 & Hr1 & Hl1).
    apply annotate_pair_Ok in Hstep.
    destruct Hstep as (t0 & name & y & y_top & m & _ & _ & _ & _ & ->).
    simpl in Hstack. apply app_inj_tail in Hstack.
    destruct Hstack as [_ ->]. simpl.
    destruct (nth_error (row1 (y_stack_arr lc1)) q) as [v|] eqn:Hv.
    + rewrite (assign_range_nth _ _ _ _ _ _ _ q pos v Hq Hv).
      unfold covers in Hcover. rewrite Hcover, Hd1, Hdtype.
      unfold astype, int64_of.
      destruct Hrange as [Hlo Hhi].
      apply Z.leb_le in Hlo. apply Z.leb_le in Hhi. rewrite Hlo, Hhi.
      reflexivity.
    + apply nth_error_None in Hv.
      assert (q < List.length (row0 (y_stack_arr lc1)))%nat
        by (apply nth_error_Some; congruence).
      rewrite Hl1, Hlen, <- Hr1 in Hv. lia.
Qed.

Lemma integer_array_witness :
  exists p u r v r' ax1 lc1 t,
    prepare Inputs.plain_env Inputs.integer_overlapping Inputs.axes_0_10
      = Ok p /\
    combine (prep_pairs p) (prep_results p) = [(u, r); (v, r')] /\
    annotate_pair Inputs.plain_env Inputs.integer_overlapping (prep_cfg p)
      (prep_locals p) Inputs.axes_0_10 (u, r) = (ax1, Ok lc1) /\
    y_stack lc1 = [Some t] /\
    Qtrunc t = 5%Z /\
    nth_error (row1 (y_stack_arr lc1)) 0 = Some (Some (inject_Z (Qtrunc t))).
Proof.
  do 8 eexists.
  match goal with
  | |- ?G /\ _ => assert (Hp : G) by (vm_compute; reflexivity)
  end.
  split; [exact Hp |].
  split; [vm_compute; reflexivity |].
  match goal with
  | |- ?G /\ _ => assert (Hu : G) by (vm_compute; reflexivity)
  end.
  split; [exact Hu |].
  match goal with
  | |- ?G /\ _ => assert (Hs : G) by (vm_compute; reflexivity)
  end.
  split; [exact Hs |].
  split; [vm_compute; reflexivity |].
  destruct (integer_array_keeps_integer_part Inputs.plain_env
              Inputs.integer_overlapping Inputs.axes_0_10 _ Hp
              eq_refl eq_refl) as (_ & _ & Hstore).
  - discriminate.
  - intros s Hs'. simpl in Hs'.
    destruct Hs' as [<- | [<- | [<- | []]]]; discriminate.
  - refine (proj1 (Hstore [] _ _ _ _ _ _ _ 0%nat 0 eq_refl Hu Hs _ eq_refl
                     eq_refl)).
    vm_compute. split; discriminate.
Defined.
